(** * strava-client: the request pipeline, token lifecycle, pagination and
      error taxonomy of the Strava API client, embedded in Rocq.

    Sources embedded here:
    - [src/client.ts]            the client class (transport, tokens, pagination);
    - [src/client.test.ts]       its tail holds the error classes and
                                 [parseStravaError] (file errors.ts);
    - [src/unnamed/part_002]     a later revision of the client, the only one
                                 with [parseWebhookEvent], the copying
                                 [getTokens] and the [onRequest] hook.

    JavaScript numbers that the code handles are integers (epoch seconds,
    milliseconds, HTTP statuses, counters) and are modelled in [Z].  Strings
    are byte strings. *)

From Stdlib Require Import ZArith String Ascii List Lia Bool.
From stdpp Require Import base option list gmap strings pretty.

Open Scope string_scope.
Open Scope Z_scope.

Set Warnings "-register-all".

(* ===================================================================== *)
(** * JavaScript built-ins used by the client *)
(* ===================================================================== *)

Module JS.

(** The result of a string-to-number conversion.  A Number is an IEEE
    double.  [Int z] is the double that equals the mathematical integer [z];
    the conversions below produce it only for [|z| <= 2^53], where every
    integer is a double and the conversion is exact.  [Real lit] is the
    double nearest to the numeric text [lit], for a text that is not a plain
    decimal integer (fraction, exponent, radix prefix, [Infinity], negative
    zero) or whose integer is beyond [2^53] and may be rounded: the text is
    kept, its IEEE value is not computed. *)
Inductive number : Type :=
| Int (z : Z)
| NaN
| Real (lit : string).

Definition isNaN (n : number) : bool :=
  match n with NaN => true | _ => false end.

(** A string is truthy unless it is empty. *)
Definition truthy (s : string) : bool :=
  match s with EmptyString => false | _ => true end.

(** An optional string ([null]/[undefined] is [None]) used as a condition. *)
Definition truthy_opt (o : option string) : bool :=
  match o with Some s => truthy s | None => false end.

(** [a || b] on a possibly-missing string and a string. *)
Definition or_else (o : option string) (d : string) : string :=
  match o with
  | Some s => if truthy s then s else d
  | None => d
  end.

Definition chars (s : string) : list ascii := list_ascii_of_string s.
Definition str (l : list ascii) : string := string_of_list_ascii l.

(** The largest [n] such that every integer up to [n] is a double: 2^53. *)
Definition MAX_EXACT_INTEGER : Z := 9007199254740992.

(** StrWhiteSpaceChar, restricted to the one-byte code points: TAB, LF, VT,
    FF, CR, SP and NBSP (U+00A0, which is white space and is byte 160 of a
    header value). *)
Definition is_ws (c : ascii) : bool :=
  let n := nat_of_ascii c in
  ((9 <=? n)%nat && (n <=? 13)%nat) || (n =? 32)%nat || (n =? 160)%nat.

Definition is_digit (c : ascii) : bool :=
  let n := nat_of_ascii c in (48 <=? n)%nat && (n <=? 57)%nat.

Definition is_octal (c : ascii) : bool :=
  let n := nat_of_ascii c in (48 <=? n)%nat && (n <=? 55)%nat.

Definition is_binary (c : ascii) : bool :=
  let n := nat_of_ascii c in (n =? 48)%nat || (n =? 49)%nat.

(** Value of a hexadecimal digit, if it is one. *)
Definition hex_val (c : ascii) : option Z :=
  let n := nat_of_ascii c in
  if (48 <=? n)%nat && (n <=? 57)%nat then Some (Z.of_nat n - 48)
  else if (97 <=? n)%nat && (n <=? 102)%nat then Some (Z.of_nat n - 87)
  else if (65 <=? n)%nat && (n <=? 70)%nat then Some (Z.of_nat n - 55)
  else None.

Definition is_hex (c : ascii) : bool :=
  match hex_val c with Some _ => true | None => false end.

Definition digit_val (c : ascii) : option Z :=
  if is_digit c then Some (Z.of_nat (nat_of_ascii c) - 48) else None.

Fixpoint drop_ws (l : list ascii) : list ascii :=
  match l with
  | c :: r => if is_ws c then drop_ws r else l
  | [] => []
  end.

Definition trim (l : list ascii) : list ascii :=
  rev (drop_ws (rev (drop_ws l))).

(** Longest prefix of characters satisfying [p], and the rest. *)
Fixpoint span (p : ascii -> bool) (l : list ascii) : list ascii * list ascii :=
  match l with
  | c :: r =>
      if p c then let '(a, b) := span p r in (c :: a, b) else ([], l)
  | [] => ([], [])
  end.

Definition nonempty {A : Type} (l : list A) : bool :=
  match l with [] => false | _ => true end.

(** Mathematical value of a digit string in the given radix. *)
Definition digits_value (radix : Z) (val : ascii -> option Z) (l : list ascii) : Z :=
  fold_left (fun acc c => acc * radix + default 0 (val c)) l 0.

Definition is_sign (c : ascii) : bool :=
  (nat_of_ascii c =? 43)%nat || (nat_of_ascii c =? 45)%nat.

Definition is_minus (c : ascii) : bool := (nat_of_ascii c =? 45)%nat.

Definition is_e (c : ascii) : bool :=
  (nat_of_ascii c =? 101)%nat || (nat_of_ascii c =? 69)%nat.

Definition strip_sign (l : list ascii) : bool * list ascii :=
  match l with
  | c :: r => if is_sign c then (is_minus c, r) else (false, l)
  | [] => (false, [])
  end.

(** ExponentPart, optional: nothing, or [e]/[E], an optional sign and at
    least one digit, up to the end of the string. *)
Definition exponent_ok (l : list ascii) : bool :=
  match l with
  | [] => true
  | c :: r =>
      is_e c &&
      (let '(_, ds) := strip_sign r in nonempty ds && forallb is_digit ds)
  end.

(** StrUnsignedDecimalLiteral. *)
Definition unsigned_decimal_ok (l : list ascii) : bool :=
  if decide (l = chars "Infinity") then true
  else
    let '(ip, r) := span is_digit l in
    match r with
    | c :: r' =>
        if (nat_of_ascii c =? 46)%nat
        then let '(fp, r'') := span is_digit r' in
             (nonempty ip || nonempty fp) && exponent_ok r''
        else nonempty ip && exponent_ok r
    | [] => nonempty ip
    end.

(** NonDecimalIntegerLiteral: [0x], [0o] or [0b] and digits of that radix. *)
Definition non_decimal_ok (l : list ascii) : bool :=
  match l with
  | z :: p :: ds =>
      (nat_of_ascii z =? 48)%nat && nonempty ds &&
      let n := nat_of_ascii p in
      if (n =? 120)%nat || (n =? 88)%nat then forallb is_hex ds
      else if (n =? 111)%nat || (n =? 79)%nat then forallb is_octal ds
      else if (n =? 98)%nat || (n =? 66)%nat then forallb is_binary ds
      else false
  | _ => false
  end.

(** StrNumericLiteral: the strings (already trimmed, not empty) that
    [Number] does not turn into [NaN]. *)
Definition numeric_literal_ok (l : list ascii) : bool :=
  non_decimal_ok l || unsigned_decimal_ok (snd (strip_sign l)).

(** [Number(s)] on a string (StringToNumber). *)
Definition Number (s : string) : number :=
  let l := trim (chars s) in
  match l with
  | [] => Int 0
  | _ =>
      let '(neg, ds) := strip_sign l in
      if nonempty ds && forallb is_digit ds then
        let v := digits_value 10 digit_val ds in
        if MAX_EXACT_INTEGER <? v then Real (str l)
        else if neg then (if v =? 0 then Real (str l) else Int (- v)) else Int v
      else if numeric_literal_ok l then Real (str l)
      else NaN
  end.

(** [parseInt(s)] with no radix argument.  An integer beyond [2^53] is
    kept as the text that was read (sign, radix prefix, digits). *)
Definition parseInt (s : string) : number :=
  let '(neg, l) := strip_sign (drop_ws (chars s)) in
  let '(radix, val, l') :=
    match l with
    | z :: x :: r =>
        if (nat_of_ascii z =? 48)%nat &&
           ((nat_of_ascii x =? 120)%nat || (nat_of_ascii x =? 88)%nat)
        then (16, hex_val, r) else (10, digit_val, l)
    | _ => (10, digit_val, l)
    end in
  let '(ds, _) := span (fun c => match val c with Some _ => true | None => false end) l' in
  match ds with
  | [] => NaN
  | _ =>
      let v := digits_value radix val ds in
      if MAX_EXACT_INTEGER <? v
      then Real ((if neg then "-" else "") +:+ (if radix =? 16 then "0x" else "") +:+ str ds)
      else if neg then (if v =? 0 then Real "-0" else Int (- v)) else Int v
  end.

(** [s.split(sep)] for a one-character separator. *)
Fixpoint split (sep : ascii) (s : string) : list string :=
  match s with
  | EmptyString => [EmptyString]
  | String c rest =>
      if ascii_dec c sep then EmptyString :: split sep rest
      else match split sep rest with
           | h :: t => String c h :: t
           | [] => [String c EmptyString]
           end
  end.

(** Array destructuring [[a, b] = xs]: a missing element is [undefined]. *)
Definition nth_or_undefined {A : Type} (xs : list A) (i : nat) : option A := nth_error xs i.

(** A [Headers] object: at most one (combined) value per lower-cased name. *)
Definition Headers : Type := gmap string string.

(** [headers.get(name)], [null] when the header is absent. *)
Definition Headers_get (h : Headers) (name : string) : option string := h !! name.

(** Native errors, by constructor, [name] and [message]. *)
Inductive ErrorCtor := ErrorC | TypeErrorC | SyntaxErrorC | DOMExceptionC.

Record Error := mkError { ctor : ErrorCtor; name : string; emessage : string }.

(** [hay.includes(needle)] on strings. *)
Fixpoint prefix_of (p s : string) : bool :=
  match p, s with
  | EmptyString, _ => true
  | String a p', String b s' => if ascii_dec a b then prefix_of p' s' else false
  | _, EmptyString => false
  end.

Fixpoint includes (hay needle : string) : bool :=
  prefix_of needle hay ||
  match hay with
  | EmptyString => false
  | String _ rest => includes rest needle
  end.

End JS.

(* ===================================================================== *)
(** * errors.ts: the error taxonomy and its classifier *)
(* ===================================================================== *)

Module Errors.
Import JS.

(** The class of a [StravaError] instance ([Base] is [StravaError] itself;
    every other class extends it, so [instanceof StravaError] holds of all). *)
Inductive ErrorClass :=
| Base | Authentication | Authorization | NotFound | RateLimit
| TokenRefresh | Validation | Network | Api.

Record StravaError := mkStravaError {
  class : ErrorClass;
  message : string;
  code : string;
  statusCode : option Z;
  retryAfter : option number;
  limit : option string;
  usage : option string
}.

(** [new StravaError(message, code = "STRAVA_ERROR", statusCode?)]. *)
Definition new_StravaError (msg : string) (c : option string) (sc : option Z)
  : StravaError :=
  mkStravaError Base msg (default "STRAVA_ERROR" c) sc None None None.

Definition subclass (k : ErrorClass) (msg c : string) (sc : option Z) : StravaError :=
  mkStravaError k msg c sc None None None.

Definition StravaAuthenticationError (msg : option string) : StravaError :=
  subclass Authentication (default "Authentication failed" msg) "STRAVA_AUTH_ERROR" (Some 401).

Definition StravaAuthorizationError (msg : option string) : StravaError :=
  subclass Authorization (default "Access denied - insufficient permissions" msg)
    "STRAVA_AUTHORIZATION_ERROR" (Some 403).

Definition StravaNotFoundError (msg : option string) : StravaError :=
  subclass NotFound (default "Resource not found" msg) "STRAVA_NOT_FOUND" (Some 404).

Definition StravaRateLimitError (msg : option string) (retry : option number)
    (lim use : option string) : StravaError :=
  mkStravaError RateLimit (default "Rate limit exceeded" msg) "STRAVA_RATE_LIMIT"
    (Some 429) retry lim use.

Definition StravaTokenRefreshError (msg : option string) : StravaError :=
  subclass TokenRefresh (default "Failed to refresh access token" msg)
    "STRAVA_TOKEN_REFRESH_ERROR" (Some 401).

Definition StravaValidationError (msg : option string) : StravaError :=
  subclass Validation (default "Invalid request parameters" msg)
    "STRAVA_VALIDATION_ERROR" (Some 400).

Definition StravaNetworkError (msg : option string) : StravaError :=
  subclass Network (default "Network request failed" msg) "STRAVA_NETWORK_ERROR" None.

Definition StravaApiError (msg : option string) (sc : option Z) : StravaError :=
  subclass Api (default "Strava API error" msg) "STRAVA_API_ERROR" (Some (default 500 sc)).

(** [data?: { message?: string; errors?: unknown }] ([errors] is never read). *)
Record ErrorData := mkErrorData { data_message : option string }.

Record StravaErrorResponse := mkErrorResponse {
  status : Z;
  data : option ErrorData;
  headers : Headers;
  context : option string
}.

(** What [parseStravaError] returns on: an instance of [StravaError] (of
    any class), a value that passes [isStravaErrorResponse], another [Error],
    or any other value that has a string form.  The function reads a value
    of the last kind only through [String(error)], so such a value is given
    by that string.  The values on which [String(error)] throws are those of
    [Unknown] below, with the function on them. *)
Inductive ErrorInput :=
| InStrava (e : StravaError)
| InResponse (r : StravaErrorResponse)
| InNative (e : JS.Error)
| InOther (string_form : string).

(** [`Request failed with status ${status}`]. *)
Definition status_message (st : Z) : string :=
  "Request failed with status " +:+ pretty st.

Definition parseStravaError (error : ErrorInput) : StravaError :=
  match error with
  | InStrava e => e
  | InResponse r =>
      let message := or_else (data r ≫= data_message) (status_message (status r)) in
      if status r =? 429 then
        let retryAfterHeader := Headers_get (headers r) "retry-after" in
        StravaRateLimitError (Some message)
          (if truthy_opt retryAfterHeader then parseInt <$> retryAfterHeader else None)
          (Headers_get (headers r) "x-ratelimit-limit")
          (Headers_get (headers r) "x-ratelimit-usage")
      else if status r =? 401 then StravaAuthenticationError (Some message)
      else if status r =? 403 then StravaAuthorizationError (Some message)
      else if status r =? 404 then StravaNotFoundError (Some message)
      else if status r =? 400 then StravaValidationError (Some message)
      else if status r >=? 500 then StravaApiError (Some message) (Some (status r))
      else
        new_StravaError
          (if truthy_opt (context r)
           then default "" (context r) +:+ ": " +:+ message
           else message)
          (Some "STRAVA_HTTP_ERROR") (Some (status r))
  | InNative e => new_StravaError (emessage e) (Some "STRAVA_ERROR") None
  | InOther s => new_StravaError s (Some "STRAVA_UNKNOWN_ERROR") None
  end.

(** What a [throw] or a rejected promise carries inside the client. *)
Inductive Exn :=
| ExStrava (e : StravaError)
| ExNative (e : JS.Error).

(** ** The parameter at its declared type *)





End Errors.

(* ===================================================================== *)
(** * types.ts: the data the client holds and exchanges *)
(* ===================================================================== *)

Module Types.
Import JS Errors.

(** The token triple.  [expiresAt] is a time in epoch seconds and is taken
    to be an integer: a triple whose [expiresAt] is [NaN] (on which both
    comparisons of the client are false) is outside this model. *)
Record StravaTokens := mkTokens {
  accessToken : string;
  refreshToken : string;
  expiresAt : Z
}.

(** The [athlete] summary of a token response is never read and is left out. *)
Record StravaTokenResponse := mkTokenResponse {
  token_type : string;
  expires_at : Z;
  expires_in : Z;
  refresh_token : string;
  access_token : string
}.

(** One window of the rate-limit snapshot.  The fields are declared
    [number]; at run time they hold whatever the destructured, converted
    header pieces are, [undefined] ([None]) included. *)
Record RateWindow := mkWindow {
  w_usage : option number;
  w_limit : option number
}.

Record StravaRateLimitInfo := mkRateLimitInfo {
  shortTerm : RateWindow;
  longTerm : RateWindow
}.

(** [onTokenRefresh]: what the callback (and the promise it may return)
    ends in, [None] for a normal return and [Some e] for a throw or a
    rejection. *)
Definition Callback : Type := StravaTokens -> option Exn.

(** The constructor argument: optional fields may be missing. *)
Record StravaClientConfig := mkClientConfig {
  cfg_clientId : string;
  cfg_clientSecret : string;
  cfg_redirectUri : option string;
  cfg_autoRefresh : option bool;
  cfg_refreshBuffer : option Z;
  cfg_timeout : option Z;
  cfg_onTokenRefresh : option Callback
}.

(** [Required<StravaClientConfig>], what the constructor stores. *)
Record Config := mkConfig {
  clientId : string;
  clientSecret : string;
  redirectUri : string;
  autoRefresh : bool;
  refreshBuffer : Z;
  timeout : Z;
  onTokenRefresh : Callback
}.

(** The identity of a promise created by the client. *)
Definition PromiseId : Type := nat.

(** The fields of a [StravaClient] instance. *)
Record Client := mkClient {
  config : Config;
  tokens : option StravaTokens;
  rateLimitInfo : option StravaRateLimitInfo;
  refreshPromise : option PromiseId
}.

Inductive Method := GET | POST | PUT.

(** A plain object used as a string-to-string record (request headers). *)
Definition HeaderRecord : Type := gmap string string.

(** A JSON-like value, for endpoint payloads and webhook bodies.  Numbers of
    payloads are integers (identifiers, timestamps). *)
Inductive value :=
| VUndefined
| VNull
| VBool (b : bool)
| VNumber (n : Z)
| VString (s : string)
| VArray (items : list value)
| VObject (props : list (string * value)).

(** A response body.  [response.json()] is an unchecked cast in the source:
    to the error payload on a failed response, to [StravaTokenResponse] on
    the OAuth endpoints, to the endpoint's type elsewhere.  A body is
    therefore given by its text and by what it reads as at each of these
    types; [None] is a text that is not JSON, on which [json()] rejects. *)
Record Body := mkBody {
  text : string;
  json_error : option ErrorData;
  json_tokens : option StravaTokenResponse;
  json_value : option value;
  json_array : option (list value)
}.

Record Response := mkResponse {
  ok : bool;
  rstatus : Z;
  rheaders : Headers;
  body : Body
}.

(** One call of the global [fetch], with the delay of the timer that aborts
    its signal. *)
Record FetchCall := mkFetchCall {
  url : string;
  method : Method;
  req_headers : option HeaderRecord;
  req_body : option string;
  timer : Z
}.

(** What the network does with a call, left alone: answer or fail after
    some milliseconds, or never settle. *)
Inductive NetBehaviour :=
| Responds (latency : Z) (r : Response)
| Fails (latency : Z) (e : JS.Error)
| Hangs.

(** The rejection of a fetch whose signal was aborted. *)
Definition AbortError : JS.Error :=
  mkError DOMExceptionC "AbortError" "This operation was aborted".

(** What [await fetch(url, { signal })] yields when the signal is aborted
    [timer] milliseconds after the call: the network's answer if it comes
    first, an [AbortError] rejection otherwise. *)
Definition settle (timer : Z) (b : NetBehaviour) : JS.Error + Response :=
  match b with
  | Responds latency r => if latency <? timer then inr r else inl AbortError
  | Fails latency e => if latency <? timer then inl e else inl AbortError
  | Hangs => inl AbortError
  end.

End Types.

(* ===================================================================== *)
(** * Async functions and the event loop *)
(* ===================================================================== *)

(** The bodies of the client's methods are written in [Prog]: straight-line
    code over the instance fields, with one constructor per effect.  [Fetch],
    [OnTokenRefresh] and [Await] are the suspension points ([await] on
    something the environment or another computation settles); the awaits
    that only read a response body are not separated from the segment that
    precedes them, since nothing reads or writes the instance in between. *)

Module Async.
Import JS Errors Types.

Inductive Prog (A : Type) : Type :=
| Ret (a : A)
| Throw (e : Exn)
| GetThis (k : Client -> Prog A)
| SetThis (c : Client) (k : Prog A)
| DateNow (k : Z -> Prog A)
| Fetch (call : FetchCall) (k : JS.Error + Response -> Prog A)
| OnTokenRefresh (t : StravaTokens) (k : option Exn -> Prog A)
| Async (body : Prog StravaTokenResponse) (k : PromiseId -> Prog A)
| Await (p : PromiseId) (k : Exn + StravaTokenResponse -> Prog A).

Arguments Ret {A} a.
Arguments Throw {A} e.
Arguments GetThis {A} k.
Arguments SetThis {A} c k.
Arguments DateNow {A} k.
Arguments Fetch {A} call k.
Arguments OnTokenRefresh {A} t k.
Arguments Async {A} body k.
Arguments Await {A} p k.

Fixpoint bind {A B : Type} (p : Prog A) (f : A -> Prog B) : Prog B :=
  match p with
  | Ret a => f a
  | Throw e => Throw e
  | GetThis k => GetThis (fun c => bind (k c) f)
  | SetThis c k => SetThis c (bind k f)
  | DateNow k => DateNow (fun n => bind (k n) f)
  | Fetch call k => Fetch call (fun r => bind (k r) f)
  | OnTokenRefresh t k => OnTokenRefresh t (fun r => bind (k r) f)
  | Async body k => Async body (fun p => bind (k p) f)
  | Await p k => Await p (fun r => bind (k r) f)
  end.

#[global] Instance prog_ret : MRet Prog := fun A a => Ret a.
#[global] Instance prog_bind : MBind Prog := fun A B f p => bind p f.

(** [try { p } catch (error) { h error }]. *)
Fixpoint try_catch {A : Type} (p : Prog A) (h : Exn -> Prog A) : Prog A :=
  match p with
  | Ret a => Ret a
  | Throw e => h e
  | GetThis k => GetThis (fun c => try_catch (k c) h)
  | SetThis c k => SetThis c (try_catch k h)
  | DateNow k => DateNow (fun n => try_catch (k n) h)
  | Fetch call k => Fetch call (fun r => try_catch (k r) h)
  | OnTokenRefresh t k => OnTokenRefresh t (fun r => try_catch (k r) h)
  | Async body k => Async body (fun p => try_catch (k p) h)
  | Await p k => Await p (fun r => try_catch (k r) h)
  end.

(** [try { p } finally { f }], for a block [f] that neither throws nor
    returns. *)
Definition try_finally {A : Type} (p : Prog A) (f : Prog unit) : Prog A :=
  a ← try_catch p (fun e => bind f (fun _ => Throw e)); bind f (fun _ => Ret a).

Definition this : Prog Client := GetThis Ret.
Definition set_this (c : Client) : Prog unit := SetThis c (Ret tt).
Definition now_ms : Prog Z := DateNow Ret.
Definition await_fetch (call : FetchCall) : Prog (JS.Error + Response) := Fetch call Ret.
Definition await_promise (p : PromiseId) : Prog StravaTokenResponse :=
  Await p (fun r => match r with inl e => Throw e | inr d => Ret d end).
Definition await_onTokenRefresh (t : StravaTokens) : Prog unit :=
  OnTokenRefresh t (fun r => match r with Some e => Throw e | None => Ret tt end).
Definition async (body : Prog StravaTokenResponse) : Prog PromiseId := Async body Ret.

(** ** One synchronous segment *)

(** What a suspended computation waits for: the fetch it issued (the index
    of the call in the log, and its timer), the callback it invoked (whose
    outcome is known to the model, not yet to the computation), or a
    promise. *)
Inductive Blocked (A : Type) : Type :=
| WFetch (id : nat) (tm : Z) (k : JS.Error + Response -> Prog A)
| WCallback (r : option Exn) (k : option Exn -> Prog A)
| WPromise (p : PromiseId) (k : Exn + StravaTokenResponse -> Prog A).

Arguments WFetch {A} id tm k.
Arguments WCallback {A} r k.
Arguments WPromise {A} p k.

Inductive PromiseState :=
| Pending (b : Blocked StravaTokenResponse)
| Settled (r : Exn + StravaTokenResponse).

(** The client instance and what the outside sees of it: the calls of
    [fetch] so far, the invocations of [onTokenRefresh] so far, and the
    promises created by the client. *)
Record World := mkWorld {
  self : Client;
  clock : Z;
  netlog : list FetchCall;
  cblog : list StravaTokens;
  promises : list PromiseState
}.

Inductive Step (A : Type) : Type :=
| Finished (r : Exn + A)
| Suspended (b : Blocked A).

Arguments Finished {A} r.
Arguments Suspended {A} b.

Definition set_self (c : Client) (w : World) : World :=
  mkWorld c (clock w) (netlog w) (cblog w) (promises w).
Definition log_fetch (call : FetchCall) (w : World) : World :=
  mkWorld (self w) (clock w) (netlog w ++ [call]) (cblog w) (promises w).
Definition log_callback (t : StravaTokens) (w : World) : World :=
  mkWorld (self w) (clock w) (netlog w) (cblog w ++ [t]) (promises w).
Definition add_promise (s : PromiseState) (w : World) : World :=
  mkWorld (self w) (clock w) (netlog w) (cblog w) (promises w ++ [s]).
Definition set_promise (p : PromiseId) (s : PromiseState) (w : World) : World :=
  mkWorld (self w) (clock w) (netlog w) (cblog w) (<[p := s]> (promises w)).
Definition set_clock (t : Z) (w : World) : World :=
  mkWorld (self w) t (netlog w) (cblog w) (promises w).

Definition promise_of_step (s : Step StravaTokenResponse) : PromiseState :=
  match s with
  | Finished r => Settled r
  | Suspended b => Pending b
  end.

(** Run a computation up to its first suspension point.  Calling an async
    function ([Async]) runs its body up to the body's first suspension
    point and hands back its promise. *)
Fixpoint run_sync {A : Type} (p : Prog A) (w : World) : Step A * World :=
  match p with
  | Ret a => (Finished (inr a), w)
  | Throw e => (Finished (inl e), w)
  | GetThis k => run_sync (k (self w)) w
  | SetThis c k => run_sync k (set_self c w)
  | DateNow k => run_sync (k (clock w)) w
  | Fetch call k =>
      (Suspended (WFetch (length (netlog w)) (timer call) k), log_fetch call w)
  | OnTokenRefresh t k =>
      (Suspended (WCallback (onTokenRefresh (config (self w)) t) k), log_callback t w)
  | Async body k =>
      let '(s, w1) := run_sync body w in
      run_sync (k (length (promises w1))) (add_promise (promise_of_step s) w1)
  | Await p k => (Suspended (WPromise p k), w)
  end.

(** ** The event loop *)

Inductive Task (A : Type) : Type :=
| Idle (p : Prog A)
| Waiting (b : Blocked A)
| Done (r : Exn + A).

Arguments Idle {A} p.
Arguments Waiting {A} b.
Arguments Done {A} r.

Record Loop (A : Type) := mkLoop {
  world : World;
  tasks : list (Task A)
}.

Arguments mkLoop {A} world tasks.
Arguments world {A} l.
Arguments tasks {A} l.

(** A thread of control: a top-level call, or the body of a promise. *)
Inductive Thread := TaskT (i : nat) | PromiseT (p : PromiseId).

Arguments TaskT i%_nat.
Arguments PromiseT p%_nat.

(** What can happen: a caller invokes its method at some time; the network
    settles the fetch a thread waits for; a thread whose callback or
    promise has settled is resumed. *)
Inductive Event :=
| Call (i : nat) (at_ms : Z)
| Net (th : Thread) (b : NetBehaviour)
| Wake (th : Thread).

Arguments Call i%_nat at_ms%_Z.

Definition task_of_step {A : Type} (s : Step A) : Task A :=
  match s with
  | Finished r => Done r
  | Suspended b => Waiting b
  end.

(** Resume thread [th] with the computation [q]. *)
Definition continue_task {A : Type} (i : nat) (q : Prog A) (l : Loop A) : Loop A :=
  let '(s, w) := run_sync q (world l) in
  mkLoop w (<[i := task_of_step s]> (tasks l)).

Definition continue_promise {A : Type} (p : PromiseId) (q : Prog StravaTokenResponse)
    (l : Loop A) : Loop A :=
  let '(s, w) := run_sync q (world l) in
  mkLoop (set_promise p (promise_of_step s) w) (tasks l).

(** The continuation a blocked computation resumes with, if what it waits
    for has settled; a fetch is settled by the event itself. *)
Definition wake_blocked {A : Type} (w : World) (b : Blocked A) : option (Prog A) :=
  match b with
  | WFetch _ _ _ => None
  | WCallback r k => Some (k r)
  | WPromise p k =>
      match promises w !! p with
      | Some (Settled r) => Some (k r)
      | _ => None
      end
  end.

Definition net_blocked {A : Type} (nb : NetBehaviour) (b : Blocked A) : option (Prog A) :=
  match b with
  | WFetch _ tm k => Some (k (settle tm nb))
  | _ => None
  end.

(** One event.  An event that is not enabled leaves the loop as it is. *)
Definition step {A : Type} (e : Event) (l : Loop A) : Loop A :=
  match e with
  | Call i at_ms =>
      match tasks l !! i with
      | Some (Idle p) =>
          continue_task i p (mkLoop (set_clock at_ms (world l)) (tasks l))
      | _ => l
      end
  | Net (TaskT i) nb =>
      match tasks l !! i with
      | Some (Waiting b) =>
          match net_blocked nb b with Some q => continue_task i q l | None => l end
      | _ => l
      end
  | Net (PromiseT p) nb =>
      match promises (world l) !! p with
      | Some (Pending b) =>
          match net_blocked nb b with Some q => continue_promise p q l | None => l end
      | _ => l
      end
  | Wake (TaskT i) =>
      match tasks l !! i with
      | Some (Waiting b) =>
          match wake_blocked (world l) b with
          | Some q => continue_task i q l
          | None => l
          end
      | _ => l
      end
  | Wake (PromiseT p) =>
      match promises (world l) !! p with
      | Some (Pending b) =>
          match wake_blocked (world l) b with
          | Some q => continue_promise p q l
          | None => l
          end
      | _ => l
      end
  end.

Definition run_events {A : Type} (es : list Event) (l : Loop A) : Loop A :=
  fold_left (fun l e => step e l) es l.

End Async.

(* ===================================================================== *)
(** * client.ts *)
(* ===================================================================== *)

Module Client.
Import JS Errors Types Async.

Definition STRAVA_API_BASE_URL : string := "https://www.strava.com/api/v3".
Definition STRAVA_OAUTH_BASE_URL : string := "https://www.strava.com/oauth".
Definition DEFAULT_REFRESH_BUFFER : Z := 600.
Definition DEFAULT_TIMEOUT : Z := 30000.

(** ** Serialisation helpers (URLSearchParams, JSON.stringify) *)

Definition hex_digit (upper : bool) (n : nat) : ascii :=
  ascii_of_nat (if (n <? 10)%nat then 48 + n else (if upper then 55 else 87) + n)%nat.

Definition is_alnum (c : ascii) : bool :=
  let n := nat_of_ascii c in
  is_digit c || ((65 <=? n)%nat && (n <=? 90)%nat) || ((97 <=? n)%nat && (n <=? 122)%nat).

(** The application/x-www-form-urlencoded byte serialiser. *)
Definition encode_byte (c : ascii) : list ascii :=
  let n := nat_of_ascii c in
  if is_alnum c || (n =? 42)%nat || (n =? 45)%nat || (n =? 46)%nat || (n =? 95)%nat
  then [c]
  else if (n =? 32)%nat then [ascii_of_nat 43]
  else [ascii_of_nat 37; hex_digit true (n / 16); hex_digit true (n mod 16)].

Definition urlencode (s : string) : string :=
  str (concat (map encode_byte (chars s))).

Fixpoint join (sep : string) (l : list string) : string :=
  match l with
  | [] => ""
  | [x] => x
  | x :: r => x +:+ sep +:+ join sep r
  end.

(** [new URLSearchParams(...).toString()] over the appended pairs. *)
Definition URLSearchParams_toString (ps : list (string * string)) : string :=
  join "&" (map (fun kv => urlencode (fst kv) +:+ "=" +:+ urlencode (snd kv)) ps).

Definition dquote : string := String (ascii_of_nat 34) EmptyString.

(** QuoteJSONString on one byte. *)
Definition json_escape_byte (c : ascii) : string :=
  let n := nat_of_ascii c in
  if (n =? 34)%nat then "\" +:+ dquote
  else if (n =? 92)%nat then "\\"
  else if (n =? 8)%nat then "\b"
  else if (n =? 12)%nat then "\f"
  else if (n =? 10)%nat then "\n"
  else if (n =? 13)%nat then "\r"
  else if (n =? 9)%nat then "\t"
  else if (n <? 32)%nat
       then "\u00" +:+ str [hex_digit false (n / 16); hex_digit false (n mod 16)]
  else String c EmptyString.

Definition json_string (s : string) : string :=
  dquote +:+ String.concat "" (map json_escape_byte (chars s)) +:+ dquote.

(** [JSON.stringify] of an object whose properties are strings. *)
Definition JSON_stringify (props : list (string * string)) : string :=
  "{" +:+ join "," (map (fun kv => json_string (fst kv) +:+ ":" +:+ json_string (snd kv)) props)
      +:+ "}".

(** A query parameter value, and [String(value)] on it.  Numbers are
    integers below 10^21 in absolute value, which [String] prints in full
    (from there on it prints an exponent form). *)
Inductive ParamValue := PString (s : string) | PNumber (n : Z) | PBool (b : bool).

Definition String_of_param (v : ParamValue) : string :=
  match v with
  | PString s => s
  | PNumber n => pretty n
  | PBool b => if b then "true" else "false"
  end.

(** ** The constructor *)

Definition new_StravaClient (cfg : StravaClientConfig) : Client :=
  mkClient
    (mkConfig
       (cfg_clientId cfg)
       (cfg_clientSecret cfg)
       (or_else (cfg_redirectUri cfg) "")
       (default true (cfg_autoRefresh cfg))
       (default DEFAULT_REFRESH_BUFFER (cfg_refreshBuffer cfg))
       (default DEFAULT_TIMEOUT (cfg_timeout cfg))
       (default (fun _ => None) (cfg_onTokenRefresh cfg)))
    None None None.

Definition with_tokens (t : option StravaTokens) (c : Client) : Client :=
  mkClient (config c) t (rateLimitInfo c) (refreshPromise c).
Definition with_rateLimitInfo (r : option StravaRateLimitInfo) (c : Client) : Client :=
  mkClient (config c) (tokens c) r (refreshPromise c).
Definition with_refreshPromise (p : option PromiseId) (c : Client) : Client :=
  mkClient (config c) (tokens c) (rateLimitInfo c) p.

(** ** HTTP helpers *)

Definition getAuthHeaders : Prog HeaderRecord :=
  c ← this;
  match tokens c with
  | Some t =>
      if truthy (accessToken t)
      then mret ({[ "Authorization" := "Bearer " +:+ accessToken t ]} : HeaderRecord)
      else Throw (ExStrava (StravaValidationError
                    (Some "No access token available. Please authenticate first.")))
  | None => Throw (ExStrava (StravaValidationError
                    (Some "No access token available. Please authenticate first.")))
  end.

(** The snapshot built from the two header values. *)
Definition rate_limit_of (limitHeader usageHeader : string) : StravaRateLimitInfo :=
  let limits := map Number (split "," limitHeader) in
  let usages := map Number (split "," usageHeader) in
  let shortTermLimit := nth_or_undefined limits 0 in
  let longTermLimit := nth_or_undefined limits 1 in
  let shortTermUsage := nth_or_undefined usages 0 in
  let longTermUsage := nth_or_undefined usages 1 in
  mkRateLimitInfo (mkWindow shortTermUsage shortTermLimit)
                  (mkWindow longTermUsage longTermLimit).

Definition updateRateLimitInfo (headers : Headers) : Prog unit :=
  let limitHeader := Headers_get headers "x-ratelimit-limit" in
  let usageHeader := Headers_get headers "x-ratelimit-usage" in
  match limitHeader, usageHeader with
  | Some l, Some u =>
      if truthy l && truthy u
      then c ← this; set_this (with_rateLimitInfo (Some (rate_limit_of l u)) c)
      else mret tt
  | _, _ => mret tt
  end.

(** The [catch] block that [request] and [fetchWithTimeout] share (the
    timer is cleared first, which the model has no need to record). *)
Definition on_fetch_error {A : Type} (error : Exn) : Prog A :=
  match error with
  | ExNative e =>
      if String.eqb (name e) "AbortError"
      then Throw (ExStrava (StravaNetworkError (Some "Request timed out")))
      else
        match ctor e with
        | TypeErrorC =>
            if includes (emessage e) "fetch"
            then Throw (ExStrava (StravaNetworkError
                          (Some "Network error - unable to reach Strava")))
            else Throw error
        | _ => Throw error
        end
  | ExStrava _ => Throw error
  end.

(** [await fetch(...)]: a rejection is thrown. *)
Definition fetch (call : FetchCall) : Prog Response :=
  r ← await_fetch call;
  match r with
  | inl e => Throw (ExNative e)
  | inr response => mret response
  end.

(** The rejection of [response.json()] on a body that is not JSON, a
    [SyntaxError].  Its message is the engine's and depends on the body; one
    fixed text stands for it. *)
Definition SyntaxError : JS.Error :=
  mkError SyntaxErrorC "SyntaxError" "Unexpected token in JSON".

(** [await response.json()] read at the type of one of the body's views. *)
Definition json {T : Type} (view : Body -> option T) (response : Response) : Prog T :=
  match view (body response) with
  | Some v => mret v
  | None => Throw (ExNative SyntaxError)
  end.

(** [await response.json().catch(() => ({}))]. *)
Definition errorData_of (response : Response) : ErrorData :=
  default (mkErrorData None) (json_error (body response)).

Record FetchOptions (T : Type) := mkFetchOptions {
  fo_method : Method;
  fo_headers : option HeaderRecord;
  fo_body : option string;
  fo_parseResponse : Response -> Prog T;
  fo_context : option string;
  fo_skipRateLimit : bool;
  fo_timeout : option Z
}.
Arguments mkFetchOptions {T}.
Arguments fo_method {T}.
Arguments fo_headers {T}.
Arguments fo_body {T}.
Arguments fo_parseResponse {T}.
Arguments fo_context {T}.
Arguments fo_skipRateLimit {T}.
Arguments fo_timeout {T}.

(** Core fetch wrapper with timeout, error handling and rate limit tracking. *)
Definition fetchWithTimeout {T : Type} (url : string) (options : FetchOptions T) : Prog T :=
  c ← this;
  let timeout := default (timeout (config c)) (fo_timeout options) in
  try_catch
    (response ← fetch (mkFetchCall url (fo_method options) (fo_headers options)
                                   (fo_body options) timeout);
     _ ← (if negb (fo_skipRateLimit options)
          then updateRateLimitInfo (rheaders response) else mret tt);
     if negb (ok response)
     then Throw (ExStrava (parseStravaError (InResponse
                   (mkErrorResponse (rstatus response) (Some (errorData_of response))
                                    (rheaders response) (fo_context options)))))
     else fo_parseResponse options response)
    on_fetch_error.

Record RawOptions (T : Type) := mkRawOptions {
  ro_headers : option HeaderRecord;
  ro_body : option string;
  ro_parseResponse : option (Response -> Prog T);
  ro_context : option string;
  ro_skipRateLimit : bool
}.
Arguments mkRawOptions {T}.
Arguments ro_headers {T}.
Arguments ro_body {T}.
Arguments ro_parseResponse {T}.
Arguments ro_context {T}.
Arguments ro_skipRateLimit {T}.

(** Make a request with custom body.  [read] is the type at which the
    default strategy [(r) => r.json() as Promise<T>] reads the body. *)
Definition requestRaw {T : Type} (read : Body -> option T) (method : Method) (url : string)
    (options : RawOptions T) : Prog T :=
  fetchWithTimeout url
    (mkFetchOptions method (ro_headers options) (ro_body options)
       (default (json read) (ro_parseResponse options))
       (ro_context options) (ro_skipRateLimit options) None).

Record RequestOptions := mkRequestOptions {
  rq_params : option (list (string * option ParamValue));
  rq_body : option string;
  rq_headers : option HeaderRecord;
  rq_baseUrl : option string;
  rq_skipAuth : bool
}.

Definition no_options : RequestOptions := mkRequestOptions None None None None false.

(** The entries of [params] whose value is not [undefined], converted. *)
Definition defined_params (ps : list (string * option ParamValue)) : list (string * string) :=
  omap (fun kv => match snd kv with
                  | Some v => Some (fst kv, String_of_param v)
                  | None => None
                  end) ps.

Definition build_url (baseUrl path : string) (params : option (list (string * option ParamValue)))
  : string :=
  let url := baseUrl +:+ path in
  match params with
  | Some ps =>
      let queryString := URLSearchParams_toString (defined_params ps) in
      if truthy queryString then url +:+ "?" +:+ queryString else url
  | None => url
  end.

(** ** Token management *)

Definition setTokens (t : StravaTokens) : Prog unit :=
  c ← this; set_this (with_tokens (Some t) c).

(** [getTokens()], as a value; what the returned reference gives access to
    is the matter of [TokenStore] below. *)
Definition getTokens : Prog (option StravaTokens) :=
  c ← this; mret (tokens c).

Definition clearTokens : Prog unit :=
  c ← this; set_this (with_tokens None c).

Definition hasValidTokens : Prog bool :=
  c ← this;
  match tokens c with
  | None => mret false
  | Some t => ms ← now_ms; let now := ms / 1000 in mret (now <? expiresAt t)
  end.

Definition getRateLimitInfo : Prog (option StravaRateLimitInfo) :=
  c ← this; mret (rateLimitInfo c).

Definition tokens_of_response (d : StravaTokenResponse) : StravaTokens :=
  mkTokens (access_token d) (refresh_token d) (expires_at d).

(** Exchange authorization code for tokens. *)
Definition exchangeAuthorizationCode (code : string) : Prog StravaTokenResponse :=
  c ← this;
  d ← requestRaw json_tokens POST (STRAVA_OAUTH_BASE_URL +:+ "/token")
        (mkRawOptions
           (Some {[ "Content-Type" := "application/json" ]})
           (Some (JSON_stringify
                    [("client_id", clientId (config c));
                     ("client_secret", clientSecret (config c));
                     ("code", code);
                     ("grant_type", "authorization_code")]))
           None (Some "Exchange Authorization Code") true);
  c ← this;
  _ ← set_this (with_tokens (Some (tokens_of_response d)) c);
  mret d.

(** Refresh access token using refresh token. *)
Definition refreshAccessToken (refreshToken_arg : option string)
  : Prog StravaTokenResponse :=
  c ← this;
  let tokenToRefresh :=
    if truthy_opt refreshToken_arg then refreshToken_arg
    else refreshToken <$> tokens c in
  if negb (truthy_opt tokenToRefresh)
  then Throw (ExStrava (StravaTokenRefreshError (Some "No refresh token available")))
  else
    d ← requestRaw json_tokens POST (STRAVA_OAUTH_BASE_URL +:+ "/token")
          (mkRawOptions
             (Some {[ "Content-Type" := "application/json" ]})
             (Some (JSON_stringify
                      [("client_id", clientId (config c));
                       ("client_secret", clientSecret (config c));
                       ("grant_type", "refresh_token");
                       ("refresh_token", default "" tokenToRefresh)]))
             None (Some "Refresh Access Token") true);
    c ← this;
    _ ← set_this (with_tokens (Some (tokens_of_response d)) c);
    _ ← await_onTokenRefresh (tokens_of_response d);
    mret d.

(** [expiresAt < now + refreshBuffer]. *)
Definition shouldRefresh (c : Client) (t : StravaTokens) (now : Z) : bool :=
  expiresAt t <? now + refreshBuffer (config c).

(** Automatically refresh token if it's expired or expiring soon. *)
Definition refreshTokenIfNeeded : Prog unit :=
  c ← this;
  match tokens c with
  | None => mret tt
  | Some t =>
      ms ← now_ms;
      let now := ms / 1000 in
      if shouldRefresh c t now then
        match refreshPromise c with
        | Some p => _ ← await_promise p; mret tt
        | None =>
            p ← async (refreshAccessToken None);
            c ← this;
            _ ← set_this (with_refreshPromise (Some p) c);
            try_finally
              (_ ← await_promise p; mret tt)
              (c ← this; set_this (with_refreshPromise None c))
        end
      else mret tt
  end.

(** Make an authenticated request to the Strava API.  [read] is the type
    [T] at which the body of a successful response is read. *)
Definition request {T : Type} (read : Body -> option T) (method : Method) (path : string)
    (options : RequestOptions) : Prog T :=
  c ← this;
  _ ← (if autoRefresh (config c) && bool_decide (is_Some (tokens c))
          && negb (rq_skipAuth options)
       then refreshTokenIfNeeded else mret tt);
  let baseUrl := default STRAVA_API_BASE_URL (rq_baseUrl options) in
  let url := build_url baseUrl path (rq_params options) in
  let headers : HeaderRecord :=
    default ∅ (rq_headers options) ∪ {[ "Content-Type" := "application/json" ]} in
  headers ← (if negb (rq_skipAuth options)
             then authHeaders ← getAuthHeaders; mret (authHeaders ∪ headers)
             else mret headers);
  try_catch
    (response ← fetch (mkFetchCall url method (Some headers) (rq_body options)
                                   DEFAULT_TIMEOUT);
     _ ← updateRateLimitInfo (rheaders response);
     if negb (ok response)
     then Throw (ExStrava (parseStravaError (InResponse
                   (mkErrorResponse (rstatus response) (Some (errorData_of response))
                                    (rheaders response) None))))
     else json read response)
    on_fetch_error.

(** Make an authenticated request that returns text. *)
Definition requestText (method : Method) (path : string)
    (baseUrl_opt : option string) (headers_opt : option HeaderRecord) : Prog string :=
  c ← this;
  _ ← (if autoRefresh (config c) && bool_decide (is_Some (tokens c))
       then refreshTokenIfNeeded else mret tt);
  let baseUrl := default STRAVA_API_BASE_URL baseUrl_opt in
  let url := baseUrl +:+ path in
  authHeaders ← getAuthHeaders;
  fetchWithTimeout url
    (mkFetchOptions method (Some (default ∅ headers_opt ∪ authHeaders)) None
       (fun response => mret (text (body response))) None false None).

(** ** Endpoints *)

Definition getAthlete : Prog value :=
  request json_value GET "/athlete" no_options.

Record GetActivitiesOptions := mkActivitiesOptions {
  before : option Z;
  after : option Z;
  page : option Z;
  per_page : option Z
}.

(** [n || d] on an optional number. *)
Definition num_or (n : option Z) (d : Z) : Z :=
  match n with
  | Some v => if v =? 0 then d else v
  | None => d
  end.

Definition getActivities (options : GetActivitiesOptions) : Prog (list value) :=
  request json_array GET "/athlete/activities"
    (mkRequestOptions
       (Some [("before", PNumber <$> before options);
              ("after", PNumber <$> after options);
              ("page", Some (PNumber (num_or (page options) 1)));
              ("per_page", Some (PNumber (num_or (per_page options) 30)))])
       None None None false).

(** ** OAuth entry points and utilities *)

Inductive ApprovalPrompt := PromptAuto | PromptForce.

Definition String_of_prompt (p : ApprovalPrompt) : string :=
  match p with
  | PromptAuto => "auto"
  | PromptForce => "force"
  end.

Record AuthorizationUrlOptions := mkUrlOptions {
  uo_state : option string;
  uo_approvalPrompt : option ApprovalPrompt
}.

(** Get authorization URL for OAuth flow.  [scope] is [None] when the
    argument is left out (the default parameter value applies). *)
Definition getAuthorizationUrl (scope : option string)
    (options : option AuthorizationUrlOptions) : Prog string :=
  c ← this;
  if negb (truthy (redirectUri (config c)))
  then Throw (ExStrava (StravaValidationError (Some "Redirect URI is required for OAuth flow")))
  else
    let scope := default "activity:read_all" scope in
    let params :=
      [("client_id", clientId (config c));
       ("redirect_uri", redirectUri (config c));
       ("response_type", "code");
       ("approval_prompt",
        String_of_prompt (default PromptAuto (options ≫= uo_approvalPrompt)));
       ("scope", scope)] in
    let state := options ≫= uo_state in
    let params :=
      if truthy_opt state then (params ++ [("state", default "" state)])%list else params in
    mret (STRAVA_OAUTH_BASE_URL +:+ "/authorize?" +:+ URLSearchParams_toString params).

(** Deauthorize the application (revoke access). *)
Definition deauthorize : Prog unit :=
  c ← this;
  _ ← (if autoRefresh (config c) && bool_decide (is_Some (tokens c))
       then refreshTokenIfNeeded else mret tt);
  authHeaders ← getAuthHeaders;
  _ ← requestRaw json_value POST (STRAVA_OAUTH_BASE_URL +:+ "/deauthorize")
        (mkRawOptions (Some authHeaders) None None (Some "Deauthorize") true);
  clearTokens.

(** Test the connection with a simple API call. *)
Definition testConnection : Prog bool :=
  try_catch (_ ← getAthlete; mret true) (fun _ => mret false).

End Client.

(* ===================================================================== *)
(** * Pagination *)
(* ===================================================================== *)

(** The loop of [iterateActivities] (client.ts; the later revision names it
    [paginate] and takes the page-fetch function as an argument).  It is
    written once, over any monad, so that the same loop runs against the
    client ([Prog]) and against a recording stub ([Stub]).  The generator is
    given drained: the items in the order they are yielded, or [None] when
    the loop has not ended after [fuel] fetches. *)

Module Pagination.
Import JS Errors Types Async.

Section Loop.
Context {M : Type -> Type} `{!MRet M, !MBind M} {T : Type}.
Variable fetchPage : Z -> Z -> M (list T).
Variable perPage : Z.

Fixpoint paginate_from (fuel : nat) (page : Z) : M (option (list T)) :=
  match fuel with
  | O => mret None
  | S fuel' =>
      items ← fetchPage page perPage;
      if (length items =? 0)%nat then mret (Some [])
      else if Z.of_nat (length items) <? perPage then mret (Some items)
      else rest ← paginate_from fuel' (page + 1); mret (app items <$> rest)
  end.

Definition paginate (fuel : nat) : M (option (list T)) := paginate_from fuel 1.
End Loop.

(** [iterateActivities(options)], over the method it calls for each page. *)
Definition iterateActivities {M : Type -> Type} `{!MRet M, !MBind M} {T : Type}
    (getActivities : Client.GetActivitiesOptions -> M (list T))
    (options : Client.GetActivitiesOptions) (fuel : nat) : M (option (list T)) :=
  let perPage := Client.num_or (Client.per_page options) 200 in
  paginate
    (fun page per_page =>
       getActivities (Client.mkActivitiesOptions
                        (Client.before options) (Client.after options)
                        (Some page) (Some per_page)))
    perPage fuel.

(** [getAllActivities(options)]: every yielded item pushed, in order. *)
Definition getAllActivities {M : Type -> Type} `{!MRet M, !MBind M} {T : Type}
    (getActivities : Client.GetActivitiesOptions -> M (list T))
    (options : Client.GetActivitiesOptions) (fuel : nat) : M (option (list T)) :=
  iterateActivities getActivities options fuel.

(** The client's own instance. *)
Definition client_getAllActivities (options : Client.GetActivitiesOptions) (fuel : nat)
  : Prog (option (list value)) :=
  getAllActivities Client.getActivities options fuel.

(** A stub that records each call [(page, perPage)] and answers from a
    table of pages. *)
Definition Stub (A : Type) : Type := list (Z * Z) -> A * list (Z * Z).

#[global] Instance stub_ret : MRet Stub := fun A a calls => (a, calls).
#[global] Instance stub_bind : MBind Stub :=
  fun A B f m calls => let '(a, calls') := m calls in f a calls'.

Definition stub_fetch {T : Type} (pages : Z -> Z -> list T) : Z -> Z -> Stub (list T) :=
  fun page perPage calls => (pages page perPage, (calls ++ [(page, perPage)])%list).

(** A page after which the loop goes on, and one at which it stops. *)
Definition full_page {T : Type} (perPage : Z) (items : list T) : Prop :=
  length items <> 0%nat /\ perPage <= Z.of_nat (length items).

Definition last_page {T : Type} (perPage : Z) (items : list T) : Prop :=
  length items = 0%nat \/ Z.of_nat (length items) < perPage.

(** Pages [from], [from + 1], ..., [n] of them. *)
Fixpoint page_numbers (from : Z) (n : nat) : list Z :=
  match n with
  | O => []
  | S n' => from :: page_numbers (from + 1) n'
  end.

(** ** The generator, one item at a time *)

(** The same loop as a generator that is resumed by [next()].  A suspended
    generator is at the top of the [while] loop about to fetch [page]
    ([AtPage], also its state before the first [next()]), or inside the
    [for] over the items of [page] with [rest] still to yield ([InPage];
    [more] is whether that page was a full one), or it has returned. *)
Inductive GenState (T : Type) : Type :=
| AtPage (page : Z)
| InPage (page : Z) (rest : list T) (more : bool)
| Returned.

Arguments AtPage {T} page.
Arguments InPage {T} page rest more.
Arguments Returned {T}.

Section Generator.
Context {M : Type -> Type} `{!MRet M, !MBind M} {T : Type}.
Variable fetchPage : Z -> Z -> M (list T).
Variable perPage : Z.

(** One turn of the [while] loop up to its first [yield], or to the end. *)
Definition next_at (page : Z) : M (option T * GenState T) :=
  items ← fetchPage page perPage;
  match items with
  | [] => mret (None, Returned)
  | item :: rest =>
      mret (Some item, InPage page rest (negb (Z.of_nat (length items) <? perPage)))
  end.

(** [generator.next()]: the next item, or [None] when the generator
    returns. *)
Definition next (st : GenState T) : M (option T * GenState T) :=
  match st with
  | AtPage page => next_at page
  | InPage page (item :: rest) more => mret (Some item, InPage page rest more)
  | InPage page [] more => if more then next_at (page + 1) else mret (None, Returned)
  | Returned => mret (None, Returned)
  end.

(** [for await (const item of generator) { push(item); if (length >= k)
    break; }], for [k] at least one: the items pushed. *)
Fixpoint take (k : nat) (st : GenState T) : M (list T) :=
  match k with
  | O => mret []
  | S k' =>
      r ← next st;
      match r with
      | (Some item, st') => rest ← take k' st'; mret (item :: rest)
      | (None, _) => mret []
      end
  end.

(** [for await (const item of generator) { all.push(item); } return all],
    or [None] when the generator has not returned after [fuel] turns. *)
Fixpoint drain (fuel : nat) (st : GenState T) : M (option (list T)) :=
  match fuel with
  | O => mret None
  | S fuel' =>
      r ← next st;
      match r with
      | (Some item, st') => rest ← drain fuel' st'; mret (cons item <$> rest)
      | (None, _) => mret (Some [])
      end
  end.
End Generator.

End Pagination.

(* ===================================================================== *)
(** * Webhook payloads (later revision of client.ts) *)
(* ===================================================================== *)

Module Webhook.
Import JS Errors Types.

Definition typeof (v : value) : string :=
  match v with
  | VUndefined => "undefined"
  | VNull => "object"
  | VBool _ => "boolean"
  | VNumber _ => "number"
  | VString _ => "string"
  | VArray _ => "object"
  | VObject _ => "object"
  end.

Fixpoint assoc (props : list (string * value)) (key : string) : value :=
  match props with
  | [] => VUndefined
  | (k, v) :: rest => if String.eqb k key then v else assoc rest key
  end.

Definition cannot_read (of_what key : string) : JS.Error :=
  mkError TypeErrorC "TypeError"
    ("Cannot read properties of " +:+ of_what +:+ " (reading '" +:+ key +:+ "')").

(** [v.key] for a key that is neither an index nor a built-in property:
    a [TypeError] on [null] and [undefined], the own property of an object,
    [undefined] on anything else. *)
Definition get (v : value) (key : string) : Exn + value :=
  match v with
  | VUndefined => inl (ExNative (cannot_read "undefined" key))
  | VNull => inl (ExNative (cannot_read "null" key))
  | VObject props => inr (assoc props key)
  | _ => inr VUndefined
  end.

Definition is_type (t : string) (v : value) : bool := String.eqb (typeof v) t.

(** [[...].includes(v)] on an array of strings. *)
Definition includes_value (xs : list string) (v : value) : bool :=
  match v with
  | VString s => existsb (String.eqb s) xs
  | _ => false
  end.

Definition invalid_payload : Exn :=
  ExStrava (StravaValidationError (Some "Invalid webhook event payload")).

Definition validObjectTypes : list string := ["activity"; "athlete"].
Definition validAspectTypes : list string := ["create"; "update"; "delete"].

(** The [||] chain of the basic type validation, left to right: the first
    property whose type is wrong decides, and each property is read only if
    the ones before it passed. *)
Fixpoint first_mistyped (event : value) (fields : list (string * string))
  : Exn + bool :=
  match fields with
  | [] => inr false
  | (key, ty) :: rest =>
      match get event key with
      | inl e => inl e
      | inr v => if is_type ty v then first_mistyped event rest else inr true
      end
  end.

Definition required_fields : list (string * string) :=
  [("object_type", "string"); ("object_id", "number"); ("aspect_type", "string");
   ("owner_id", "number"); ("subscription_id", "number"); ("event_time", "number")].

Definition parseWebhookEvent (payload : value) : Exn + value :=
  let event := payload in
  match first_mistyped event required_fields with
  | inl e => inl e
  | inr true => inl invalid_payload
  | inr false =>
      match get event "object_type", get event "aspect_type" with
      | inr object_type, inr aspect_type =>
          if negb (includes_value validObjectTypes object_type) then inl invalid_payload
          else if negb (includes_value validAspectTypes aspect_type) then inl invalid_payload
          else inr event
      | inl e, _ => inl e
      | _, inl e => inl e
      end
  end.

Definition validateWebhookVerification (mode verify_token challenge : string)
    (expectedVerifyToken : string) : option string :=
  if String.eqb mode "subscribe" && String.eqb verify_token expectedVerifyToken
  then Some challenge else None.

End Webhook.

(* ===================================================================== *)
(** * Token objects as references *)
(* ===================================================================== *)

(** [setTokens] and [getTokens] pass objects by reference; what a caller can
    do to the client through a reference it holds is only visible with the
    objects in a store.  The rest of the development keeps tokens by value. *)

Module TokenStore.
Import Types.

Definition loc : Type := nat.

Record State := mkState {
  heap : gmap loc StravaTokens;
  this_tokens : option loc
}.

(** A location not yet in use. *)
Definition fresh_loc (h : gmap loc StravaTokens) : loc := fresh (dom h).

(** An object literal: a new object. *)
Definition alloc (t : StravaTokens) (s : State) : loc * State :=
  let l := fresh_loc (heap s) in
  (l, mkState (<[l := t]> (heap s)) (this_tokens s)).

(** client.ts: [this.tokens = tokens]. *)
Definition setTokens (tokens : loc) (s : State) : State :=
  mkState (heap s) (Some tokens).

(** client.ts: [return this.tokens]. *)
Definition getTokens (s : State) : option loc * State :=
  (this_tokens s, s).

(** The later revision: [return this.tokens ? { ...this.tokens } : null]. *)
Definition getTokens_copy (s : State) : option loc * State :=
  match this_tokens s with
  | Some l =>
      match heap s !! l with
      | Some t => let '(l', s') := alloc t s in (Some l', s')
      | None => (None, s)
      end
  | None => (None, s)
  end.

(** [obj.accessToken = v], by the holder of a reference [obj]. *)
Definition write_accessToken (obj : loc) (v : string) (s : State) : State :=
  mkState (alter (fun t => mkTokens v (refreshToken t) (expiresAt t)) obj (heap s))
          (this_tokens s).

(** The value of the object a (possibly null) reference points to. *)
Definition deref (r : option loc) (s : State) : option StravaTokens :=
  r ≫= fun l => heap s !! l.

(** The value [getTokens()] returns. *)
Definition read_tokens (get : State -> option loc * State) (s : State)
  : option StravaTokens :=
  let '(r, s') := get s in deref r s'.

End TokenStore.

(* ===================================================================== *)
(** * The request hook (later revision of client.ts) *)
(* ===================================================================== *)

(** The later revision of [fetchWithTimeout] calls [config.onRequest], when
    there is one, before the fetch.  This is the argument it builds for it. *)

Module Hooks.
Import JS Types.

Record StravaRequestInfo := mkRequestInfo {
  info_method : Method;
  info_url : string;
  info_headers : HeaderRecord
}.

Definition onRequest_info (url : string) (method : Method) (headers : option HeaderRecord)
  : StravaRequestInfo :=
  let safeHeaders : HeaderRecord := default ∅ headers in
  let safeHeaders :=
    if truthy_opt (safeHeaders !! "Authorization")
    then <[ "Authorization" := "Bearer [REDACTED]" ]> safeHeaders
    else safeHeaders in
  mkRequestInfo method url safeHeaders.

End Hooks.

(* ===================================================================== *)
(** * Vocabulary of the properties, and the inputs of the examples *)
(* ===================================================================== *)

Import JS Errors Types Async.

(** The message the classifier derives from a response. *)
Definition derived_message (r : StravaErrorResponse) : string :=
  match data r with
  | Some d =>
      match data_message d with
      | Some s => if decide (s = "") then status_message (status r) else s
      | None => status_message (status r)
      end
  | None => status_message (status r)
  end.

(** A message behind the context label, when one is supplied (and is not
    the empty string). *)
Definition with_context (label : option string) (m : string) : string :=
  match label with
  | Some c => if decide (c = "") then m else c +:+ ": " +:+ m
  | None => m
  end.

(** The [retry-after] header as the rate-limit error carries it. *)
Definition carried_retry_after (h : Headers) : option number :=
  match Headers_get h "retry-after" with
  | Some v => if decide (v = "") then None else Some (parseInt v)
  | None => None
  end.

(** The response of the rate-limit test: status 429, a message, and the three
    headers. *)
Definition rate_limited_response : StravaErrorResponse :=
  mkErrorResponse 429 (Some (mkErrorData (Some "Rate limit exceeded")))
    (list_to_map [("retry-after", "900"); ("x-ratelimit-limit", "100,1000");
                  ("x-ratelimit-usage", "100,500")])
    None.

Definition unavailable_response : StravaErrorResponse :=
  mkErrorResponse 503 (Some (mkErrorData (Some "Service unavailable"))) ∅ None.

Definition teapot_response : StravaErrorResponse :=
  mkErrorResponse 418 None ∅ (Some "Deauthorize").

(** A throttling response whose body has an empty message and whose
    retry-after header is an HTTP date. *)
Definition dated_response : StravaErrorResponse :=
  mkErrorResponse 429 (Some (mkErrorData (Some "")))
    (list_to_map [("retry-after", "Wed, 21 Oct 2015 07:28:00 GMT")])
    None.

Definition example_client : Client :=
  Client.new_StravaClient (mkClientConfig "test-client-id" "test-client-secret"
                             (Some "http://localhost:3000/callback") None None None None).

Definition example_world : World := mkWorld example_client 0 [] [] [].

Definition spec_headers : Headers :=
  list_to_map [("x-ratelimit-limit", "100,1000"); ("x-ratelimit-usage", "50,200")].

(** A client that already holds a snapshot, and a response whose limit header
    is not a pair of numbers. *)
Definition prior_snapshot : StravaRateLimitInfo :=
  mkRateLimitInfo (mkWindow (Some (Int 50)) (Some (Int 100)))
                  (mkWindow (Some (Int 200)) (Some (Int 1000))).

Definition prior_world : World :=
  mkWorld (Client.with_rateLimitInfo (Some prior_snapshot) example_client) 0 [] [] [].

Definition malformed_headers : Headers :=
  list_to_map [("x-ratelimit-limit", "abc"); ("x-ratelimit-usage", "60,210")].

(** A payload with all the required fields: an object whose [object_type]
    and [aspect_type] are in the closed enums and whose [object_id],
    [owner_id], [subscription_id] and [event_time] are numbers. *)
Definition well_formed_event (payload : value) : bool :=
  match payload with
  | VObject props =>
      Webhook.includes_value Webhook.validObjectTypes (Webhook.assoc props "object_type") &&
      Webhook.is_type "number" (Webhook.assoc props "object_id") &&
      Webhook.includes_value Webhook.validAspectTypes (Webhook.assoc props "aspect_type") &&
      Webhook.is_type "number" (Webhook.assoc props "owner_id") &&
      Webhook.is_type "number" (Webhook.assoc props "subscription_id") &&
      Webhook.is_type "number" (Webhook.assoc props "event_time")
  | _ => false
  end.

(** The tokens of the accessor test, and the client after [setTokens] of a
    new object holding them. *)
Definition original_tokens : StravaTokens := mkTokens "access-123" "refresh-456" 1700003600.

Definition after_setTokens : TokenStore.State :=
  let '(obj, s) := TokenStore.alloc original_tokens (TokenStore.mkState ∅ None) in
  TokenStore.setTokens obj s.

(** [retrievedTokens = client.getTokens(); retrievedTokens.accessToken = v]. *)
Definition mutate_retrieved (get : TokenStore.State -> option TokenStore.loc * TokenStore.State)
    (v : string) (s : TokenStore.State) : TokenStore.State :=
  let '(r, s') := get s in
  match r with
  | Some obj => TokenStore.write_accessToken obj v s'
  | None => s'
  end.

(** The items of the pages [from], ..., [from + n - 1], in order. *)
Definition items_of {T : Type} (pages : Z -> Z -> list T) (perPage : Z) (from : Z) (n : nat)
  : list T :=
  concat (map (fun p => pages p perPage) (Pagination.page_numbers from n)).

(** The calls that ask for these pages, in order. *)
Definition calls_of (perPage : Z) (from : Z) (n : nat) : list (Z * Z) :=
  map (fun p => (p, perPage)) (Pagination.page_numbers from n).

(** [getActivities] as the loop sees it through a stub: the defaults
    [page || 1] and [per_page || 30] are those of the method. *)
Definition stub_getActivities {T : Type} (pages : Z -> Z -> list T)
    (o : Client.GetActivitiesOptions) : Pagination.Stub (list T) :=
  Pagination.stub_fetch pages (Client.num_or (Client.page o) 1)
    (Client.num_or (Client.per_page o) 30).

(** The stub of the pagination test: [a; b], then [c], then nothing. *)
Definition two_then_one {T : Type} (a b c : T) : Z -> Z -> list T :=
  fun page _ => if page =? 1 then [a; b] else if page =? 2 then [c] else [].

Definition bind_blocked {A B : Type} (b : Blocked A) (f : A -> Prog B) : Blocked B :=
  match b with
  | WFetch id tm k => WFetch id tm (fun r => bind (k r) f)
  | WCallback r k => WCallback r (fun x => bind (k x) f)
  | WPromise p k => WPromise p (fun r => bind (k r) f)
  end.

Definition catch_blocked {A : Type} (b : Blocked A) (h : Exn -> Prog A) : Blocked A :=
  match b with
  | WFetch id tm k => WFetch id tm (fun r => try_catch (k r) h)
  | WCallback r k => WCallback r (fun x => try_catch (k x) h)
  | WPromise p k => WPromise p (fun r => try_catch (k r) h)
  end.

Definition no_access_token : Exn :=
  ExStrava (StravaValidationError
              (Some "No access token available. Please authenticate first.")).

Definition empty_world (c : Client) : World := mkWorld c 0 [] [] [].

(** A client that holds a refresh token and an empty access token, due for
    refresh; the answer of the token endpoint, and of the athlete endpoint. *)
Definition bootstrap_client : Client :=
  Client.with_tokens (Some (mkTokens "" "refresh-456" 0)) example_client.

Definition json_body_tokens (d : StravaTokenResponse) : Body :=
  mkBody "" (Some (mkErrorData None)) (Some d) None None.

Definition json_body_value (v : value) : Body :=
  mkBody "" (Some (mkErrorData None)) None (Some v) None.

Definition new_token_response : StravaTokenResponse :=
  mkTokenResponse "Bearer" 1700003600 3600 "new-refresh" "new-access".

Definition athlete : value := VObject [("id", VNumber 123)].

Definition one_request : Loop value := mkLoop (empty_world bootstrap_client) [Idle Client.getAthlete].

Definition is_waiting {A : Type} (t : Task A) : bool :=
  match t with Waiting _ => true | _ => false end.

(** A client configured with a timeout of five seconds, holding tokens that
    are not due, and an answer that takes ten seconds. *)
Definition five_second_client : Client :=
  Client.with_tokens (Some (mkTokens "valid-token" "refresh-token" 1700003600))
    (Client.new_StravaClient
       (mkClientConfig "test" "test" None None None (Some 5000) None)).

Definition slow_answer : NetBehaviour :=
  Responds 10000 (mkResponse true 200 ∅ (json_body_value athlete)).

Definition one_athlete_call : Loop value :=
  mkLoop (mkWorld five_second_client 1700000000000 [] [] []) [Idle Client.getAthlete].

Definition timed_out : Exn := ExStrava (StravaNetworkError (Some "Request timed out")).

(** What the continuation of an OAuth call does with the outcome of its
    fetch: [on_success] is the rest of the method once the token response
    [d] has been read. *)
Definition oauth_continuation (k : JS.Error + Response -> Prog StravaTokenResponse)
    (on_success : StravaTokenResponse -> World -> Step StravaTokenResponse * World) : Prop :=
  (forall w' e, exists e', run_sync (k (inl e)) w' = (Finished (inl e'), w')) /\
  (forall w' r, ok r = false -> exists e', run_sync (k (inr r)) w' = (Finished (inl e'), w')) /\
  (forall w' r, ok r = true -> json_tokens (body r) = None ->
     exists e', run_sync (k (inr r)) w' = (Finished (inl e'), w')) /\
  (forall w' r d, ok r = true -> json_tokens (body r) = Some d ->
     run_sync (k (inr r)) w' = on_success d w').

Definition store_tokens (d : StravaTokenResponse) (w : World) : World :=
  set_self (Client.with_tokens (Some (Client.tokens_of_response d)) (self w)) w.

(** The rest of [refreshAccessToken] once its callback has settled. *)
Definition callback_cont (d : StravaTokenResponse) (r : option Exn)
  : Prog StravaTokenResponse :=
  bind (match r with Some e => Throw e | None => Ret tt end) (fun _ => mret d).

(** The refresh token that [refreshAccessToken] sends. *)
Definition token_to_refresh (arg : option string) (c : Client) : option string :=
  if truthy_opt arg then arg else refreshToken <$> tokens c.

Definition no_refresh_token : Exn :=
  ExStrava (StravaTokenRefreshError (Some "No refresh token available")).

(** What a run left of the client, apart from its tokens. *)
Definition same_but_tokens (w w' : World) : Prop :=
  config (self w') = config (self w) /\
  rateLimitInfo (self w') = rateLimitInfo (self w) /\
  refreshPromise (self w') = refreshPromise (self w) /\
  promises w' = promises w.

(** The run of one call of [exchangeAuthorizationCode]: the call, then the
    network's answer. *)
Definition exchange_run (code : string) (w : World) (at_ms : Z) (nb : NetBehaviour)
  : Loop StravaTokenResponse :=
  run_events [Call 0 at_ms; Net (TaskT 0) nb]
    (mkLoop w [Idle (Client.exchangeAuthorizationCode code)]).

(** The run of one call of [refreshAccessToken] up to the point where its
    callback has been invoked. *)
Definition refresh_run (arg : option string) (w : World) (at_ms : Z) (nb : NetBehaviour)
  : Loop StravaTokenResponse :=
  run_events [Call 0 at_ms; Net (TaskT 0) nb]
    (mkLoop w [Idle (Client.refreshAccessToken arg)]).

(** The token response a network answer amounts to, if it is a success. *)
Definition token_answer (tm : Z) (nb : NetBehaviour) : option StravaTokenResponse :=
  match settle tm nb with
  | inr r => if ok r then json_tokens (body r) else None
  | inl _ => None
  end.

Definition token_endpoint_answer : NetBehaviour :=
  Responds 120 (mkResponse true 200 spec_headers (json_body_tokens new_token_response)).

Definition stale_world : World :=
  empty_world (Client.with_tokens (Some (mkTokens "old-access" "old-refresh" 1700000100))
                 (Client.with_rateLimitInfo (Some prior_snapshot) example_client)).

(** What a caller of [refreshTokenIfNeeded] ends with, given what the
    refresh promise settled to. *)
Definition caller_outcome (r : Exn + StravaTokenResponse) : Exn + unit :=
  match r with
  | inl e => inl e
  | inr _ => inr tt
  end.

Definition clear_marker (w : World) : World :=
  set_self (Client.with_refreshPromise None (self w)) w.

Definition install_marker (p : PromiseId) (w : World) : World :=
  set_self (Client.with_refreshPromise (Some p) (self w)) w.

(** The continuation of a caller that awaits the refresh promise: the
    caller that started the refresh clears the marker on the way out,
    whatever the outcome; the others just leave. *)
Definition caller_cont (owner : bool) (k : Exn + StravaTokenResponse -> Prog unit) : Prop :=
  forall r w, run_sync (k r) w =
                (Finished (caller_outcome r), if owner then clear_marker w else w).

Definition due (w : World) (t : StravaTokens) : Prop :=
  tokens (self w) = Some t /\ Client.shouldRefresh (self w) t (clock w / 1000) = true.

(** The callers invoke the guard one after the other, caller [i] at the
    time [ats !! i]. *)
Fixpoint calls_from (i : nat) (ats : list Z) : list Event :=
  match ats with
  | [] => []
  | at_ms :: rest => Call i at_ms :: calls_from (S i) rest
  end.

(** The callers are resumed in the order in which they suspended. *)
Definition wakes_from (i n : nat) : list Event :=
  map (fun j => Wake (TaskT j)) (seq i n).

(** A caller suspended on the promise [p]. *)
Definition waiting_on (p : PromiseId) (owner : bool) (t : Task unit) : Prop :=
  exists k, t = Waiting (WPromise p k) /\ caller_cont owner k.

Definition callers (n : nat) : list (Task unit) :=
  replicate n (Idle Client.refreshTokenIfNeeded).

(** The callers enter one after the other; the network then settles the
    fetch of the refresh, the refresh is resumed after its callback, and
    the callers are resumed in the order in which they suspended. *)
Definition refresh_schedule (p : PromiseId) (ats : list Z) (nb : NetBehaviour) : list Event :=
  (calls_from 0 ats ++ [Net (PromiseT p) nb; Wake (PromiseT p)]
     ++ wakes_from 0 (length ats))%list.

(** What the refresh promise settles to on a successful answer [d]: the
    response, unless the callback failed. *)
Definition refresh_result (c : Client) (d : StravaTokenResponse)
  : Exn + StravaTokenResponse :=
  match onTokenRefresh (config c) (Client.tokens_of_response d) with
  | Some e => inl e
  | None => inr d
  end.

(** The setting of the concurrency test: tokens that expire in a minute, five
    calls at the same instant, and a token endpoint that answers. *)
Definition expiring_tokens : StravaTokens :=
  mkTokens "expiring-token" "refresh-token" 1700000060.

Definition expiring_world : World :=
  empty_world (Client.with_tokens (Some expiring_tokens) example_client).

Definition test_instant : Z := 1700000000000.

Definition five_calls : list Z :=
  [test_instant; test_instant; test_instant; test_instant; test_instant].

(** Tokens that are due and carry no refresh token. *)
Definition access_only_tokens : StravaTokens := mkTokens "expiring-token" "" 1700000060.

Definition access_only_world : World :=
  empty_world (Client.with_tokens (Some access_only_tokens) example_client).

(** The event of the webhook test: an activity was created. *)
Definition activity_created : value :=
  VObject [("object_type", VString "activity"); ("object_id", VNumber 12345);
           ("aspect_type", VString "create"); ("owner_id", VNumber 67890);
           ("subscription_id", VNumber 11111); ("event_time", VNumber 1700000000)].

(** What a call makes of a response, once the snapshot has been seen to:
    the body read at the expected type when the response is a success, the
    classified error otherwise. *)
Definition response_outcome {T : Type} (read : Body -> option T) (label : option string)
    (r : Response) : Exn + T :=
  if ok r then
    match read (body r) with
    | Some v => inr v
    | None => inl (ExNative Client.SyntaxError)
    end
  else inl (ExStrava (parseStravaError (InResponse
              (mkErrorResponse (rstatus r) (Some (Client.errorData_of r)) (rheaders r) label)))).

Definition unreachable : Exn :=
  ExStrava (StravaNetworkError (Some "Network error - unable to reach Strava")).

(** The snapshot after a response with headers [h], given the one before. *)
Definition snapshot_after (h : Headers) (before : option StravaRateLimitInfo)
  : option StravaRateLimitInfo :=
  match Headers_get h "x-ratelimit-limit", Headers_get h "x-ratelimit-usage" with
  | Some l, Some u =>
      if decide (l = "" \/ u = "") then before else Some (Client.rate_limit_of l u)
  | _, _ => before
  end.

(** A client that holds an access token and starts no refresh at [at_ms]:
    auto-refresh is off, or the tokens are not due. *)
Definition authenticated (w : World) (t : StravaTokens) (at_ms : Z) : Prop :=
  tokens (self w) = Some t /\ accessToken t <> "" /\
  (autoRefresh (config (self w)) = false \/
   Client.shouldRefresh (self w) t (at_ms / 1000) = false).

(** One call of [request], then the network's answer. *)
Definition request_run {T : Type} (read : Body -> option T) (m : Method) (path : string)
    (options : Client.RequestOptions) (w : World) (at_ms : Z) (nb : NetBehaviour) : Loop T :=
  run_events [Call 0 at_ms; Net (TaskT 0) nb]
    (mkLoop w [Idle (Client.request read m path options)]).

(** A client with valid tokens, as the request tests set it up. *)
Definition signed_in_world : World :=
  empty_world (Client.with_tokens (Some (mkTokens "valid-token" "refresh-token" 1700003600))
                 example_client).

(** A throttling answer that carries the rate-limit headers, a server that
    cannot be reached, and a request with headers of the caller's. *)
Definition throttled_answer : NetBehaviour :=
  Responds 80 (mkResponse false 429
                 (list_to_map [("x-ratelimit-limit", "100,1000");
                               ("x-ratelimit-usage", "100,500")])
                 (mkBody "" (Some (mkErrorData (Some "Rate Limit Exceeded"))) None None None)).

Definition unreachable_network : NetBehaviour :=
  Fails 15 (mkError TypeErrorC "TypeError" "fetch failed").

Definition options_with_headers : Client.RequestOptions :=
  Client.mkRequestOptions None None
    (Some (list_to_map [("Authorization", "Bearer forged"); ("X-Trace", "abc")]))
    None false.

(** One call of [deauthorize], then the network's answer. *)
Definition deauthorize_run (w : World) (at_ms : Z) (nb : NetBehaviour) : Loop unit :=
  run_events [Call 0 at_ms; Net (TaskT 0) nb] (mkLoop w [Idle Client.deauthorize]).

(** An answer that is a success, comes in time, and has a JSON body. *)
Definition json_success (tm : Z) (nb : NetBehaviour) : bool :=
  match settle tm nb with
  | inr r => ok r && bool_decide (is_Some (json_value (body r)))
  | inl _ => false
  end.

Definition revocation_answer : NetBehaviour :=
  Responds 90 (mkResponse true 200 ∅ (json_body_value (VObject [("access_token", VString "valid-token")]))).

(** A success whose body is empty, hence not JSON. *)
Definition empty_success : NetBehaviour :=
  Responds 90 (mkResponse true 200 ∅ (mkBody "" None None None None)).

(** One call of [refreshAccessToken] to its end: the call, the network's
    answer, and the resumption after the callback. *)
Definition refresh_to_end (arg : option string) (w : World) (at_ms : Z) (nb : NetBehaviour)
  : Loop StravaTokenResponse :=
  run_events [Call 0 at_ms; Net (TaskT 0) nb; Wake (TaskT 0)]
    (mkLoop w [Idle (Client.refreshAccessToken arg)]).

(** The body of the refresh exchange for the refresh token [tk]. *)
Definition refresh_body (c : Client) (tk : string) : string :=
  Client.JSON_stringify
    [("client_id", clientId (config c)); ("client_secret", clientSecret (config c));
     ("grant_type", "refresh_token"); ("refresh_token", tk)].

(** A client whose [onTokenRefresh] callback fails (a store that is down). *)
Definition store_down : Exn := ExNative (mkError ErrorC "Error" "store is down").

Definition failing_callback_world : World :=
  empty_world
    (Client.with_tokens (Some (mkTokens "old-access" "old-refresh" 1700000100))
       (Client.new_StravaClient
          (mkClientConfig "test-client-id" "test-client-secret" None None None None
             (Some (fun _ => Some store_down))))).

(** A computation that cannot end in a throw, whatever the environment
    hands back to it. *)
Fixpoint never_throws {A : Type} (p : Prog A) : Prop :=
  match p with
  | Ret _ => True
  | Throw _ => False
  | GetThis k => forall c, never_throws (k c)
  | SetThis _ k => never_throws k
  | DateNow k => forall n, never_throws (k n)
  | Fetch _ k => forall r, never_throws (k r)
  | OnTokenRefresh _ k => forall r, never_throws (k r)
  | Async _ k => forall p, never_throws (k p)
  | Await _ k => forall r, never_throws (k r)
  end.

Definition blocked_never_throws {A : Type} (b : Blocked A) : Prop :=
  match b with
  | WFetch _ _ k => forall r, never_throws (k r)
  | WCallback _ k => forall r, never_throws (k r)
  | WPromise _ k => forall r, never_throws (k r)
  end.

(** A task that has not been rejected and never will be. *)
Definition never_rejects {A : Type} (t : Task A) : Prop :=
  match t with
  | Idle p => never_throws p
  | Waiting b => blocked_never_throws b
  | Done (inl _) => False
  | Done (inr _) => True
  end.

(** One call of [testConnection], then the network's answer. *)
Definition testConnection_run (w : World) (at_ms : Z) (nb : NetBehaviour) : Loop bool :=
  run_events [Call 0 at_ms; Net (TaskT 0) nb] (mkLoop w [Idle Client.testConnection]).

(** One call of [requestText] without headers of the caller's, then the
    network's answer. *)
Definition requestText_run (m : Method) (path : string) (baseUrl : option string)
    (w : World) (at_ms : Z) (nb : NetBehaviour) : Loop string :=
  run_events [Call 0 at_ms; Net (TaskT 0) nb]
    (mkLoop w [Idle (Client.requestText m path baseUrl None)]).

(** A route export: a success whose body is XML, not JSON. *)
Definition gpx_answer : NetBehaviour :=
  Responds 7000 (mkResponse true 200 ∅ (mkBody "<gpx></gpx>" None None None None)).

(** A client whose tokens are due at [at_ms], with auto-refresh on, no
    refresh in flight, and a refresh token to send. *)
Definition refresh_due (w : World) (t : StravaTokens) (at_ms : Z) : Prop :=
  tokens (self w) = Some t /\
  Client.shouldRefresh (self w) t (at_ms / 1000) = true /\
  autoRefresh (config (self w)) = true /\
  refreshPromise (self w) = None /\
  refreshToken t <> "".

(** One call of [request] that finds the tokens due: the call, the answer
    of the token endpoint, the resumption of the refresh after its callback,
    and the resumption of the request. *)
Definition request_after_refresh {T : Type} (read : Body -> option T) (m : Method)
    (path : string) (options : Client.RequestOptions) (w : World) (at_ms : Z)
    (nb : NetBehaviour) : Loop T :=
  run_events [Call 0 at_ms; Net (PromiseT (length (promises w))) nb;
              Wake (PromiseT (length (promises w))); Wake (TaskT 0)]
    (mkLoop w [Idle (Client.request read m path options)]).

Definition rejected_token_answer : NetBehaviour :=
  Responds 120 (mkResponse false 400 ∅
                  (mkBody "" (Some (mkErrorData (Some "Bad Request"))) None None None)).


(** The first character of a header value after its leading white space and
    an optional sign, if there is one. *)
Definition first_after_sign (v : string) : option ascii :=
  head (snd (strip_sign (drop_ws (chars v)))).

(* ===================================================================== *)
(** * Properties *)
(* ===================================================================== *)

(** ** The error classifier *)

Section ParseStravaError.
Import Client.

Lemma truthy_true (s : string) : truthy s = true <-> s <> "".
Proof. destruct s; simpl; split; congruence. Qed.

Lemma derived_message_or_else r :
  or_else (data r ≫= data_message) (status_message (status r)) = derived_message r.
Proof.
  unfold derived_message. destruct (data r) as [d|]; simpl; [|reflexivity].
  destruct (data_message d) as [s|]; simpl; [|reflexivity].
  destruct s; reflexivity.
Qed.

End ParseStravaError.

(** ** Decimal numbers in header values *)

Section DecimalHeaders.
Import Client.

Lemma pretty_N_char_digit (r : N) :
  (r < 10)%N -> is_digit (pretty_N_char r) = true /\ digit_val (pretty_N_char r) = Some (Z.of_N r).
Proof.
  intros Hr.
  assert (H : r = 0%N \/ r = 1%N \/ r = 2%N \/ r = 3%N \/ r = 4%N \/ r = 5%N \/ r = 6%N \/
              r = 7%N \/ r = 8%N \/ r = 9%N) by lia.
  repeat (destruct H as [-> | H]; [split; reflexivity|]). subst r. split; reflexivity.
Qed.

Lemma digits_value_snoc (ds : list ascii) (c : ascii) :
  digits_value 10 digit_val (ds ++ [c]) =
    digits_value 10 digit_val ds * 10 + default 0 (digit_val c).
Proof. unfold digits_value. rewrite fold_left_app. reflexivity. Qed.

Lemma chars_String (c : ascii) (s : string) : chars (String c s) = c :: chars s.
Proof. reflexivity. Qed.

Lemma pretty_N_go_digits (x : N) (s : string) :
  exists ds,
    chars (pretty_N_go x s) = (ds ++ chars s)%list /\
    forallb is_digit ds = true /\
    digits_value 10 digit_val ds = Z.of_N x /\
    ((0 < x)%N -> ds <> []).
Proof.
  revert s. induction (N.lt_wf_0 x) as [x _ IH]. intros s.
  destruct (decide (x = 0%N)) as [-> | Hx].
  - exists []. rewrite pretty_N_go_0. repeat split. lia.
  - rewrite pretty_N_go_step by lia.
    assert (Hlt : (x `div` 10 < x)%N) by (apply N.div_lt; lia).
    destruct (IH _ Hlt (String (pretty_N_char (x `mod` 10)) s)) as (ds & Hds & Hall & Hval & _).
    destruct (pretty_N_char_digit (x `mod` 10)) as [Hd Hv];
      [apply N.mod_lt; lia|].
    exists (ds ++ [pretty_N_char (x `mod` 10)])%list. split; [|split; [|split]].
    + rewrite Hds, chars_String, <- app_assoc. reflexivity.
    + rewrite forallb_app, Hall. simpl. rewrite Hd. reflexivity.
    + rewrite digits_value_snoc, Hval, Hv. cbn [default].
      rewrite N2Z.inj_div, N2Z.inj_mod. change (Z.of_N 10) with 10.
      pose proof (Z.div_mod (Z.of_N x) 10 ltac:(lia)). unfold id. lia.
    + intros _. destruct ds; discriminate.
Qed.

(** The decimal form of a natural number: digits only, at least one, whose
    value is the number. *)
Lemma pretty_digits (z : Z) :
  0 <= z ->
  exists d ds,
    chars (pretty z) = d :: ds /\ forallb is_digit (d :: ds) = true /\
    digits_value 10 digit_val (d :: ds) = z.
Proof.
  intros Hz. destruct z as [|p|p]; [| |lia].
  - exists "0"%char, []. repeat split.
  - change (pretty (Z.pos p)) with (pretty_N_go (N.pos p) "").
    destruct (pretty_N_go_digits (N.pos p) "") as (ds & Hds & Hall & Hval & Hne).
    rewrite app_nil_r in Hds.
    destruct ds as [|d ds]; [exfalso; apply Hne; [lia | reflexivity]|].
    exists d, ds. repeat split; assumption.
Qed.

Lemma digit_not_ws (c : ascii) : is_digit c = true -> is_ws c = false.
Proof.
  unfold is_digit, is_ws. intros H. apply andb_prop in H as [H1 H2].
  apply Nat.leb_le in H1. apply Nat.leb_le in H2.
  repeat apply orb_false_intro;
    [apply andb_false_intro2; apply Nat.leb_gt | apply Nat.eqb_neq | apply Nat.eqb_neq]; lia.
Qed.

Lemma digit_not_sign (c : ascii) : is_digit c = true -> is_sign c = false.
Proof.
  unfold is_digit, is_sign. intros H. apply andb_prop in H as [H1 H2].
  apply Nat.leb_le in H1. apply Nat.leb_le in H2.
  apply orb_false_intro; apply Nat.eqb_neq; lia.
Qed.

Lemma drop_ws_digit (c : ascii) (l : list ascii) :
  is_digit c = true -> drop_ws (c :: l) = c :: l.
Proof. intros H. simpl. rewrite (digit_not_ws c H). reflexivity. Qed.

Lemma trim_digits (l : list ascii) : forallb is_digit l = true -> trim l = l.
Proof.
  intros H. unfold trim. destruct l as [|c l]; [reflexivity|].
  simpl in H. apply andb_prop in H as [Hc Hl].
  rewrite (drop_ws_digit c l Hc).
  assert (Hrev : forallb is_digit (rev (c :: l)) = true).
  { apply forallb_forall. intros x Hx. apply in_rev in Hx.
    assert (Hall : forallb is_digit (c :: l) = true) by (simpl; rewrite Hc, Hl; reflexivity).
    rewrite forallb_forall in Hall. apply Hall, Hx. }
  destruct (rev (c :: l)) as [|x r] eqn:E.
  - apply (f_equal (@length ascii)) in E. rewrite length_rev in E. discriminate E.
  - simpl in Hrev. apply andb_prop in Hrev as [Hx _].
    rewrite (drop_ws_digit x r Hx), <- E. apply rev_involutive.
Qed.

Lemma str_chars (s : string) : str (chars s) = s.
Proof. apply string_of_list_ascii_of_string. Qed.

Lemma Number_pretty (z : Z) :
  0 <= z <= MAX_EXACT_INTEGER -> Number (pretty z) = Int z.
Proof.
  intros [Hz Hmax]. destruct (pretty_digits z Hz) as (d & ds & Hch & Hall & Hval).
  unfold Number. rewrite Hch, (trim_digits _ Hall).
  pose proof Hall as Hall'. simpl in Hall'. apply andb_prop in Hall' as [Hd _].
  unfold strip_sign. rewrite (digit_not_sign d Hd).
  cbn [nonempty andb]. rewrite Hall, Hval.
  assert ((MAX_EXACT_INTEGER <? z) = false) as -> by (apply Z.ltb_ge; exact Hmax).
  reflexivity.
Qed.

Lemma span_all (p : ascii -> bool) (l : list ascii) :
  forallb p l = true -> span p l = (l, []).
Proof.
  induction l as [|c l IH]; [reflexivity|]. simpl. intros H.
  apply andb_prop in H as [Hc Hl]. rewrite Hc, (IH Hl). reflexivity.
Qed.

Lemma digit_val_digit (c : ascii) :
  is_digit c = true -> match digit_val c with Some _ => true | None => false end = true.
Proof. intros H. unfold digit_val. rewrite H. reflexivity. Qed.

Lemma parseInt_pretty (z : Z) :
  0 <= z <= MAX_EXACT_INTEGER -> parseInt (pretty z) = Int z.
Proof.
  intros [Hz Hmax]. destruct (pretty_digits z Hz) as (d & ds & Hch & Hall & Hval).
  assert (Hfits : (MAX_EXACT_INTEGER <? z) = false) by (apply Z.ltb_ge; exact Hmax).
  unfold parseInt. rewrite Hch.
  pose proof Hall as Hall'. simpl in Hall'. apply andb_prop in Hall' as [Hd Hds].
  rewrite (drop_ws_digit d ds Hd). unfold strip_sign. rewrite (digit_not_sign d Hd).
  assert (Hspan : span (fun c => match digit_val c with Some _ => true | None => false end)
                    (d :: ds) = (d :: ds, [])).
  { apply span_all. apply forallb_forall. intros x Hx.
    apply digit_val_digit. rewrite forallb_forall in Hall. apply Hall, Hx. }
  destruct ds as [|x r].
  - rewrite Hspan, Hval, Hfits. reflexivity.
  - assert (Hx : ((nat_of_ascii x =? 120)%nat || (nat_of_ascii x =? 88)%nat) = false).
    { simpl in Hds. apply andb_prop in Hds as [Hx _]. unfold is_digit in Hx.
      apply andb_prop in Hx as [H1 H2]. apply Nat.leb_le in H1. apply Nat.leb_le in H2.
      apply orb_false_intro; apply Nat.eqb_neq; lia. }
    rewrite Hx, andb_false_r, Hspan, Hval, Hfits. reflexivity.
Qed.

(** A value that, after its leading white space and an optional sign, does
    not begin with a digit has no number for [parseInt] to read. *)
Lemma parseInt_no_digit (v : string) :
  (forall c, first_after_sign v = Some c -> is_digit c = false) -> parseInt v = NaN.
Proof.
  unfold first_after_sign, parseInt. intros H.
  destruct (strip_sign (drop_ws (chars v))) as [neg l]. cbn [snd] in H.
  destruct l as [|c r]; [reflexivity|].
  assert (Hc : is_digit c = false) by (apply H; reflexivity).
  assert (Hz : (nat_of_ascii c =? 48)%nat = false).
  { apply Nat.eqb_neq. intros E. unfold is_digit in Hc. rewrite E in Hc. discriminate Hc. }
  assert (Hspan : span (fun x => match digit_val x with Some _ => true | None => false end)
                    (c :: r) = ([], c :: r)).
  { cbn [span]. unfold digit_val. rewrite Hc. reflexivity. }
  destruct r as [|x r]; [rewrite Hspan; reflexivity|].
  rewrite Hz. cbn [andb]. rewrite Hspan. reflexivity.
Qed.

Lemma split_no_comma (s : string) :
  forallb is_digit (chars s) = true -> split "," s = [s].
Proof.
  induction s as [|a s IH]; [reflexivity|]. rewrite chars_String. simpl forallb.
  intros H. apply andb_prop in H as [Ha Hs]. cbn [split].
  destruct (ascii_dec a ",") as [-> | _]; [discriminate Ha|].
  rewrite (IH Hs). reflexivity.
Qed.

Lemma split_pair (s1 s2 : string) :
  forallb is_digit (chars s1) = true -> forallb is_digit (chars s2) = true ->
  split "," (s1 +:+ "," +:+ s2) = [s1; s2].
Proof.
  intros H1 H2. induction s1 as [|a s1 IH].
  - change ("" +:+ "," +:+ s2) with (String "," s2). cbn [split].
    destruct (ascii_dec "," ","); [|congruence]. rewrite (split_no_comma s2 H2). reflexivity.
  - rewrite chars_String in H1. simpl forallb in H1. apply andb_prop in H1 as [Ha Hs].
    change (String a s1 +:+ "," +:+ s2) with (String a (s1 +:+ "," +:+ s2)). cbn [split].
    destruct (ascii_dec a ",") as [-> | _]; [discriminate Ha|].
    rewrite (IH Hs). reflexivity.
Qed.

Lemma pretty_all_digits (z : Z) : 0 <= z -> forallb is_digit (chars (pretty z)) = true.
Proof.
  intros Hz. destruct (pretty_digits z Hz) as (d & ds & Hch & Hall & _).
  rewrite Hch. exact Hall.
Qed.

End DecimalHeaders.

(** The class, the message and the fields of the error, by status. *)
Lemma parseStravaError_by_status (r : StravaErrorResponse) :
  let e := parseStravaError (InResponse r) in
  let m := derived_message r in
  (status r = 401 -> class e = Authentication /\ message e = m) /\
  (status r = 403 -> class e = Authorization /\ message e = m) /\
  (status r = 404 -> class e = NotFound /\ message e = m) /\
  (status r = 400 -> class e = Validation /\ message e = m) /\
  (status r = 429 ->
     class e = RateLimit /\ message e = m /\
     retryAfter e = carried_retry_after (headers r) /\
     limit e = Headers_get (headers r) "x-ratelimit-limit" /\
     usage e = Headers_get (headers r) "x-ratelimit-usage") /\
  (500 <= status r -> class e = Api /\ statusCode e = Some (status r) /\ message e = m) /\
  (status r < 500 -> ~ In (status r) [400; 401; 403; 404; 429] ->
     class e = Base /\ code e = "STRAVA_HTTP_ERROR" /\ statusCode e = Some (status r) /\
     message e = with_context (context r) m).
Proof.
  intros e m; subst e m; unfold parseStravaError; rewrite derived_message_or_else.
  rewrite Z.geb_leb.
  repeat match goal with |- _ /\ _ => split end; intros; simpl in *.
  all: repeat match goal with
         | |- context [?a =? ?b] => destruct (Z.eqb_spec a b); try lia
         | |- context [?a <=? ?b] => destruct (Z.leb_spec a b); try lia
         end.
  all: repeat split.
  - unfold carried_retry_after. simpl.
    destruct (Headers_get (headers r) "retry-after") as [[|c v]|]; reflexivity.
  - unfold with_context. destruct (context r) as [[|c v]|]; reflexivity.
Qed.

(** C6 (as amended).  [parseStravaError] maps an HTTP error response to one
    error class by status: 401 to Authentication, 403 to Authorization, 404
    to NotFound, 400 to Validation, 429 to RateLimit, any status from 500 up
    to Api with the status kept, any other status to the base class with code
    STRAVA_HTTP_ERROR and the status kept.  The message is the body's message
    field when that is present and not empty, and "Request failed with
    status N" otherwise; only the last class has the context label in front
    of it.  The RateLimit error carries the limit and usage headers as they
    are, and the retry-after header converted by [parseInt]: nothing when the
    header is absent or empty; [NaN] when the value, after its leading white
    space and an optional sign, does not begin with a digit; the integer [n]
    when the value is the decimal form of [n], for [n] from 0 to 2^53. *)
Theorem parseStravaError_classifies (r : StravaErrorResponse) :
  let e := parseStravaError (InResponse r) in
  let m := derived_message r in
  (status r = 401 -> class e = Authentication /\ message e = m) /\
  (status r = 403 -> class e = Authorization /\ message e = m) /\
  (status r = 404 -> class e = NotFound /\ message e = m) /\
  (status r = 400 -> class e = Validation /\ message e = m) /\
  (status r = 429 ->
     class e = RateLimit /\ message e = m /\
     retryAfter e = carried_retry_after (headers r) /\
     limit e = Headers_get (headers r) "x-ratelimit-limit" /\
     usage e = Headers_get (headers r) "x-ratelimit-usage") /\
  (500 <= status r -> class e = Api /\ statusCode e = Some (status r) /\ message e = m) /\
  (status r < 500 -> ~ In (status r) [400; 401; 403; 404; 429] ->
     class e = Base /\ code e = "STRAVA_HTTP_ERROR" /\ statusCode e = Some (status r) /\
     message e = with_context (context r) m) /\
  (status r = 429 ->
   (Headers_get (headers r) "retry-after" = None \/
    Headers_get (headers r) "retry-after" = Some "" -> retryAfter e = None) /\
   (forall v, Headers_get (headers r) "retry-after" = Some v -> v <> "" ->
      retryAfter e = Some (parseInt v) /\
      ((forall c, first_after_sign v = Some c -> is_digit c = false) ->
       retryAfter e = Some NaN) /\
      (forall n, 0 <= n <= MAX_EXACT_INTEGER -> v = pretty n ->
       retryAfter e = Some (Int n)))).
Proof.
  intros e m.
  destruct (parseStravaError_by_status r) as (H1 & H2 & H3 & H4 & H5 & H6 & H7).
  split; [exact H1|]. split; [exact H2|]. split; [exact H3|]. split; [exact H4|].
  split; [exact H5|]. split; [exact H6|]. split; [exact H7|].
  intros Hst. subst e. unfold parseStravaError. rewrite Hst. cbn [Z.eqb Pos.eqb].
  unfold StravaRateLimitError. cbn [retryAfter]. split.
  - intros [-> | ->]; reflexivity.
  - intros v Hv Hne. rewrite Hv. destruct v as [|c v]; [congruence|].
    cbn [truthy_opt truthy fmap option_fmap option_map].
    split; [reflexivity|]. split.
    + intros Hnd. rewrite parseInt_no_digit by exact Hnd. reflexivity.
    + intros n Hn Heq. rewrite Heq, parseInt_pretty by exact Hn. reflexivity.
Qed.

Lemma parseStravaError_classifies_witness :
  (class (parseStravaError (InResponse rate_limited_response)) = RateLimit /\
   message (parseStravaError (InResponse rate_limited_response)) = "Rate limit exceeded" /\
   retryAfter (parseStravaError (InResponse rate_limited_response)) = Some (Int 900) /\
   limit (parseStravaError (InResponse rate_limited_response)) = Some "100,1000" /\
   usage (parseStravaError (InResponse rate_limited_response)) = Some "100,500") /\
  (class (parseStravaError (InResponse unavailable_response)) = Api /\
   statusCode (parseStravaError (InResponse unavailable_response)) = Some 503) /\
  (class (parseStravaError (InResponse teapot_response)) = Base /\
   message (parseStravaError (InResponse teapot_response)) =
     "Deauthorize: Request failed with status 418").
Proof.
  split; [|split].
  - destruct (parseStravaError_classifies rate_limited_response)
      as (_ & _ & _ & _ & H & _ & _ & Hretry).
    destruct (H eq_refl) as (Hc & Hm & _ & Hl & Hu).
    destruct (Hretry eq_refl) as (_ & Hv).
    destruct (Hv "900" eq_refl ltac:(discriminate)) as (_ & _ & Hn).
    rewrite Hc, Hm, Hl, Hu, (Hn 900 ltac:(unfold MAX_EXACT_INTEGER; lia) eq_refl).
    vm_compute. repeat split.
  - destruct (parseStravaError_classifies unavailable_response)
      as (_ & _ & _ & _ & _ & H & _).
    destruct H as (Hc & Hs & _); [vm_compute; discriminate|].
    rewrite Hc, Hs. split; reflexivity.
  - destruct (parseStravaError_classifies teapot_response)
      as (_ & _ & _ & _ & _ & _ & H & _).
    destruct H as (Hc & _ & _ & Hm); [reflexivity | simpl; lia |].
    rewrite Hc, Hm. split; reflexivity.
Defined.

(** C6 as stated fails on [dated_response]: the body's message field is
    present (the empty string) and the message is the templated one; the
    retry-after header is not carried as it is, the error holds [NaN]. *)
Lemma parseStravaError_not_verbatim :
  data dated_response ≫= data_message = Some "" /\
  message (parseStravaError (InResponse dated_response)) <> "" /\
  message (parseStravaError (InResponse dated_response)) = "Request failed with status 429" /\
  Headers_get (headers dated_response) "retry-after" = Some "Wed, 21 Oct 2015 07:28:00 GMT" /\
  retryAfter (parseStravaError (InResponse dated_response)) = Some NaN.
Proof. vm_compute. repeat split; discriminate. Qed.




(** ** The rate-limit snapshot *)

(** C3 (as amended).  [updateRateLimitInfo] overwrites the snapshot exactly
    when both headers are present and not empty, whatever they contain: each
    field of the new snapshot is [Number] of the corresponding comma-separated
    piece ([NaN] for a piece that is not numeric, [undefined] for a piece that
    is missing).  When a header is absent or empty the client is left as it
    was, snapshot included.  Nothing but the snapshot ever changes. *)
Theorem updateRateLimitInfo_overwrites (h : Headers) (w : World) :
  fst (run_sync (Client.updateRateLimitInfo h) w) = Finished (inr tt) /\
  (forall l u,
     Headers_get h "x-ratelimit-limit" = Some l ->
     Headers_get h "x-ratelimit-usage" = Some u ->
     l <> "" -> u <> "" ->
     snd (run_sync (Client.updateRateLimitInfo h) w) =
       set_self (Client.with_rateLimitInfo (Some (Client.rate_limit_of l u)) (self w)) w /\
     w_limit (shortTerm (Client.rate_limit_of l u)) = Number <$> nth_error (split "," l) 0 /\
     w_limit (longTerm (Client.rate_limit_of l u)) = Number <$> nth_error (split "," l) 1 /\
     w_usage (shortTerm (Client.rate_limit_of l u)) = Number <$> nth_error (split "," u) 0 /\
     w_usage (longTerm (Client.rate_limit_of l u)) = Number <$> nth_error (split "," u) 1) /\
  (Headers_get h "x-ratelimit-limit" = None \/ Headers_get h "x-ratelimit-limit" = Some "" \/
   Headers_get h "x-ratelimit-usage" = None \/ Headers_get h "x-ratelimit-usage" = Some "" ->
   snd (run_sync (Client.updateRateLimitInfo h) w) = w).
Proof.
  unfold Client.updateRateLimitInfo.
  destruct (Headers_get h "x-ratelimit-limit") as [l|] eqn:El;
    destruct (Headers_get h "x-ratelimit-usage") as [u|] eqn:Eu.
  2-4: (split; [reflexivity|]); (split; [intros; congruence | reflexivity]).
  destruct (truthy l && truthy u) eqn:Et.
  - split; [reflexivity|]. split.
    + intros l' u' Hl Hu _ _. injection Hl as <-. injection Hu as <-.
      split; [reflexivity|].
      unfold Client.rate_limit_of, nth_or_undefined.
      cbn [w_limit w_usage shortTerm longTerm].
      rewrite !nth_error_map. repeat split; reflexivity.
    + apply andb_prop in Et as [Hl Hu].
      apply truthy_true in Hl, Hu.
      intros [H|[H|[H|H]]]; congruence.
  - split; [reflexivity|]. split; [|reflexivity].
    intros l' u' Hl Hu Hl' Hu'. injection Hl as <-. injection Hu as <-.
    apply truthy_true in Hl', Hu'. rewrite Hl', Hu' in Et. discriminate.
Qed.

Lemma updateRateLimitInfo_overwrites_witness :
  rateLimitInfo (self (snd (run_sync (Client.updateRateLimitInfo spec_headers) example_world))) =
    Some (mkRateLimitInfo (mkWindow (Some (Int 50)) (Some (Int 100)))
                          (mkWindow (Some (Int 200)) (Some (Int 1000)))) /\
  snd (run_sync (Client.updateRateLimitInfo ∅) example_world) = example_world.
Proof.
  destruct (updateRateLimitInfo_overwrites spec_headers example_world) as (_ & H & _).
  destruct (H "100,1000" "50,200") as (Hw & _); try reflexivity; try discriminate.
  destruct (updateRateLimitInfo_overwrites ∅ example_world) as (_ & _ & H').
  split; [rewrite Hw; reflexivity | apply H'; left; reflexivity].
Defined.

(** C3 as stated fails on [malformed_headers]: the limit header does not
    parse as two numbers, and the snapshot is overwritten all the same, with
    [NaN] and [undefined] in it. *)
Lemma updateRateLimitInfo_malformed_overwrites :
  map Number (split "," "abc") = [NaN] /\
  rateLimitInfo (self (snd (run_sync (Client.updateRateLimitInfo malformed_headers) prior_world))) =
    Some (mkRateLimitInfo (mkWindow (Some (Int 60)) (Some NaN))
                          (mkWindow (Some (Int 210)) None)) /\
  rateLimitInfo (self (snd (run_sync (Client.updateRateLimitInfo malformed_headers) prior_world)))
    <> rateLimitInfo (self prior_world).
Proof. vm_compute. repeat split; discriminate. Qed.

(** ** Webhook events *)

Section WebhookEvents.
Import Webhook.

Lemma includes_value_string xs v : includes_value xs v = true -> is_type "string" v = true.
Proof. destruct v; simpl; intros; try discriminate; reflexivity. Qed.

Lemma not_string_not_included xs v : is_type "string" v = false -> includes_value xs v = false.
Proof. destruct v; cbn; intros; try discriminate; reflexivity. Qed.

(** On every payload other than [null] and [undefined] the parser does what
    C8 says: a well-formed payload comes back as it is, any other fails
    with the Validation error. *)
Lemma parseWebhookEvent_defined (payload : value) :
  payload <> VNull -> payload <> VUndefined ->
  parseWebhookEvent payload =
    if well_formed_event payload then inr payload else inl invalid_payload.
Proof.
  intros Hn Hu. destruct payload as [| |b|n|s|items|props]; try congruence;
    try reflexivity.
  unfold parseWebhookEvent, well_formed_event, required_fields, first_mistyped, get.
  destruct (is_type "string" (assoc props "object_type")) eqn:E1;
    [|rewrite (not_string_not_included _ _ E1); reflexivity].
  destruct (is_type "number" (assoc props "object_id")) eqn:E2;
    [|rewrite andb_false_r; reflexivity].
  destruct (is_type "string" (assoc props "aspect_type")) eqn:E3;
    [|rewrite (not_string_not_included _ _ E3), andb_false_r; reflexivity].
  destruct (is_type "number" (assoc props "owner_id")) eqn:E4;
    [|rewrite andb_false_r; reflexivity].
  destruct (is_type "number" (assoc props "subscription_id")) eqn:E5;
    [|rewrite andb_false_r; reflexivity].
  destruct (is_type "number" (assoc props "event_time")) eqn:E6;
    [|rewrite andb_false_r; reflexivity].
  rewrite !andb_true_r.
  destruct (includes_value validObjectTypes (assoc props "object_type")); [|reflexivity].
  destruct (includes_value validAspectTypes (assoc props "aspect_type")); reflexivity.
Qed.

End WebhookEvents.

(** C8, at the payloads on which the code departs from it.  [null] and
    [undefined] are payloads with none of the required fields; the parser
    does not fail with the Validation error on them, it lets the [TypeError]
    of the first property read escape. *)
Theorem parseWebhookEvent_null_payload :
  Webhook.parseWebhookEvent VNull =
    inl (ExNative (Webhook.cannot_read "null" "object_type")) /\
  Webhook.parseWebhookEvent VUndefined =
    inl (ExNative (Webhook.cannot_read "undefined" "object_type")) /\
  Webhook.parseWebhookEvent VNull <> inl Webhook.invalid_payload /\
  Webhook.parseWebhookEvent VUndefined <> inl Webhook.invalid_payload.
Proof. repeat split; discriminate. Qed.

(** ** Token accessors *)

Section TokenAccessors.
Import TokenStore.

(** The round trip of C2 holds in client.ts. *)
Lemma setTokens_getTokens_roundtrip (s : State) (obj : loc) (x : StravaTokens) :
  heap s !! obj = Some x ->
  read_tokens getTokens (setTokens obj s) = Some x.
Proof. intros H. unfold read_tokens, deref. simpl. exact H. Qed.

(** client.ts: a write through the returned reference is a write to the
    client's tokens. *)
Lemma getTokens_aliases (s : State) (obj : loc) (x : StravaTokens) (v : string) :
  heap s !! obj = Some x ->
  read_tokens getTokens (write_accessToken obj v (setTokens obj s)) =
    Some (mkTokens v (refreshToken x) (expiresAt x)).
Proof.
  intros H. unfold read_tokens, deref, write_accessToken. simpl.
  rewrite lookup_alter_eq, H. reflexivity.
Qed.

(** The later revision returns a new object: a write through it leaves what
    [getTokens()] returns afterwards as it was. *)
Lemma getTokens_copy_is_defensive (s : State) (obj : loc) (x : StravaTokens) (v : string) :
  heap s !! obj = Some x ->
  exists r, fst (getTokens_copy (setTokens obj s)) = Some r /\
    read_tokens getTokens_copy (setTokens obj s) = Some x /\
    read_tokens getTokens_copy
      (write_accessToken r v (snd (getTokens_copy (setTokens obj s)))) = Some x.
Proof.
  intros H. unfold getTokens_copy, read_tokens. simpl. rewrite H.
  set (l := fresh_loc (heap s)).
  assert (Hfresh : heap s !! l = None).
  { apply not_elem_of_dom. unfold l, fresh_loc, loc.
    apply (is_fresh (dom (heap s))). }
  assert (Hne : l <> obj) by (intros ->; congruence).
  exists l. split; [reflexivity|]. split.
  - unfold alloc. simpl. fold l. unfold deref. simpl. apply lookup_insert_eq.
  - unfold alloc, write_accessToken. simpl. fold l.
    rewrite lookup_alter_ne by exact Hne.
    rewrite lookup_insert_ne by exact Hne. rewrite H.
    unfold deref. simpl. apply lookup_insert_eq.
Qed.

End TokenAccessors.

(** C2, at the input of the accessor test.  After [setTokens(x)],
    [getTokens()] equals [x]; it is not a copy: once the caller has written
    to the object it got back, [getTokens()] returns the written value.  (The
    later revision of the accessor passes the same run.) *)
Theorem getTokens_exposes_stored_object :
  TokenStore.read_tokens TokenStore.getTokens after_setTokens = Some original_tokens /\
  TokenStore.read_tokens TokenStore.getTokens
    (mutate_retrieved TokenStore.getTokens "mutated-token" after_setTokens) =
    Some (mkTokens "mutated-token" "refresh-456" 1700003600) /\
  TokenStore.read_tokens TokenStore.getTokens_copy
    (mutate_retrieved TokenStore.getTokens_copy "mutated-token" after_setTokens) =
    Some original_tokens.
Proof. vm_compute. repeat split. Qed.

(** ** Pagination *)

Section PaginationLoop.
Import Pagination.
Context {T : Type}.
Variable pages : Z -> Z -> list T.
Variable perPage : Z.

Lemma paginate_from_step (fuel : nat) (from : Z) (calls : list (Z * Z)) :
  paginate_from (stub_fetch pages) perPage (S fuel) from calls =
    let items := pages from perPage in
    let calls' := (calls ++ [(from, perPage)])%list in
    if (length items =? 0)%nat then (Some [], calls')
    else if Z.of_nat (length items) <? perPage then (Some items, calls')
    else let '(rest, calls'') :=
           paginate_from (stub_fetch pages) perPage fuel (from + 1) calls' in
         (app items <$> rest, calls'').
Proof.
  cbn [paginate_from]. unfold mbind, stub_bind, stub_fetch at 1, mret, stub_ret.
  destruct (length (pages from perPage) =? 0)%nat; [reflexivity|].
  destruct (Z.of_nat (length (pages from perPage)) <? perPage); reflexivity.
Qed.

(** The loop stops at the first page that is empty or short, having asked
    for the pages up to it, once each and in order. *)
Lemma paginate_from_stops (n : nat) :
  forall (from : Z) (calls : list (Z * Z)) (fuel : nat),
    (forall i, (i < n)%nat -> full_page perPage (pages (from + Z.of_nat i) perPage)) ->
    last_page perPage (pages (from + Z.of_nat n) perPage) ->
    (n < fuel)%nat ->
    paginate_from (stub_fetch pages) perPage fuel from calls =
      (Some (items_of pages perPage from (S n)), (calls ++ calls_of perPage from (S n))%list).
Proof.
  induction n as [|n IH]; intros from calls fuel Hfull Hlast Hfuel.
  - destruct fuel as [|fuel]; [lia|]. rewrite paginate_from_step. cbv zeta.
    replace (from + Z.of_nat 0) with from in Hlast by lia.
    unfold items_of, calls_of. cbn [page_numbers map concat]. rewrite app_nil_r.
    destruct Hlast as [Hz|Hs].
    + rewrite Hz. cbn. apply length_zero_iff_nil in Hz. rewrite Hz. reflexivity.
    + destruct (length (pages from perPage) =? 0)%nat eqn:E.
      * apply Nat.eqb_eq, length_zero_iff_nil in E. rewrite E. reflexivity.
      * apply Z.ltb_lt in Hs. rewrite Hs. reflexivity.
  - destruct fuel as [|fuel]; [lia|]. rewrite paginate_from_step. cbv zeta.
    destruct (Hfull 0%nat ltac:(lia)) as [Hnz Hge].
    replace (from + Z.of_nat 0) with from in Hnz, Hge by lia.
    apply Nat.eqb_neq in Hnz. rewrite Hnz.
    assert ((Z.of_nat (length (pages from perPage)) <? perPage) = false) as ->
      by (apply Z.ltb_ge; lia).
    rewrite (IH (from + 1) _ fuel).
    + unfold items_of, calls_of. cbn [page_numbers map concat fmap option_fmap option_map].
      rewrite <- app_assoc. reflexivity.
    + intros i Hi. replace (from + 1 + Z.of_nat i) with (from + Z.of_nat (S i)) by lia.
      apply Hfull. lia.
    + replace (from + 1 + Z.of_nat n) with (from + Z.of_nat (S n)) by lia. exact Hlast.
    + lia.
Qed.

(** As long as the pages are full the loop goes on: it has not stopped
    after any number of fetches all of whose pages were full. *)
Lemma paginate_from_goes_on (fuel : nat) :
  forall (from : Z) (calls : list (Z * Z)),
    (forall i, (i < fuel)%nat -> full_page perPage (pages (from + Z.of_nat i) perPage)) ->
    paginate_from (stub_fetch pages) perPage fuel from calls =
      (None, (calls ++ calls_of perPage from fuel)%list).
Proof.
  induction fuel as [|fuel IH]; intros from calls Hfull.
  - cbn. unfold mret, stub_ret, calls_of. cbn. rewrite app_nil_r. reflexivity.
  - rewrite paginate_from_step. cbv zeta.
    destruct (Hfull 0%nat ltac:(lia)) as [Hnz Hge].
    replace (from + Z.of_nat 0) with from in Hnz, Hge by lia.
    apply Nat.eqb_neq in Hnz. rewrite Hnz.
    assert ((Z.of_nat (length (pages from perPage)) <? perPage) = false) as ->
      by (apply Z.ltb_ge; lia).
    rewrite (IH (from + 1)).
    + unfold calls_of. cbn [page_numbers map fmap option_fmap option_map].
      rewrite <- app_assoc. reflexivity.
    + intros i Hi. replace (from + 1 + Z.of_nat i) with (from + Z.of_nat (S i)) by lia.
      apply Hfull. lia.
Qed.

Lemma num_or_nonzero (n d : Z) : n <> 0 -> Client.num_or (Some n) d = n.
Proof. intros H. unfold Client.num_or. destruct (Z.eqb_spec n 0); congruence. Qed.

Lemma num_or_never_zero (n : option Z) (d : Z) : d <> 0 -> Client.num_or n d <> 0.
Proof.
  intros H. unfold Client.num_or. destruct n as [v|]; [|exact H].
  destruct (Z.eqb_spec v 0); congruence.
Qed.

Lemma paginate_from_getActivities (o : Client.GetActivitiesOptions) (fuel : nat) :
  forall (from : Z) (calls : list (Z * Z)),
    1 <= from -> perPage <> 0 ->
    paginate_from
      (fun page per_page =>
         stub_getActivities pages (Client.mkActivitiesOptions (Client.before o) (Client.after o)
                               (Some page) (Some per_page)))
      perPage fuel from calls =
    paginate_from (stub_fetch pages) perPage fuel from calls.
Proof.
  induction fuel as [|fuel IH]; intros from calls Hfrom Hpp; [reflexivity|].
  cbn [paginate_from]. unfold mbind, stub_bind, stub_getActivities.
  cbn [Client.page Client.per_page].
  rewrite !num_or_nonzero by lia.
  unfold stub_fetch at 1 3.
  destruct (length (pages from perPage) =? 0)%nat; [reflexivity|].
  destruct (Z.of_nat (length (pages from perPage)) <? perPage); [reflexivity|].
  rewrite IH by lia. reflexivity.
Qed.

End PaginationLoop.

(** C5.  For every table of pages and every page size, the loop asks for the
    pages 1, 2, ... in order and stops exactly at the first page that is empty
    or shorter than the page size: if the first [n] pages are full and page
    [n + 1] is empty or short, the collection is the items of pages 1 to
    [n + 1] in fetch order after exactly [n + 1] fetches, and if the first
    [k] pages are all full the loop has not stopped after [k] fetches.  For
    the pages [a; b] then [c] and page size 2, the collection is [a; b; c]
    and the fetches are those of pages 1 and 2.  [getAllActivities] is this
    loop, with the page size [per_page || 200]. *)
Theorem paginate_stops_at_first_short_page {T : Type} (pages : Z -> Z -> list T) (perPage : Z) :
  (forall (n fuel : nat),
     (forall i, (i < n)%nat ->
        Pagination.full_page perPage (pages (1 + Z.of_nat i) perPage)) ->
     Pagination.last_page perPage (pages (1 + Z.of_nat n) perPage) ->
     (n < fuel)%nat ->
     Pagination.paginate (Pagination.stub_fetch pages) perPage fuel [] =
       (Some (items_of pages perPage 1 (S n)), calls_of perPage 1 (S n))) /\
  (forall (k : nat),
     (forall i, (i < k)%nat ->
        Pagination.full_page perPage (pages (1 + Z.of_nat i) perPage)) ->
     Pagination.paginate (Pagination.stub_fetch pages) perPage k [] =
       (None, calls_of perPage 1 k)) /\
  (forall (a b c : T) (fuel : nat), (2 <= fuel)%nat ->
     Pagination.paginate (Pagination.stub_fetch (two_then_one a b c)) 2 fuel [] =
       (Some [a; b; c], [(1, 2); (2, 2)])) /\
  (forall (options : Client.GetActivitiesOptions) (fuel : nat),
     Pagination.getAllActivities (stub_getActivities pages) options fuel [] =
       Pagination.paginate (Pagination.stub_fetch pages)
         (Client.num_or (Client.per_page options) 200) fuel []).
Proof.
  split; [|split; [|split]].
  - intros n fuel Hfull Hlast Hfuel. unfold Pagination.paginate.
    rewrite (paginate_from_stops pages perPage n 1 [] fuel Hfull Hlast Hfuel).
    reflexivity.
  - intros k Hfull. unfold Pagination.paginate.
    rewrite (paginate_from_goes_on pages perPage k 1 [] Hfull). reflexivity.
  - intros a b c fuel Hfuel. unfold Pagination.paginate.
    rewrite (paginate_from_stops (two_then_one a b c) 2 1 1 [] fuel).
    + reflexivity.
    + intros i Hi. assert (i = 0%nat) as -> by lia.
      unfold Pagination.full_page, two_then_one. simpl. lia.
    + right. unfold two_then_one. simpl. lia.
    + lia.
  - intros options fuel.
    unfold Pagination.getAllActivities, Pagination.iterateActivities, Pagination.paginate.
    apply paginate_from_getActivities; [lia|].
    apply num_or_never_zero. lia.
Qed.

Lemma paginate_stops_at_first_short_page_witness :
  Pagination.paginate (Pagination.stub_fetch (two_then_one "a" "b" "c")) 2 5 [] =
    (Some ["a"; "b"; "c"], [(1, 2); (2, 2)]) /\
  Pagination.paginate (Pagination.stub_fetch (fun _ _ => ["x"; "y"])) 2 3 [] =
    (None, [(1, 2); (2, 2); (3, 2)]).
Proof.
  split.
  - destruct (paginate_stops_at_first_short_page (two_then_one "a" "b" "c") 2)
      as (H & _).
    rewrite (H 1%nat 5%nat).
    + reflexivity.
    + intros i Hi. assert (i = 0%nat) as -> by lia.
      unfold Pagination.full_page, two_then_one. simpl. lia.
    + right. unfold two_then_one. simpl. lia.
    + lia.
  - destruct (paginate_stops_at_first_short_page (fun _ _ : Z => ["x"; "y"]) 2)
      as (_ & H & _).
    rewrite (H 3%nat).
    + reflexivity.
    + intros i Hi. unfold Pagination.full_page. simpl. lia.
Defined.

(** ** Synchronous segments of composed computations *)

Section Segments.

(** A segment of [bind p f] is a segment of [p], followed by one of [f] if
    [p] returns within it. *)
Lemma run_sync_bind {A B : Type} (p : Prog A) (f : A -> Prog B) (w : World) :
  run_sync (bind p f) w =
    match run_sync p w with
    | (Finished (inr a), w') => run_sync (f a) w'
    | (Finished (inl e), w') => (Finished (inl e), w')
    | (Suspended b, w') => (Suspended (bind_blocked b f), w')
    end.
Proof.
  revert B f w. induction p; intros B f w; cbn; try reflexivity; auto.
  destruct (run_sync p w) as [s w1]. apply H.
Qed.

Lemma run_sync_try_catch {A : Type} (p : Prog A) (h : Exn -> Prog A) (w : World) :
  run_sync (try_catch p h) w =
    match run_sync p w with
    | (Finished (inr a), w') => (Finished (inr a), w')
    | (Finished (inl e), w') => run_sync (h e) w'
    | (Suspended b, w') => (Suspended (catch_blocked b h), w')
    end.
Proof.
  revert h w. induction p; intros h w; cbn; try reflexivity; auto.
  destruct (run_sync p w) as [s w1]. apply H.
Qed.

Lemma run_sync_mbind {A B : Type} (p : Prog A) (f : A -> Prog B) (w : World) :
  run_sync (p ≫= f) w =
    match run_sync p w with
    | (Finished (inr a), w') => run_sync (f a) w'
    | (Finished (inl e), w') => (Finished (inl e), w')
    | (Suspended b, w') => (Suspended (bind_blocked b f), w')
    end.
Proof. apply run_sync_bind. Qed.

Lemma run_sync_this (w : World) : run_sync this w = (Finished (inr (self w)), w).
Proof. reflexivity. Qed.

Lemma run_sync_set_this (c : Client) (w : World) :
  run_sync (set_this c) w = (Finished (inr tt), set_self c w).
Proof. reflexivity. Qed.

Lemma run_sync_now_ms (w : World) : run_sync now_ms w = (Finished (inr (clock w)), w).
Proof. reflexivity. Qed.

Lemma run_sync_mret {A : Type} (a : A) (w : World) : run_sync (mret a) w = (Finished (inr a), w).
Proof. reflexivity. Qed.

Lemma run_sync_throw {A : Type} (e : Exn) (w : World) :
  run_sync (Throw e : Prog A) w = (Finished (inl e), w).
Proof. reflexivity. Qed.

End Segments.

Ltac seg :=
  repeat first
    [ rewrite run_sync_mbind
    | rewrite run_sync_bind
    | rewrite run_sync_try_catch
    | rewrite run_sync_this
    | rewrite run_sync_set_this
    | rewrite run_sync_now_ms
    | rewrite run_sync_mret
    | rewrite run_sync_throw ].

(** ** Requests without an access token *)

Lemma getAuthHeaders_no_token (w : World) :
  (tokens (self w) = None \/ exists t, tokens (self w) = Some t /\ accessToken t = "") ->
  run_sync Client.getAuthHeaders w = (Finished (inl no_access_token), w).
Proof.
  intros H. unfold Client.getAuthHeaders. seg.
  destruct H as [-> | (t & -> & ->)]; reflexivity.
Qed.

Lemma getAuthHeaders_token (w : World) (t : StravaTokens) :
  tokens (self w) = Some t -> accessToken t <> "" ->
  run_sync Client.getAuthHeaders w =
    (Finished (inr ({[ "Authorization" := "Bearer " +:+ accessToken t ]} : HeaderRecord)), w).
Proof.
  intros Ht Hne. unfold Client.getAuthHeaders. seg. rewrite Ht.
  apply truthy_true in Hne. rewrite Hne. reflexivity.
Qed.

(** No refresh is started for a client without tokens, or whose tokens are
    not due. *)
Lemma refreshTokenIfNeeded_not_due (w : World) :
  (tokens (self w) = None \/
   exists t, tokens (self w) = Some t /\
             Client.shouldRefresh (self w) t (clock w / 1000) = false) ->
  run_sync Client.refreshTokenIfNeeded w = (Finished (inr tt), w).
Proof.
  intros H. unfold Client.refreshTokenIfNeeded. seg.
  destruct H as [-> | (t & -> & Hfresh)]; [reflexivity|].
  seg. rewrite Hfresh. reflexivity.
Qed.

(** C7 (as amended).  For every request that requires auth, if the client
    holds no tokens, or holds an empty access token and starts no refresh
    (auto-refresh is off, or the tokens are not due), the call fails with the
    Validation error in its first synchronous segment: the header-building
    step throws, no call of [fetch] is made and nothing of the client
    changes. *)
Theorem request_without_token_fails_before_network {T : Type} (read : Body -> option T)
    (m : Method) (path : string) (options : Client.RequestOptions) (w : World) :
  Client.rq_skipAuth options = false ->
  (tokens (self w) = None \/
   exists t, tokens (self w) = Some t /\ accessToken t = "" /\
     (autoRefresh (config (self w)) = false \/
      Client.shouldRefresh (self w) t (clock w / 1000) = false)) ->
  run_sync (Client.request read m path options) w = (Finished (inl no_access_token), w).
Proof.
  intros Hskip H. unfold Client.request. seg. rewrite Hskip. cbn [negb].
  assert (Hpre :
    run_sync (if autoRefresh (config (self w)) && bool_decide (is_Some (tokens (self w))) && true
              then Client.refreshTokenIfNeeded else mret tt) w = (Finished (inr tt), w)).
  { destruct (autoRefresh (config (self w)) && bool_decide (is_Some (tokens (self w))) && true)
      eqn:E; [|reflexivity].
    apply refreshTokenIfNeeded_not_due.
    destruct H as [Hn | (t & Ht & _ & [Hoff | Hfresh])]; [left; exact Hn | |].
    - rewrite Hoff in E. discriminate.
    - right. exists t. split; assumption. }
  rewrite Hpre. seg.
  rewrite getAuthHeaders_no_token; [reflexivity|].
  destruct H as [Hn | (t & Ht & He & _)]; [left; exact Hn | right; exists t; split; assumption].
Qed.

Lemma request_without_token_fails_before_network_witness :
  run_sync Client.getAthlete (empty_world example_client) =
    (Finished (inl no_access_token), empty_world example_client) /\
  run_sync Client.getAthlete
    (empty_world (Client.with_tokens (Some (mkTokens "" "refresh-456" 1700003600)) example_client)) =
    (Finished (inl no_access_token),
     empty_world (Client.with_tokens (Some (mkTokens "" "refresh-456" 1700003600)) example_client)).
Proof.
  split.
  - apply (request_without_token_fails_before_network json_value GET "/athlete"
             Client.no_options (empty_world example_client)); [reflexivity|].
    left. reflexivity.
  - apply (request_without_token_fails_before_network json_value GET "/athlete"
             Client.no_options
             (empty_world (Client.with_tokens (Some (mkTokens "" "refresh-456" 1700003600))
                             example_client))); [reflexivity|].
    right. exists (mkTokens "" "refresh-456" 1700003600).
    split; [reflexivity|]. split; [reflexivity|]. right. reflexivity.
Defined.

(** C7 as stated fails on [bootstrap_client]: the access token is empty, so
    the header-building step would throw, yet the first thing the call does
    is the refresh exchange on the network; once that has answered, the
    request goes out with the new token and the call returns the athlete. *)
Lemma request_with_empty_access_token_refreshes :
  run_sync Client.getAuthHeaders (empty_world bootstrap_client) =
    (Finished (inl no_access_token), empty_world bootstrap_client) /\
  map url (netlog (world (run_events [Call 0 1700000000000] one_request))) =
    ["https://www.strava.com/oauth/token"] /\
  map is_waiting (tasks (run_events [Call 0 1700000000000] one_request)) = [true] /\
  tasks (run_events
           [Call 0 1700000000000;
            Net (PromiseT 0) (Responds 120 (mkResponse true 200 ∅ (json_body_tokens new_token_response)));
            Wake (PromiseT 0);
            Wake (TaskT 0);
            Net (TaskT 0) (Responds 80 (mkResponse true 200 ∅ (json_body_value athlete)))]
           one_request) = [Done (inr athlete)].
Proof. vm_compute. repeat split. Qed.

(** ** Timeouts *)

(** C4, at an input on which the code departs from it.  The client is
    configured with a timeout of 5000 ms and the call has no override; the
    timer that [request] arms is [DEFAULT_TIMEOUT] (30000 ms), so an answer
    that comes after 10000 ms is returned, where C4 has the call cancelled at
    5000 ms and failed with the timed-out Network error. *)
Theorem request_ignores_configured_timeout :
  timeout (config five_second_client) = 5000 /\
  map timer (netlog (world (run_events [Call 0 1700000000000] one_athlete_call))) = [30000] /\
  tasks (run_events [Call 0 1700000000000; Net (TaskT 0) slow_answer] one_athlete_call) =
    [Done (inr athlete)] /\
  settle 5000 slow_answer = inl AbortError.
Proof. vm_compute. repeat split. Qed.

Lemma run_sync_await_fetch (call : FetchCall) (w : World) :
  run_sync (await_fetch call) w =
    (Suspended (WFetch (length (netlog w)) (timer call) Ret), log_fetch call w).
Proof. reflexivity. Qed.

(** An answer that does not come before the timer is an abort. *)
Lemma settle_late (tm : Z) (nb : NetBehaviour) :
  match nb with
  | Responds latency _ | Fails latency _ => tm <= latency
  | Hangs => True
  end ->
  settle tm nb = inl AbortError.
Proof.
  destruct nb as [lat r | lat e |]; simpl; intros H; try reflexivity;
    (assert ((lat <? tm) = false) as -> by (apply Z.ltb_ge; lia)); reflexivity.
Qed.

(** [fetchWithTimeout] does what C4 says: the timer it arms is the per-call
    override when there is one and the configured timeout otherwise, and a
    fetch that the timer aborts fails with the timed-out Network error. *)
Lemma fetchWithTimeout_arms_timeout {T : Type} (u : string) (options : Client.FetchOptions T)
    (w : World) :
  exists k,
    run_sync (Client.fetchWithTimeout u options) w =
      (Suspended (WFetch (length (netlog w))
                    (default (timeout (config (self w))) (Client.fo_timeout options)) k),
       log_fetch (mkFetchCall u (Client.fo_method options) (Client.fo_headers options)
                    (Client.fo_body options)
                    (default (timeout (config (self w))) (Client.fo_timeout options))) w) /\
    forall w', run_sync (k (inl AbortError)) w' = (Finished (inl timed_out), w').
Proof.
  unfold Client.fetchWithTimeout, Client.fetch. seg. rewrite run_sync_await_fetch.
  cbn [bind_blocked catch_blocked timer].
  eexists. split; [reflexivity|]. intros w'. reflexivity.
Qed.

(** [request] arms [DEFAULT_TIMEOUT] whatever the configuration says. *)
Lemma request_arms_default_timeout {T : Type} (read : Body -> option T) (m : Method)
    (path : string) (options : Client.RequestOptions) (w : World) (t : StravaTokens) :
  tokens (self w) = Some t -> accessToken t <> "" ->
  Client.shouldRefresh (self w) t (clock w / 1000) = false ->
  exists k call,
    run_sync (Client.request read m path options) w =
      (Suspended (WFetch (length (netlog w)) Client.DEFAULT_TIMEOUT k), log_fetch call w) /\
    timer call = Client.DEFAULT_TIMEOUT /\
    forall w', run_sync (k (inl AbortError)) w' = (Finished (inl timed_out), w').
Proof.
  intros Ht Hne Hfresh. unfold Client.request. seg.
  assert (Hpre :
    run_sync (if autoRefresh (config (self w)) && bool_decide (is_Some (tokens (self w)))
                 && negb (Client.rq_skipAuth options)
              then Client.refreshTokenIfNeeded else mret tt) w = (Finished (inr tt), w)).
  { destruct (autoRefresh (config (self w)) && bool_decide (is_Some (tokens (self w)))
              && negb (Client.rq_skipAuth options)); [|reflexivity].
    apply refreshTokenIfNeeded_not_due. right. exists t. split; assumption. }
  rewrite Hpre.
  destruct (Client.rq_skipAuth options); cbn [negb]; seg;
    rewrite ?(getAuthHeaders_token w t Ht Hne); seg;
    unfold Client.fetch; seg; rewrite run_sync_await_fetch;
    cbn [bind_blocked catch_blocked timer];
    eexists; eexists; (split; [reflexivity|]); (split; [reflexivity|]);
    intros w'; reflexivity.
Qed.

(** A call of [fetchWithTimeout] whose answer does not come before the timer
    it armed fails with the timed-out Network error. *)
Lemma fetchWithTimeout_times_out {T : Type} (u : string) (options : Client.FetchOptions T)
    (w : World) (at_ms : Z) (nb : NetBehaviour) :
  settle (default (timeout (config (self w))) (Client.fo_timeout options)) nb = inl AbortError ->
  tasks (run_events [Call 0 at_ms; Net (TaskT 0) nb]
           (mkLoop w [Idle (Client.fetchWithTimeout u options)])) = [Done (inl timed_out)].
Proof.
  intros Hlate. cbn [run_events fold_left step tasks world lookup list_lookup].
  unfold continue_task. cbn [world tasks].
  destruct (fetchWithTimeout_arms_timeout u options (set_clock at_ms w)) as (k & Hseg & Hk).
  rewrite Hseg.
  cbn [task_of_step tasks world insert list_insert lookup list_lookup net_blocked].
  cbn [self set_clock config]. rewrite Hlate, Hk. reflexivity.
Qed.

(** ** Token exchange and token refresh *)

Section TokenExchange.

Lemma on_fetch_error_throws {A : Type} (e : Exn) (w : World) :
  exists e', run_sync (Client.on_fetch_error e : Prog A) w = (Finished (inl e'), w).
Proof.
  unfold Client.on_fetch_error. destruct e as [se | ne]; [eexists; reflexivity|].
  destruct (String.eqb (name ne) "AbortError"); [eexists; reflexivity|].
  destruct (ctor ne); try (eexists; reflexivity).
  destruct (includes (emessage ne) "fetch"); eexists; reflexivity.
Qed.

Lemma exchange_first_segment (code : string) (w : World) :
  exists k call,
    run_sync (Client.exchangeAuthorizationCode code) w =
      (Suspended (WFetch (length (netlog w)) (timeout (config (self w))) k),
       log_fetch call w) /\
    url call = "https://www.strava.com/oauth/token" /\
    oauth_continuation k (fun d w' => (Finished (inr d), store_tokens d w')).
Proof.
  unfold Client.exchangeAuthorizationCode, Client.requestRaw, Client.fetchWithTimeout,
    Client.fetch.
  seg. rewrite run_sync_await_fetch.
  cbn [bind_blocked catch_blocked timer Client.fo_timeout default].
  eexists. eexists. split; [reflexivity|]. split; [reflexivity|].
  unfold oauth_continuation. repeat split.
  - intros w' e. seg.
    destruct (on_fetch_error_throws (A := StravaTokenResponse) (ExNative e) w')
      as [e' He'].
    rewrite He'. eexists. reflexivity.
  - intros w' r Hok. seg. cbn. rewrite Hok. cbn. eexists. reflexivity.
  - intros w' r Hok Hj. seg. cbn. rewrite Hok. cbn. unfold Client.json. rewrite Hj.
    cbn. eexists. reflexivity.
  - intros w' r d Hok Hj. seg. cbn. rewrite Hok. cbn. unfold Client.json. rewrite Hj.
    reflexivity.
Qed.

Lemma refresh_without_token (arg : option string) (w : World) :
  truthy_opt (token_to_refresh arg (self w)) = false ->
  run_sync (Client.refreshAccessToken arg) w = (Finished (inl no_refresh_token), w).
Proof.
  intros H. unfold Client.refreshAccessToken. seg.
  unfold token_to_refresh in H. rewrite H. reflexivity.
Qed.

Lemma refresh_first_segment (arg : option string) (w : World) :
  truthy_opt (token_to_refresh arg (self w)) = true ->
  exists k call,
    run_sync (Client.refreshAccessToken arg) w =
      (Suspended (WFetch (length (netlog w)) (timeout (config (self w))) k),
       log_fetch call w) /\
    url call = "https://www.strava.com/oauth/token" /\
    oauth_continuation k
      (fun d w' =>
         (Suspended (WCallback (onTokenRefresh (config (self w')) (Client.tokens_of_response d))
                       (callback_cont d)),
          log_callback (Client.tokens_of_response d) (store_tokens d w'))).
Proof.
  intros H. unfold Client.refreshAccessToken. seg.
  unfold token_to_refresh in H. rewrite H. cbn [negb].
  unfold Client.requestRaw, Client.fetchWithTimeout, Client.fetch.
  seg. rewrite run_sync_await_fetch.
  cbn [bind_blocked catch_blocked timer Client.fo_timeout default].
  eexists. eexists. split; [reflexivity|]. split; [reflexivity|].
  unfold oauth_continuation. repeat split.
  - intros w' e. seg.
    destruct (on_fetch_error_throws (A := StravaTokenResponse) (ExNative e) w')
      as [e' He'].
    rewrite He'. eexists. reflexivity.
  - intros w' r Hok. seg. cbn. rewrite Hok. cbn. eexists. reflexivity.
  - intros w' r Hok Hj. seg. cbn. rewrite Hok. cbn. unfold Client.json. rewrite Hj.
    cbn. eexists. reflexivity.
  - intros w' r d Hok Hj. seg. cbn. rewrite Hok. cbn. unfold Client.json. rewrite Hj.
    reflexivity.
Qed.

End TokenExchange.

(** The outcome of the continuation of an OAuth call on a network answer. *)
Lemma oauth_continuation_answer (k : JS.Error + Response -> Prog StravaTokenResponse)
    (on_success : StravaTokenResponse -> World -> Step StravaTokenResponse * World)
    (tm : Z) (nb : NetBehaviour) (w : World) :
  oauth_continuation k on_success ->
  match token_answer tm nb with
  | Some d => run_sync (k (settle tm nb)) w = on_success d w
  | None => exists e, run_sync (k (settle tm nb)) w = (Finished (inl e), w)
  end.
Proof.
  intros (Herr & Hnok & Hnj & Hok). unfold token_answer.
  destruct (settle tm nb) as [e | r]; [apply Herr|].
  destruct (ok r) eqn:Eok; [|apply Hnok; exact Eok].
  destruct (json_tokens (body r)) as [d|] eqn:Ej; [apply Hok | apply Hnj]; assumption.
Qed.

Lemma refresh_invokes_callback (arg : option string) (w : World) (at_ms : Z)
    (nb : NetBehaviour) (d : StravaTokenResponse) :
  truthy_opt (token_to_refresh arg (self w)) = true ->
  token_answer (timeout (config (self w))) nb = Some d ->
  cblog (world (refresh_run arg w at_ms nb)) =
    (cblog w ++ [Client.tokens_of_response d])%list.
Proof.
  intros Htok Hans. unfold refresh_run, run_events.
  cbn [fold_left step tasks world lookup list_lookup].
  unfold continue_task. cbn [world tasks].
  destruct (refresh_first_segment arg (set_clock at_ms w) Htok)
    as (k & call & Hseg & Hurl & Hk).
  rewrite Hseg. cbn [task_of_step tasks world insert list_insert lookup list_lookup net_blocked].
  cbn [self set_clock config].
  pose proof (oauth_continuation_answer k _ (timeout (config (self w))) nb
                (log_fetch call (set_clock at_ms w)) Hk) as Hrun.
  rewrite Hans in Hrun. rewrite Hrun. reflexivity.
Qed.

(** C10.  A token exchange makes one call of [fetch]; when the answer is a
    success it stores the triple of the response and returns the response,
    otherwise it fails and the tokens are as before.  In both cases the
    [onTokenRefresh] callback is not invoked, and the rate-limit snapshot, the
    configuration, the refresh marker and the promises are as before.  A token
    refresh that gets the same successful answer does invoke the callback,
    once, with the new triple. *)
Theorem exchangeAuthorizationCode_frame (code : string) (w : World) (at_ms : Z)
    (nb : NetBehaviour) :
  let l := exchange_run code w at_ms nb in
  cblog (world l) = cblog w /\
  same_but_tokens w (world l) /\
  (exists call, netlog (world l) = (netlog w ++ [call])%list /\
                url call = "https://www.strava.com/oauth/token") /\
  (forall d, token_answer (timeout (config (self w))) nb = Some d ->
     tasks l = [Done (inr d)] /\
     tokens (self (world l)) =
       Some (mkTokens (access_token d) (refresh_token d) (expires_at d))) /\
  (token_answer (timeout (config (self w))) nb = None ->
     tokens (self (world l)) = tokens (self w) /\ exists e, tasks l = [Done (inl e)]) /\
  (forall arg d,
     truthy_opt (token_to_refresh arg (self w)) = true ->
     token_answer (timeout (config (self w))) nb = Some d ->
     cblog (world (refresh_run arg w at_ms nb)) =
       (cblog w ++ [mkTokens (access_token d) (refresh_token d) (expires_at d)])%list).
Proof.
  cbv zeta. unfold exchange_run, run_events.
  cbn [fold_left step tasks world lookup list_lookup].
  unfold continue_task. cbn [world tasks].
  destruct (exchange_first_segment code (set_clock at_ms w)) as (k & call & Hseg & Hurl & Hk).
  rewrite Hseg. cbn [task_of_step tasks world insert list_insert lookup list_lookup net_blocked].
  cbn [self set_clock config].
  pose proof (oauth_continuation_answer k _ (timeout (config (self w))) nb
                (log_fetch call (set_clock at_ms w)) Hk) as Hrun.
  destruct (token_answer (timeout (config (self w))) nb) as [d|] eqn:Hans.
  - rewrite Hrun. cbn.
    split; [reflexivity|]. split; [repeat split|].
    split; [exists call; split; [reflexivity | exact Hurl]|].
    split; [intros d' Hd'; injection Hd' as <-; split; reflexivity|].
    split; [discriminate|].
    intros arg d' Htok Hd'. injection Hd' as <-.
    apply (refresh_invokes_callback arg w at_ms nb d Htok Hans).
  - destruct Hrun as [e Hrun]. rewrite Hrun. cbn.
    split; [reflexivity|]. split; [repeat split|].
    split; [exists call; split; [reflexivity | exact Hurl]|].
    split; [discriminate|].
    split; [intros _; split; [reflexivity | exists e; reflexivity]|].
    intros arg d' _ Hd'. discriminate.
Qed.

Lemma exchangeAuthorizationCode_frame_witness :
  tasks (exchange_run "auth-code" stale_world 1700000000000 token_endpoint_answer) =
    [Done (inr new_token_response)] /\
  tokens (self (world (exchange_run "auth-code" stale_world 1700000000000 token_endpoint_answer))) =
    Some (mkTokens "new-access" "new-refresh" 1700003600) /\
  cblog (world (exchange_run "auth-code" stale_world 1700000000000 token_endpoint_answer)) = [] /\
  rateLimitInfo (self (world (exchange_run "auth-code" stale_world 1700000000000
                                token_endpoint_answer))) = Some prior_snapshot /\
  cblog (world (refresh_run None stale_world 1700000000000 token_endpoint_answer)) =
    [mkTokens "new-access" "new-refresh" 1700003600].
Proof.
  destruct (exchangeAuthorizationCode_frame "auth-code" stale_world 1700000000000
              token_endpoint_answer) as (Hcb & (_ & Hrl & _) & _ & Hok & _ & Href).
  destruct (Hok new_token_response eq_refl) as (Ht & Htok).
  split; [exact Ht|]. split; [exact Htok|]. split; [exact Hcb|]. split; [exact Hrl|].
  exact (Href None new_token_response eq_refl eq_refl).
Defined.

(** ** The refresh guard *)

Section RefreshGuard.

Lemma run_sync_async (body : Prog StravaTokenResponse) (w : World) :
  run_sync (async body) w =
    (Finished (inr (length (promises (snd (run_sync body w))))),
     add_promise (promise_of_step (fst (run_sync body w))) (snd (run_sync body w))).
Proof. unfold async. cbn. destruct (run_sync body w). reflexivity. Qed.

Lemma run_sync_await_promise (p : PromiseId) (w : World) :
  run_sync (await_promise p) w =
    (Suspended (WPromise p (fun r => match r with inl e => Throw e | inr d => Ret d end)), w).
Proof. reflexivity. Qed.

(** A caller that finds the tokens due and a marker installed awaits the
    promise of the marker, and does nothing else. *)
Lemma refreshTokenIfNeeded_waits (w : World) (t : StravaTokens) (p : PromiseId) :
  due w t -> refreshPromise (self w) = Some p ->
  exists k, run_sync Client.refreshTokenIfNeeded w = (Suspended (WPromise p k), w) /\
            caller_cont false k.
Proof.
  intros [Ht Hdue] Hp. unfold Client.refreshTokenIfNeeded. seg. rewrite Ht. seg.
  rewrite Hdue, Hp. seg. rewrite run_sync_await_promise. cbn [bind_blocked].
  eexists. split; [reflexivity|].
  intros [e|d] w'; reflexivity.
Qed.

(** A caller that finds the tokens due and no marker starts the refresh
    (here: with a refresh token to send, so that the refresh reaches the
    network) and installs its promise as the marker before it suspends. *)
Lemma refreshTokenIfNeeded_starts (w : World) (t : StravaTokens) :
  due w t -> refreshPromise (self w) = None -> refreshToken t <> "" ->
  exists k kf call,
    run_sync Client.refreshTokenIfNeeded w =
      (Suspended (WPromise (length (promises w)) k),
       install_marker (length (promises w))
         (add_promise (Pending (WFetch (length (netlog w)) (timeout (config (self w))) kf))
            (log_fetch call w))) /\
    caller_cont true k /\
    url call = "https://www.strava.com/oauth/token" /\
    oauth_continuation kf
      (fun d w' =>
         (Suspended (WCallback (onTokenRefresh (config (self w')) (Client.tokens_of_response d))
                       (callback_cont d)),
          log_callback (Client.tokens_of_response d) (store_tokens d w'))).
Proof.
  intros [Ht Hdue] Hp Hrt. unfold Client.refreshTokenIfNeeded. seg. rewrite Ht. seg.
  rewrite Hdue, Hp. seg. rewrite run_sync_async.
  assert (Htok : truthy_opt (token_to_refresh None (self w)) = true).
  { unfold token_to_refresh. cbn. rewrite Ht. cbn. apply truthy_true. exact Hrt. }
  destruct (refresh_first_segment None w Htok) as (kf & call & Hseg & Hurl & Hkf).
  rewrite Hseg. cbn [fst snd promise_of_step]. seg.
  unfold try_finally. seg. rewrite run_sync_await_promise. cbn [bind_blocked catch_blocked].
  eexists. exists kf, call. split; [reflexivity|]. split; [|split; assumption].
  intros [e|d] w'; reflexivity.
Qed.

(** The same caller when the stored refresh token is empty: the refresh
    fails before any call of [fetch], and its promise is installed already
    rejected. *)
Lemma refreshTokenIfNeeded_starts_without_token (w : World) (t : StravaTokens) :
  due w t -> refreshPromise (self w) = None -> refreshToken t = "" ->
  exists k,
    run_sync Client.refreshTokenIfNeeded w =
      (Suspended (WPromise (length (promises w)) k),
       install_marker (length (promises w))
         (add_promise (Settled (inl no_refresh_token)) w)) /\
    caller_cont true k.
Proof.
  intros [Ht Hdue] Hp Hrt. unfold Client.refreshTokenIfNeeded. seg. rewrite Ht. seg.
  rewrite Hdue, Hp. seg. rewrite run_sync_async.
  assert (Htok : truthy_opt (token_to_refresh None (self w)) = false).
  { unfold token_to_refresh. cbn. rewrite Ht. cbn. rewrite Hrt. reflexivity. }
  rewrite (refresh_without_token None w Htok). cbn [fst snd promise_of_step]. seg.
  unfold try_finally. seg. rewrite run_sync_await_promise. cbn [bind_blocked catch_blocked].
  eexists. split; [reflexivity|].
  intros [e|d] w'; reflexivity.
Qed.

End RefreshGuard.

(** ** Concurrent callers of the refresh guard *)

Section RefreshLoop.

Lemma insert_middle {A : Type} (l1 l2 : list A) (x y : A) :
  <[length l1 := y]> (l1 ++ x :: l2)%list = (l1 ++ y :: l2)%list.
Proof.
  rewrite insert_app_r_alt by lia. rewrite Nat.sub_diag. reflexivity.
Qed.

Lemma set_clock_set_clock (a b : Z) (w : World) : set_clock a (set_clock b w) = set_clock a w.
Proof. reflexivity. Qed.

Lemma set_clock_same (w : World) : set_clock (clock w) w = w.
Proof. destruct w; reflexivity. Qed.

Lemma step_call_middle (done rest : list (Task unit)) (p : Prog unit) (w : World) (at_ms : Z) :
  step (Call (length done) at_ms) (mkLoop w (done ++ Idle p :: rest)%list) =
    mkLoop (snd (run_sync p (set_clock at_ms w)))
           (done ++ task_of_step (fst (run_sync p (set_clock at_ms w))) :: rest)%list.
Proof.
  cbn [step tasks world]. rewrite list_lookup_middle by reflexivity.
  unfold continue_task. cbn [world tasks].
  destruct (run_sync p (set_clock at_ms w)) as [s w']. cbn [fst snd].
  rewrite insert_middle. reflexivity.
Qed.

Lemma step_wake_middle (done rest : list (Task unit)) (p : PromiseId)
    (k : Exn + StravaTokenResponse -> Prog unit) (r : Exn + StravaTokenResponse) (w : World) :
  promises w !! p = Some (Settled r) ->
  step (Wake (TaskT (length done))) (mkLoop w (done ++ Waiting (WPromise p k) :: rest)%list) =
    mkLoop (snd (run_sync (k r) w))
           (done ++ task_of_step (fst (run_sync (k r) w)) :: rest)%list.
Proof.
  intros Hp. cbn [step tasks world]. rewrite list_lookup_middle by reflexivity.
  cbn [wake_blocked]. rewrite Hp.
  unfold continue_task. cbn [world tasks].
  destruct (run_sync (k r) w) as [s w']. cbn [fst snd].
  rewrite insert_middle. reflexivity.
Qed.

(** Every caller that enters while the tokens are due and the marker is
    installed suspends on the promise of the marker; the client and the
    logs stay as they are. *)
Lemma later_callers_wait (t : StravaTokens) (p : PromiseId) (ats : list Z) :
  forall (done : list (Task unit)) (w : World),
    tokens (self w) = Some t ->
    refreshPromise (self w) = Some p ->
    Forall (fun at_ms => Client.shouldRefresh (self w) t (at_ms / 1000) = true) ats ->
    exists c ts,
      run_events (calls_from (length done) ats)
        (mkLoop w (done ++ replicate (length ats) (Idle Client.refreshTokenIfNeeded))%list) =
        mkLoop (set_clock c w) (done ++ ts)%list /\
      Forall (waiting_on p false) ts /\ length ts = length ats.
Proof.
  induction ats as [|a ats IH]; intros done w Ht Hp Hdue.
  - exists (clock w), []. cbn. rewrite set_clock_same. repeat split. constructor.
  - cbn [calls_from length replicate run_events fold_left].
    rewrite step_call_middle.
    apply Forall_cons in Hdue as [Ha Hdue].
    destruct (refreshTokenIfNeeded_waits (set_clock a w) t p) as (k & Hrun & Hk);
      [split; [exact Ht | exact Ha] | exact Hp |].
    rewrite Hrun. cbn [fst snd task_of_step].
    specialize (IH (done ++ [Waiting (WPromise p k)])%list (set_clock a w) Ht Hp Hdue).
    destruct IH as (c & ts & Hrest & Hts & Hlen).
    rewrite length_app in Hrest. cbn [length] in Hrest.
    rewrite Nat.add_1_r in Hrest. rewrite <- app_assoc in Hrest. cbn [app] in Hrest.
    unfold run_events in Hrest. rewrite Hrest.
    exists c, (Waiting (WPromise p k) :: ts). rewrite set_clock_set_clock.
    split; [rewrite <- app_assoc; reflexivity|]. split.
    + constructor; [exists k; split; [reflexivity | exact Hk] | exact Hts].
    + cbn. rewrite Hlen. reflexivity.
Qed.

(** Once the promise has settled, every waiting caller that is resumed
    leaves with the outcome of the promise; the client and the logs stay as
    they are. *)
Lemma waiters_leave (p : PromiseId) (r : Exn + StravaTokenResponse) (ts : list (Task unit)) :
  forall (done : list (Task unit)) (w : World),
    promises w !! p = Some (Settled r) ->
    Forall (waiting_on p false) ts ->
    run_events (wakes_from (length done) (length ts)) (mkLoop w (done ++ ts)%list) =
      mkLoop w (done ++ replicate (length ts) (Done (caller_outcome r)))%list.
Proof.
  induction ts as [|tk ts IH]; intros done w Hp Hts; [reflexivity|].
  apply Forall_cons in Hts as [(k & -> & Hk) Hts].
  unfold wakes_from. cbn [length seq map run_events fold_left].
  rewrite (step_wake_middle done ts p k r w Hp). rewrite Hk. cbn [fst snd task_of_step].
  specialize (IH (done ++ [Done (caller_outcome r)])%list w Hp Hts).
  rewrite length_app in IH. cbn [length] in IH. rewrite Nat.add_1_r in IH.
  rewrite <- app_assoc in IH. cbn [app] in IH.
  unfold run_events, wakes_from in IH. rewrite IH.
  rewrite <- app_assoc. reflexivity.
Qed.

End RefreshLoop.

Section OneRefresh.

Lemma run_events_app {A : Type} (es1 es2 : list Event) (l : Loop A) :
  run_events (es1 ++ es2) l = run_events es2 (run_events es1 l).
Proof. apply fold_left_app. Qed.

Variable w : World.
Variable t : StravaTokens.
Variable a : Z.
Variable ats : list Z.
Variable nb : NetBehaviour.
Hypothesis Htokens : tokens (self w) = Some t.
Hypothesis Hmarker : refreshPromise (self w) = None.
Hypothesis Hdue :
  Forall (fun at_ms => Client.shouldRefresh (self w) t (at_ms / 1000) = true) (a :: ats).

Lemma entered_with_token :
  refreshToken t <> "" ->
  exists k0 kf call c ts,
    run_events [Call 0 a] (mkLoop w (callers (S (length ats)))) =
      mkLoop (install_marker (length (promises w))
                (add_promise (Pending (WFetch (length (netlog w)) (timeout (config (self w))) kf))
                   (log_fetch call (set_clock a w))))
             (Waiting (WPromise (length (promises w)) k0) :: callers (length ats)) /\
    run_events (calls_from 0 (a :: ats)) (mkLoop w (callers (S (length ats)))) =
      mkLoop (set_clock c
                (install_marker (length (promises w))
                   (add_promise (Pending (WFetch (length (netlog w)) (timeout (config (self w))) kf))
                      (log_fetch call (set_clock a w)))))
             (Waiting (WPromise (length (promises w)) k0) :: ts) /\
    caller_cont true k0 /\
    Forall (waiting_on (length (promises w)) false) ts /\ length ts = length ats /\
    url call = "https://www.strava.com/oauth/token" /\
    oauth_continuation kf
      (fun d w' =>
         (Suspended (WCallback (onTokenRefresh (config (self w')) (Client.tokens_of_response d))
                       (callback_cont d)),
          log_callback (Client.tokens_of_response d) (store_tokens d w'))).
Proof.
  intros Hrt. apply Forall_cons in Hdue as [Ha Hrest].
  destruct (refreshTokenIfNeeded_starts (set_clock a w) t) as (k0 & kf & call & Hrun & Hk0 & Hurl & Hkf);
    [split; assumption | exact Hmarker | exact Hrt |].
  assert (Hfirst :
    run_events [Call 0 a] (mkLoop w (callers (S (length ats)))) =
      mkLoop (install_marker (length (promises w))
                (add_promise (Pending (WFetch (length (netlog w)) (timeout (config (self w))) kf))
                   (log_fetch call (set_clock a w))))
             (Waiting (WPromise (length (promises w)) k0) :: callers (length ats))).
  { unfold callers. cbn [length replicate run_events fold_left].
    pose proof (step_call_middle [] (replicate (length ats) (Idle Client.refreshTokenIfNeeded))
                  Client.refreshTokenIfNeeded w a) as Hstep.
    cbn [app length] in Hstep. rewrite Hstep, Hrun. reflexivity. }
  set (w1 := install_marker (length (promises w))
                (add_promise (Pending (WFetch (length (netlog w)) (timeout (config (self w))) kf))
                   (log_fetch call (set_clock a w)))) in *.
  destruct (later_callers_wait t (length (promises w)) ats [Waiting (WPromise (length (promises w)) k0)] w1)
    as (c & ts & Hafter & Hts & Hlen); [exact Htokens | reflexivity | exact Hrest |].
  exists k0, kf, call, c, ts.
  split; [exact Hfirst|]. split.
  - change (calls_from 0 (a :: ats)) with ([Call 0 a] ++ calls_from 1 ats)%list.
    rewrite run_events_app, Hfirst. exact Hafter.
  - split; [exact Hk0|]. split; [exact Hts|]. split; [exact Hlen|].
    split; [exact Hurl | exact Hkf].
Qed.

Lemma step_net_promise {A : Type} (w1 : World) (tks : list (Task A)) (p : PromiseId)
    (id : nat) (tm : Z) (k : JS.Error + Response -> Prog StravaTokenResponse)
    (b : NetBehaviour) :
  promises w1 !! p = Some (Pending (WFetch id tm k)) ->
  step (Net (PromiseT p) b) (mkLoop w1 tks) =
    mkLoop (set_promise p (promise_of_step (fst (run_sync (k (settle tm b)) w1)))
              (snd (run_sync (k (settle tm b)) w1))) tks.
Proof.
  intros Hp. cbn [step world]. rewrite Hp. cbn [net_blocked].
  unfold continue_promise. cbn [world tasks].
  destruct (run_sync (k (settle tm b)) w1). reflexivity.
Qed.

Lemma step_wake_promise_callback {A : Type} (w1 : World) (tks : list (Task A))
    (p : PromiseId) (r : option Exn) (k : option Exn -> Prog StravaTokenResponse) :
  promises w1 !! p = Some (Pending (WCallback r k)) ->
  step (Wake (PromiseT p)) (mkLoop w1 tks) =
    mkLoop (set_promise p (promise_of_step (fst (run_sync (k r) w1)))
              (snd (run_sync (k r) w1))) tks.
Proof.
  intros Hp. cbn [step world]. rewrite Hp. cbn [wake_blocked].
  unfold continue_promise. cbn [world tasks].
  destruct (run_sync (k r) w1). reflexivity.
Qed.

Lemma step_wake_promise_settled {A : Type} (l : Loop A) (p : PromiseId)
    (r : Exn + StravaTokenResponse) :
  promises (world l) !! p = Some (Settled r) ->
  step (Wake (PromiseT p)) l = l.
Proof. intros Hp. cbn [step]. rewrite Hp. reflexivity. Qed.

(** The network settles the fetch of the refresh, and the refresh is
    resumed after its callback: the promise is settled; on a successful
    answer the tokens are the new triple and the callback has been invoked
    with it, otherwise the client is as before. *)
Lemma refresh_settles (w2 : World) (tks : list (Task unit)) (p : PromiseId) (id : nat)
    (tm : Z) (kf : JS.Error + Response -> Prog StravaTokenResponse) :
  promises w2 !! p = Some (Pending (WFetch id tm kf)) ->
  oauth_continuation kf
    (fun d w' =>
       (Suspended (WCallback (onTokenRefresh (config (self w')) (Client.tokens_of_response d))
                     (callback_cont d)),
        log_callback (Client.tokens_of_response d) (store_tokens d w'))) ->
  exists R w3,
    run_events [Net (PromiseT p) nb; Wake (PromiseT p)] (mkLoop w2 tks) = mkLoop w3 tks /\
    promises w3 !! p = Some (Settled R) /\
    netlog w3 = netlog w2 /\
    match token_answer tm nb with
    | Some d =>
        R = refresh_result (self w2) d /\
        self w3 = Client.with_tokens (Some (Client.tokens_of_response d)) (self w2) /\
        cblog w3 = (cblog w2 ++ [Client.tokens_of_response d])%list
    | None => (exists e, R = inl e) /\ self w3 = self w2 /\ cblog w3 = cblog w2
    end.
Proof.
  intros Hp Hkf.
  assert (Hlt : (p < length (promises w2))%nat) by (eapply lookup_lt_Some; exact Hp).
  cbn [run_events fold_left].
  rewrite (step_net_promise w2 tks p id tm kf nb Hp).
  pose proof (oauth_continuation_answer kf _ tm nb w2 Hkf) as Hrun.
  destruct (token_answer tm nb) as [d|].
  - rewrite Hrun. cbn [fst snd promise_of_step].
    erewrite step_wake_promise_callback
      by (cbn [promises set_promise]; apply list_lookup_insert_eq; exact Hlt).
    exists (refresh_result (self w2) d). unfold refresh_result.
    cbn [self store_tokens log_callback set_self config Client.with_tokens set_promise].
    destruct (onTokenRefresh (config (self w2)) (Client.tokens_of_response d)) as [e|];
      cbn [callback_cont bind run_sync mret prog_ret promise_of_step fst snd];
      eexists; (split; [reflexivity|]); cbn [promises set_promise netlog self cblog];
      (split; [apply list_lookup_insert_eq; rewrite length_insert; exact Hlt|]);
      repeat split.
  - destruct Hrun as [e Hrun]. rewrite Hrun. cbn [fst snd promise_of_step].
    erewrite step_wake_promise_settled
      by (cbn [world promises set_promise]; apply list_lookup_insert_eq; exact Hlt).
    exists (inl e). eexists. split; [reflexivity|].
    cbn [promises set_promise netlog self cblog].
    split; [apply list_lookup_insert_eq; exact Hlt|].
    split; [reflexivity|]. split; [exists e; reflexivity|]. split; reflexivity.
Qed.

(** The callers are resumed: the one that started the refresh clears the
    marker, and all leave with the outcome of the promise. *)
Lemma callers_leave (w3 : World) (p : PromiseId) (R : Exn + StravaTokenResponse)
    (k0 : Exn + StravaTokenResponse -> Prog unit) (ts : list (Task unit)) :
  promises w3 !! p = Some (Settled R) ->
  caller_cont true k0 ->
  Forall (waiting_on p false) ts ->
  run_events (wakes_from 0 (S (length ts))) (mkLoop w3 (Waiting (WPromise p k0) :: ts)) =
    mkLoop (clear_marker w3) (replicate (S (length ts)) (Done (caller_outcome R))).
Proof.
  intros Hp Hk0 Hts.
  change (wakes_from 0 (S (length ts))) with ([Wake (TaskT 0)] ++ wakes_from 1 (length ts))%list.
  rewrite run_events_app. cbn [run_events fold_left].
  pose proof (step_wake_middle [] ts p k0 R w3 Hp) as Hstep.
  cbn [app length] in Hstep. rewrite Hstep, Hk0. cbn [fst snd task_of_step].
  pose proof (waiters_leave p R ts [Done (caller_outcome R)] (clear_marker w3) Hp Hts) as Hrest.
  cbn [app length] in Hrest. exact Hrest.
Qed.

Lemma step_net_promise_settled {A : Type} (l : Loop A) (p : PromiseId)
    (r : Exn + StravaTokenResponse) (b : NetBehaviour) :
  promises (world l) !! p = Some (Settled r) ->
  step (Net (PromiseT p) b) l = l.
Proof. intros Hp. cbn [step]. rewrite Hp. reflexivity. Qed.

Lemma entered_without_token :
  refreshToken t = "" ->
  exists k0 c ts,
    run_events [Call 0 a] (mkLoop w (callers (S (length ats)))) =
      mkLoop (install_marker (length (promises w)) (add_promise (Settled (inl no_refresh_token)) (set_clock a w)))
             (Waiting (WPromise (length (promises w)) k0) :: callers (length ats)) /\
    run_events (calls_from 0 (a :: ats)) (mkLoop w (callers (S (length ats)))) =
      mkLoop (set_clock c
                (install_marker (length (promises w))
                   (add_promise (Settled (inl no_refresh_token)) (set_clock a w))))
             (Waiting (WPromise (length (promises w)) k0) :: ts) /\
    caller_cont true k0 /\
    Forall (waiting_on (length (promises w)) false) ts /\ length ts = length ats.
Proof.
  intros Hrt. apply Forall_cons in Hdue as [Ha Hrest].
  destruct (refreshTokenIfNeeded_starts_without_token (set_clock a w) t) as (k0 & Hrun & Hk0);
    [split; assumption | exact Hmarker | exact Hrt |].
  assert (Hfirst :
    run_events [Call 0 a] (mkLoop w (callers (S (length ats)))) =
      mkLoop (install_marker (length (promises w)) (add_promise (Settled (inl no_refresh_token)) (set_clock a w)))
             (Waiting (WPromise (length (promises w)) k0) :: callers (length ats))).
  { unfold callers. cbn [length replicate run_events fold_left].
    pose proof (step_call_middle [] (replicate (length ats) (Idle Client.refreshTokenIfNeeded))
                  Client.refreshTokenIfNeeded w a) as Hstep.
    cbn [app length] in Hstep. rewrite Hstep, Hrun. reflexivity. }
  set (w1 := install_marker (length (promises w)) (add_promise (Settled (inl no_refresh_token)) (set_clock a w)))
    in *.
  destruct (later_callers_wait t (length (promises w)) ats [Waiting (WPromise (length (promises w)) k0)] w1)
    as (c & ts & Hafter & Hts & Hlen); [exact Htokens | reflexivity | exact Hrest |].
  exists k0, c, ts.
  split; [exact Hfirst|]. split.
  - change (calls_from 0 (a :: ats)) with ([Call 0 a] ++ calls_from 1 ats)%list.
    rewrite run_events_app, Hfirst. exact Hafter.
  - split; [exact Hk0|]. split; [exact Hts | exact Hlen].
Qed.

End OneRefresh.

Lemma waiting_on_Forall (p : PromiseId) (ts : list (Task unit)) :
  Forall (waiting_on p false) ts ->
  Forall (fun tk => exists k, tk = Waiting (WPromise p k)) ts.
Proof.
  intros H. eapply Forall_impl; [exact H|].
  intros tk (k & Hk & _). exists k. exact Hk.
Qed.

Lemma lookup_new_promise (ps : list PromiseState) (s : PromiseState) :
  (ps ++ [s])%list !! length ps = Some s.
Proof. apply list_lookup_middle. reflexivity. Qed.

(** C1 (as amended).  [n] callers enter [refreshTokenIfNeeded] one after the
    other while the stored tokens are due and no refresh is in flight.  The
    first caller starts one refresh and installs its promise as the marker
    within its first synchronous segment; every other caller awaits that same
    promise and starts nothing.  No call of [fetch] is made after that first
    segment.  Once the promise has settled and the callers have been resumed,
    the marker is cleared and all the callers have ended with one and the
    same outcome, on success as on failure.  When the stored refresh token is
    not empty, the refresh makes exactly one network call; on a successful
    answer the client holds the new triple, otherwise the old one.  When the
    stored refresh token is empty, the refresh fails with the TokenRefresh
    error without any network call, and all the callers fail with it. *)
Theorem one_refresh_for_concurrent_callers (w : World) (t : StravaTokens) (a : Z)
    (ats : list Z) (nb : NetBehaviour) :
  tokens (self w) = Some t ->
  refreshPromise (self w) = None ->
  Forall (fun at_ms => Client.shouldRefresh (self w) t (at_ms / 1000) = true) (a :: ats) ->
  let p := length (promises w) in
  let n := S (length ats) in
  let start := mkLoop w (callers n) in
  let first := run_events [Call 0 a] start in
  let entered := run_events (calls_from 0 (a :: ats)) start in
  let final := run_events (refresh_schedule p (a :: ats) nb) start in
  refreshPromise (self (world first)) = Some p /\
  refreshPromise (self (world entered)) = Some p /\
  Forall (fun tk => exists k, tk = Waiting (WPromise p k)) (tasks entered) /\
  length (tasks entered) = n /\
  netlog (world final) = netlog (world first) /\
  refreshPromise (self (world final)) = None /\
  (exists r, tasks final = replicate n (Done r)) /\
  (refreshToken t <> "" ->
     (exists call, netlog (world final) = (netlog w ++ [call])%list /\
                   url call = "https://www.strava.com/oauth/token") /\
     match token_answer (timeout (config (self w))) nb with
     | Some d =>
         tokens (self (world final)) = Some (Client.tokens_of_response d) /\
         cblog (world final) = (cblog w ++ [Client.tokens_of_response d])%list /\
         tasks final = replicate n (Done (caller_outcome (refresh_result (self w) d)))
     | None =>
         tokens (self (world final)) = Some t /\
         cblog (world final) = cblog w /\
         exists e, tasks final = replicate n (Done (inl e))
     end) /\
  (refreshToken t = "" ->
     netlog (world final) = netlog w /\
     tokens (self (world final)) = Some t /\
     cblog (world final) = cblog w /\
     tasks final = replicate n (Done (inl no_refresh_token))).
Proof.
  intros Htokens Hmarker Hdue. cbv zeta.
  unfold refresh_schedule. rewrite !run_events_app.
  destruct (string_dec (refreshToken t) "") as [Hempty | Hrt].
  - destruct (entered_without_token w t a ats Htokens Hmarker Hdue Hempty)
      as (k0 & c & ts & Hfirst & Hentered & Hk0 & Hts & Hlen).
    cbn [length] in Hfirst, Hentered. rewrite Hfirst, Hentered.
    set (w2 := set_clock c _) in *.
    assert (Hp : promises w2 !! length (promises w) = Some (Settled (inl no_refresh_token))).
    { unfold w2. cbn [promises set_clock install_marker set_self add_promise].
      apply lookup_new_promise. }
    cbn [run_events fold_left].
    rewrite (step_net_promise_settled
               (mkLoop w2 (Waiting (WPromise (length (promises w)) k0) :: ts)) _ _ nb Hp).
    rewrite (step_wake_promise_settled
               (mkLoop w2 (Waiting (WPromise (length (promises w)) k0) :: ts)) _ _ Hp).
    cbn [length]. rewrite <- Hlen.
    pose proof (callers_leave w2 _ _ k0 ts Hp Hk0 Hts) as Hleave.
    rewrite Hleave.
    cbn [world tasks]. rewrite Hlen.
    split; [reflexivity|]. split; [reflexivity|].
    split; [constructor; [exists k0; reflexivity | apply waiting_on_Forall; exact Hts]|].
    split; [cbn; rewrite Hlen; reflexivity|].
    split; [reflexivity|]. split; [reflexivity|].
    split; [eexists; reflexivity|].
    split; [intros Hne; contradiction|].
    intros _. split; [reflexivity|]. split; [exact Htokens|]. split; reflexivity.
  - destruct (entered_with_token w t a ats Htokens Hmarker Hdue Hrt)
      as (k0 & kf & call & c & ts & Hfirst & Hentered & Hk0 & Hts & Hlen & Hurl & Hkf).
    cbn [length] in Hfirst, Hentered. rewrite Hfirst, Hentered.
    set (w2 := set_clock c _) in *.
    assert (Hp : promises w2 !! length (promises w) =
                 Some (Pending (WFetch (length (netlog w)) (timeout (config (self w))) kf))).
    { unfold w2. cbn [promises set_clock install_marker set_self add_promise log_fetch].
      apply lookup_new_promise. }
    destruct (refresh_settles nb w2 (Waiting (WPromise (length (promises w)) k0) :: ts)
                _ _ _ kf Hp Hkf) as (R & w3 & Hsettle & Hp3 & Hnet3 & Hcase).
    rewrite Hsettle.
    cbn [length]. rewrite <- Hlen.
    rewrite (callers_leave w3 _ R k0 ts Hp3 Hk0 Hts).
    cbn [world tasks]. rewrite Hlen.
    split; [reflexivity|]. split; [reflexivity|].
    split; [constructor; [exists k0; reflexivity | apply waiting_on_Forall; exact Hts]|].
    split; [cbn; rewrite Hlen; reflexivity|].
    split; [cbn [clear_marker set_self netlog]; rewrite Hnet3; reflexivity|].
    split; [reflexivity|].
    split; [eexists; reflexivity|].
    split; [|intros He; contradiction].
    intros _. split.
    + exists call. split; [|exact Hurl].
      cbn [clear_marker set_self netlog]. rewrite Hnet3. reflexivity.
    + destruct (token_answer (timeout (config (self w))) nb) as [d|].
      * destruct Hcase as (HR & Hself & Hcb).
        cbn [clear_marker set_self self cblog Client.with_refreshPromise tokens].
        rewrite Hself, Hcb, HR. repeat split.
      * destruct Hcase as ((e & HR) & Hself & Hcb).
        cbn [clear_marker set_self self cblog Client.with_refreshPromise tokens].
        rewrite Hself, Hcb, HR.
        split; [exact Htokens|]. split; [reflexivity|]. exists e. reflexivity.
Qed.

Lemma one_refresh_for_concurrent_callers_witness :
  tasks (run_events (refresh_schedule 0%nat five_calls token_endpoint_answer)
           (mkLoop expiring_world (callers 5%nat))) = replicate 5%nat (Done (inr tt)) /\
  refreshPromise (self (world (run_events (refresh_schedule 0%nat five_calls token_endpoint_answer)
                                 (mkLoop expiring_world (callers 5%nat))))) = None /\
  tokens (self (world (run_events (refresh_schedule 0%nat five_calls token_endpoint_answer)
                         (mkLoop expiring_world (callers 5%nat))))) =
    Some (mkTokens "new-access" "new-refresh" 1700003600) /\
  exists call,
    netlog (world (run_events (refresh_schedule 0%nat five_calls token_endpoint_answer)
                     (mkLoop expiring_world (callers 5%nat)))) = [call].
Proof.
  pose proof (one_refresh_for_concurrent_callers expiring_world expiring_tokens test_instant
                [test_instant; test_instant; test_instant; test_instant]
                token_endpoint_answer eq_refl eq_refl) as H.
  cbv zeta in H.
  destruct H as (_ & _ & _ & _ & _ & Hmarker & _ & Hwith & _);
    [repeat constructor|].
  destruct Hwith as ((call & Hnet & _) & Hcase); [discriminate|].
  change (token_answer (timeout (config (self expiring_world))) token_endpoint_answer)
    with (Some new_token_response) in Hcase.
  destruct Hcase as (Htok & _ & Htasks).
  split; [exact Htasks|]. split; [exact Hmarker|]. split; [exact Htok|].
  exists call. exact Hnet.
Defined.

(** C1 as stated fails on [access_only_world]: three callers enter while the
    tokens are due, and no refresh network call occurs at all, where C1 has
    exactly one; the refresh fails before it reaches the network and the
    callers all fail with its error. *)
Lemma no_network_call_without_refresh_token :
  Client.shouldRefresh (self access_only_world) access_only_tokens (test_instant / 1000) = true /\
  netlog (world (run_events
                   (refresh_schedule 0%nat [test_instant; test_instant; test_instant]
                      token_endpoint_answer)
                   (mkLoop access_only_world (callers 3%nat)))) = [] /\
  tasks (run_events
           (refresh_schedule 0%nat [test_instant; test_instant; test_instant]
              token_endpoint_answer)
           (mkLoop access_only_world (callers 3%nat))) =
    replicate 3%nat (Done (inl no_refresh_token)).
Proof. vm_compute. repeat split. Qed.

(** ** Further properties of the classifier *)

(** X1.  Whatever the response, the error made from it keeps the response's status
    as its status code and has a message that is not empty; it is never a
    Network or a TokenRefresh error, and only the RateLimit error carries
    throttling data. *)
Theorem parseStravaError_keeps_status (r : StravaErrorResponse) :
  let e := parseStravaError (InResponse r) in
  statusCode e = Some (status r) /\
  message e <> "" /\
  class e <> Network /\ class e <> TokenRefresh /\
  (status r <> 429 -> retryAfter e = None /\ limit e = None /\ usage e = None).
Proof.
  cbv zeta. unfold parseStravaError. rewrite derived_message_or_else.
  assert (Hm : derived_message r <> "").
  { unfold derived_message, status_message.
    destruct (data r) as [d|]; [|discriminate].
    destruct (data_message d) as [s|]; [|discriminate].
    destruct (decide (s = "")); [discriminate | assumption]. }
  rewrite Z.geb_leb.
  repeat match goal with
         | |- context [?a =? ?b] => destruct (Z.eqb_spec a b)
         | |- context [?a <=? ?b] => destruct (Z.leb_spec a b)
         end; simpl.
  all: repeat match goal with |- _ /\ _ => split end;
    try congruence; try discriminate; try (intros; repeat split; congruence).
  all: destruct (context r) as [[|c v]|]; simpl; try assumption; discriminate.
Qed.

(** ** Further properties of the webhook parser *)

(** X2.  The parser accepts exactly the well-formed payloads, and hands back the
    payload it was given: whatever it returns is its argument, and that
    argument has all the required fields with the right types and values. *)
Theorem parseWebhookEvent_accepts_only_well_formed (payload v : value) :
  Webhook.parseWebhookEvent payload = inr v <->
  v = payload /\ well_formed_event payload = true.
Proof.
  assert (Hcases : payload = VNull \/ payload = VUndefined \/
                   (payload <> VNull /\ payload <> VUndefined)).
  { destruct payload; auto; right; right; split; discriminate. }
  destruct Hcases as [-> | [-> | [Hn Hu]]];
    [split; [discriminate | intros [_ H]; discriminate] ..|].
  rewrite (parseWebhookEvent_defined payload Hn Hu).
  destruct (well_formed_event payload); split.
  - intros H. injection H as <-. split; reflexivity.
  - intros [-> _]. reflexivity.
  - discriminate.
  - intros [_ H]. discriminate.
Qed.

Lemma parseWebhookEvent_accepts_only_well_formed_witness :
  Webhook.parseWebhookEvent activity_created = inr activity_created.
Proof.
  apply (parseWebhookEvent_accepts_only_well_formed activity_created activity_created).
  split; reflexivity.
Defined.

(** ** Further properties of the token accessors *)

(** X3.  The later revision of [getTokens] returns a new object each time: the
    reference it returns is not the stored one, and a write through it
    changes neither the stored tokens nor what later calls return. *)
Theorem getTokens_copy_returns_fresh_object (s : TokenStore.State) (obj : TokenStore.loc)
    (x : StravaTokens) (v : string) :
  TokenStore.this_tokens s = Some obj ->
  TokenStore.heap s !! obj = Some x ->
  exists r,
    fst (TokenStore.getTokens_copy s) = Some r /\ r <> obj /\
    TokenStore.heap s !! r = None /\
    let s' := TokenStore.write_accessToken r v (snd (TokenStore.getTokens_copy s)) in
    TokenStore.this_tokens s' = Some obj /\
    TokenStore.heap s' !! obj = Some x /\
    TokenStore.read_tokens TokenStore.getTokens_copy s' = Some x.
Proof.
  intros Hthis H. unfold TokenStore.getTokens_copy, TokenStore.read_tokens.
  rewrite Hthis, H. cbn [TokenStore.alloc fst snd].
  set (l := TokenStore.fresh_loc (TokenStore.heap s)).
  assert (Hfresh : TokenStore.heap s !! l = None).
  { apply not_elem_of_dom. unfold l, TokenStore.fresh_loc, TokenStore.loc.
    apply (is_fresh (dom (TokenStore.heap s))). }
  assert (Hne : l <> obj) by (intros ->; congruence).
  exists l. split; [reflexivity|]. split; [exact Hne|]. split; [exact Hfresh|].
  cbv zeta. unfold TokenStore.write_accessToken.
  cbn [TokenStore.this_tokens TokenStore.heap].
  rewrite Hthis.
  rewrite lookup_alter_ne by exact Hne.
  rewrite lookup_insert_ne by exact Hne. rewrite H.
  split; [reflexivity|]. split; [reflexivity|].
  unfold TokenStore.alloc, TokenStore.deref. simpl. apply lookup_insert_eq.
Qed.

Lemma getTokens_copy_returns_fresh_object_witness :
  exists r,
    fst (TokenStore.getTokens_copy after_setTokens) = Some r /\ r <> 0%nat /\
    TokenStore.heap after_setTokens !! r = None /\
    let s' := TokenStore.write_accessToken r "mutated-token"
                (snd (TokenStore.getTokens_copy after_setTokens)) in
    TokenStore.this_tokens s' = Some 0%nat /\
    TokenStore.heap s' !! 0%nat = Some original_tokens /\
    TokenStore.read_tokens TokenStore.getTokens_copy s' = Some original_tokens.
Proof.
  apply (getTokens_copy_returns_fresh_object after_setTokens 0%nat original_tokens
           "mutated-token"); reflexivity.
Defined.

(** ** The refresh guard when no refresh is due *)

(** X5.  A call of the refresh guard on a client without tokens, or whose tokens
    expire no sooner than the buffer from now, returns in its first segment:
    no call of [fetch], no promise, no callback, nothing of the client
    changed. *)
Theorem refreshTokenIfNeeded_returns_at_once (w : World) (at_ms : Z) :
  (tokens (self w) = None \/
   exists t, tokens (self w) = Some t /\
             at_ms / 1000 + refreshBuffer (config (self w)) <= expiresAt t) ->
  run_events [Call 0 at_ms] (mkLoop w [Idle Client.refreshTokenIfNeeded]) =
    mkLoop (set_clock at_ms w) [Done (inr tt)].
Proof.
  intros H. cbn [run_events fold_left step tasks world lookup list_lookup].
  unfold continue_task. cbn [world tasks].
  rewrite refreshTokenIfNeeded_not_due; [reflexivity|].
  destruct H as [Hn | (t & Ht & Hle)]; [left; exact Hn|].
  right. exists t. split; [exact Ht|].
  unfold Client.shouldRefresh. apply Z.ltb_ge. cbn [set_clock clock self]. lia.
Qed.

Lemma refreshTokenIfNeeded_returns_at_once_witness :
  run_events [Call 0 test_instant]
    (mkLoop (empty_world five_second_client) [Idle Client.refreshTokenIfNeeded]) =
    mkLoop (set_clock test_instant (empty_world five_second_client)) [Done (inr tt)].
Proof.
  apply (refreshTokenIfNeeded_returns_at_once (empty_world five_second_client) test_instant).
  right. exists (mkTokens "valid-token" "refresh-token" 1700003600).
  split; [reflexivity|]. vm_compute. discriminate.
Defined.

(** ** The timer of [fetchWithTimeout] *)

(** X6.  [fetchWithTimeout] makes one call of [fetch], whose timer is the per-call
    override when there is one and the configured timeout otherwise; an
    answer (or a failure) that does not come before the timer, or none at
    all, ends the call with the timed-out Network error, and leaves the
    client as it was. *)
Theorem fetchWithTimeout_timer {T : Type} (u : string) (options : Client.FetchOptions T)
    (w : World) (at_ms : Z) (nb : NetBehaviour) :
  let tm := default (timeout (config (self w))) (Client.fo_timeout options) in
  let called := run_events [Call 0 at_ms]
                  (mkLoop w [Idle (Client.fetchWithTimeout u options)]) in
  let l := run_events [Call 0 at_ms; Net (TaskT 0) nb]
             (mkLoop w [Idle (Client.fetchWithTimeout u options)]) in
  netlog (world called) =
    (netlog w ++ [mkFetchCall u (Client.fo_method options) (Client.fo_headers options)
                    (Client.fo_body options) tm])%list /\
  (match nb with
   | Responds latency _ | Fails latency _ => tm <= latency
   | Hangs => True
   end ->
   tasks l = [Done (inl timed_out)] /\
   self (world l) = self w /\
   netlog (world l) = netlog (world called)).
Proof.
  cbv zeta.
  cbn [run_events fold_left step tasks world lookup list_lookup].
  unfold continue_task. cbn [world tasks].
  destruct (fetchWithTimeout_arms_timeout u options (set_clock at_ms w)) as (k & Hseg & Hk).
  rewrite Hseg.
  cbn [task_of_step tasks world insert list_insert lookup list_lookup net_blocked].
  cbn [self set_clock config log_fetch netlog].
  split; [reflexivity|].
  intros Hlate. apply settle_late in Hlate. rewrite Hlate, Hk.
  cbn [task_of_step tasks world insert list_insert log_fetch netlog self set_clock].
  split; [reflexivity|]. split; reflexivity.
Qed.

Lemma fetchWithTimeout_timer_witness :
  tasks (run_events [Call 0 test_instant; Net (TaskT 0) slow_answer]
           (mkLoop (empty_world five_second_client)
              [Idle (Client.requestRaw json_value GET "https://www.strava.com/api/v3/athlete"
                       (Client.mkRawOptions None None None None false))])) =
    [Done (inl timed_out)].
Proof.
  refine (proj1 (proj2 (fetchWithTimeout_timer "https://www.strava.com/api/v3/athlete"
           (Client.mkFetchOptions GET None None (Client.json json_value) None false None)
           (empty_world five_second_client) test_instant slow_answer) _)).
  vm_compute. discriminate.
Defined.

(** ** The authorization URL and the query string *)

Section Urls.
Import Client.

Lemma append_assoc (a b c : string) : (a +:+ b) +:+ c = a +:+ (b +:+ c).
Proof.
  induction a as [|x a IH]; [reflexivity|].
  change (String x ((a +:+ b) +:+ c) = String x (a +:+ (b +:+ c))).
  rewrite IH. reflexivity.
Qed.

Lemma append_nonempty (a b : string) : b <> "" -> a +:+ b <> "".
Proof. destruct a; simpl; [tauto | discriminate]. Qed.

Lemma join_snoc (sep : string) (l : list string) (x : string) :
  l <> [] -> join sep (l ++ [x]) = join sep l +:+ sep +:+ x.
Proof.
  induction l as [|a l IH]; [congruence|]. intros _.
  destruct l as [|b l]; [reflexivity|].
  change (join sep ((a :: b :: l) ++ [x])) with (a +:+ sep +:+ join sep ((b :: l) ++ [x])).
  rewrite IH by discriminate.
  change (join sep (a :: b :: l)) with (a +:+ sep +:+ join sep (b :: l)).
  rewrite !append_assoc. reflexivity.
Qed.

Lemma join_cons_nonempty (sep x : string) (l : list string) :
  x <> "" -> join sep (x :: l) <> "".
Proof.
  intros Hx. destruct l as [|y l]; [exact Hx|].
  change (join sep (x :: y :: l)) with (x +:+ (sep +:+ join sep (y :: l))).
  destruct x; [congruence | discriminate].
Qed.

Lemma URLSearchParams_toString_nonempty (kv : string * string) (ps : list (string * string)) :
  URLSearchParams_toString (kv :: ps) <> "".
Proof.
  unfold URLSearchParams_toString. cbn [map]. apply join_cons_nonempty.
  apply append_nonempty. discriminate.
Qed.

Lemma URLSearchParams_toString_snoc (ps : list (string * string)) (k v : string) :
  ps <> [] ->
  URLSearchParams_toString (ps ++ [(k, v)]) =
    URLSearchParams_toString ps +:+ "&" +:+ urlencode k +:+ "=" +:+ urlencode v.
Proof.
  intros Hne. unfold URLSearchParams_toString. rewrite map_app. cbn [map fst snd].
  rewrite join_snoc; [reflexivity|]. destruct ps; [congruence | discriminate].
Qed.

End Urls.

(** X7.  [getAuthorizationUrl] fails with the Validation error when the client
    has no redirect URI, and reads nothing else in that case.  Otherwise it
    returns the authorize URL with the five parameters in a fixed order, each
    value form-encoded; a state that is not empty adds [&state=], encoded, at
    the end and changes nothing before it, and an empty state adds nothing.
    The client is never changed. *)
Theorem getAuthorizationUrl_shape (w : World) (scope : option string)
    (prompt : option Client.ApprovalPrompt) :
  let c := config (self w) in
  let without_state :=
    "https://www.strava.com/oauth/authorize?client_id=" +:+ Client.urlencode (clientId c)
      +:+ "&redirect_uri=" +:+ Client.urlencode (redirectUri c)
      +:+ "&response_type=code&approval_prompt="
      +:+ Client.String_of_prompt (default Client.PromptAuto prompt)
      +:+ "&scope=" +:+ Client.urlencode (default "activity:read_all" scope) in
  (redirectUri c = "" ->
   forall options,
     run_sync (Client.getAuthorizationUrl scope options) w =
       (Finished (inl (ExStrava (StravaValidationError
                          (Some "Redirect URI is required for OAuth flow")))), w)) /\
  (redirectUri c <> "" ->
   run_sync (Client.getAuthorizationUrl scope (Some (Client.mkUrlOptions None prompt))) w =
     (Finished (inr without_state), w) /\
   run_sync (Client.getAuthorizationUrl scope (Some (Client.mkUrlOptions (Some "") prompt))) w =
     (Finished (inr without_state), w) /\
   forall st, st <> "" ->
     run_sync (Client.getAuthorizationUrl scope (Some (Client.mkUrlOptions (Some st) prompt))) w =
       (Finished (inr (without_state +:+ "&state=" +:+ Client.urlencode st)), w)).
Proof.
  cbv zeta. split.
  - intros Hno options. unfold Client.getAuthorizationUrl. seg. rewrite Hno. reflexivity.
  - intros Hre. apply truthy_true in Hre.
    assert (Hurl :
      Client.STRAVA_OAUTH_BASE_URL +:+ "/authorize?" +:+
        Client.URLSearchParams_toString
          [("client_id", clientId (config (self w)));
           ("redirect_uri", redirectUri (config (self w)));
           ("response_type", "code");
           ("approval_prompt", Client.String_of_prompt (default Client.PromptAuto prompt));
           ("scope", default "activity:read_all" scope)] =
      "https://www.strava.com/oauth/authorize?client_id=" +:+
        Client.urlencode (clientId (config (self w)))
        +:+ "&redirect_uri=" +:+ Client.urlencode (redirectUri (config (self w)))
        +:+ "&response_type=code&approval_prompt="
        +:+ Client.String_of_prompt (default Client.PromptAuto prompt)
        +:+ "&scope=" +:+ Client.urlencode (default "activity:read_all" scope)).
    { unfold Client.URLSearchParams_toString. cbn [map Client.join fst snd].
      change (Client.urlencode "client_id") with "client_id".
      change (Client.urlencode "redirect_uri") with "redirect_uri".
      change (Client.urlencode "response_type") with "response_type".
      change (Client.urlencode "code") with "code".
      change (Client.urlencode "approval_prompt") with "approval_prompt".
      change (Client.urlencode "scope") with "scope".
      assert (Hp : Client.urlencode
                     (Client.String_of_prompt (default Client.PromptAuto prompt)) =
                   Client.String_of_prompt (default Client.PromptAuto prompt))
        by (destruct prompt as [[|]|]; reflexivity).
      rewrite Hp. unfold Client.STRAVA_OAUTH_BASE_URL.
      repeat rewrite append_assoc. reflexivity. }
    split; [|split]; [| |intros st Hst; apply truthy_true in Hst];
      unfold Client.getAuthorizationUrl; seg; rewrite Hre;
      cbn [negb mbind option_bind Client.uo_state Client.uo_approvalPrompt truthy_opt truthy
           default];
      rewrite ?Hst; seg.
    + rewrite <- Hurl. reflexivity.
    + rewrite <- Hurl. reflexivity.
    + rewrite URLSearchParams_toString_snoc by discriminate.
      rewrite <- Hurl. change (Client.urlencode "state") with "state".
      repeat rewrite append_assoc. reflexivity.
Qed.

Lemma getAuthorizationUrl_shape_witness :
  run_sync (Client.getAuthorizationUrl (Some "read,activity:write")
              (Some (Client.mkUrlOptions (Some "my-state-123") None))) example_world =
    (Finished (inr ("https://www.strava.com/oauth/authorize?client_id=test-client-id" +:+
                    "&redirect_uri=http%3A%2F%2Flocalhost%3A3000%2Fcallback" +:+
                    "&response_type=code&approval_prompt=auto" +:+
                    "&scope=read%2Cactivity%3Awrite&state=my-state-123")),
     example_world) /\
  run_sync (Client.getAuthorizationUrl None None) (empty_world five_second_client) =
    (Finished (inl (ExStrava (StravaValidationError
                       (Some "Redirect URI is required for OAuth flow")))),
     empty_world five_second_client).
Proof.
  split.
  - destruct (getAuthorizationUrl_shape example_world (Some "read,activity:write") None)
      as [_ H].
    destruct H as (_ & _ & H); [discriminate|].
    rewrite (H "my-state-123") by discriminate. reflexivity.
  - apply (proj1 (getAuthorizationUrl_shape (empty_world five_second_client) None None)).
    reflexivity.
Defined.

(** X8.  The URL that [request] builds: parameters whose value is [undefined]
    leave no trace in it, wherever they stand; when no parameter has a value
    the URL is the base URL and the path with no question mark; otherwise a
    question mark and a query string that is not empty follow. *)
Theorem build_url_skips_undefined (baseUrl path : string)
    (ps qs : list (string * option Client.ParamValue)) (k : string) :
  Client.build_url baseUrl path (Some (ps ++ (k, None) :: qs)%list) =
    Client.build_url baseUrl path (Some (ps ++ qs)%list) /\
  (Forall (fun kv => snd kv = None) ps ->
   Client.build_url baseUrl path (Some ps) = baseUrl +:+ path) /\
  (Exists (fun kv => snd kv <> None) ps ->
   Client.URLSearchParams_toString (Client.defined_params ps) <> "" /\
   Client.build_url baseUrl path (Some ps) =
     baseUrl +:+ path +:+ "?" +:+ Client.URLSearchParams_toString (Client.defined_params ps)).
Proof.
  split; [|split].
  - unfold Client.build_url, Client.defined_params. rewrite !omap_app. reflexivity.
  - intros Hall. unfold Client.build_url.
    assert (Client.defined_params ps = []) as ->; [|reflexivity].
    induction Hall as [|[k' v] l Hv _ IH]; [reflexivity|].
    simpl in Hv. subst v. exact IH.
  - intros Hex. unfold Client.build_url.
    assert (Hne : Client.URLSearchParams_toString (Client.defined_params ps) <> "").
    { induction Hex as [[k' v] l Hv | [k' v] l _ IH].
      - simpl in Hv. destruct v as [v|]; [|congruence].
        apply URLSearchParams_toString_nonempty.
      - destruct v as [v|]; [apply URLSearchParams_toString_nonempty | exact IH]. }
    split; [exact Hne|].
    apply truthy_true in Hne. rewrite Hne. rewrite append_assoc. reflexivity.
Qed.

Lemma build_url_skips_undefined_witness :
  Client.build_url Client.STRAVA_API_BASE_URL "/athlete/activities"
    (Some [("before", None); ("after", None)]) =
    "https://www.strava.com/api/v3/athlete/activities" /\
  Client.build_url Client.STRAVA_API_BASE_URL "/athlete/activities"
    (Some [("before", None); ("page", Some (Client.PNumber 2));
           ("per_page", Some (Client.PNumber 30))]) =
    "https://www.strava.com/api/v3/athlete/activities?page=2&per_page=30".
Proof.
  split.
  - apply (proj1 (proj2 (build_url_skips_undefined Client.STRAVA_API_BASE_URL
             "/athlete/activities" [("before", None); ("after", None)] [] "k"))).
    repeat constructor.
  - destruct (proj2 (proj2 (build_url_skips_undefined Client.STRAVA_API_BASE_URL
             "/athlete/activities"
             [("before", None); ("page", Some (Client.PNumber 2));
              ("per_page", Some (Client.PNumber 30))] [] "k"))) as [_ H].
    + apply Exists_cons_tl, Exists_cons_hd. discriminate.
    + rewrite H. reflexivity.
Defined.

(** ** The outcome of a request *)

Section RequestOutcome.
Import Client.

Lemma updateRateLimitInfo_returns (h : Headers) (w : World) :
  run_sync (updateRateLimitInfo h) w =
    (Finished (inr tt),
     set_self (with_rateLimitInfo (snapshot_after h (rateLimitInfo (self w))) (self w)) w).
Proof.
  unfold updateRateLimitInfo, snapshot_after.
  assert (Hsame : forall w : World, set_self (with_rateLimitInfo (rateLimitInfo (self w)) (self w)) w = w)
    by (intros [[? ? ? ?] ? ? ? ?]; reflexivity).
  destruct (Headers_get h "x-ratelimit-limit") as [l|];
    destruct (Headers_get h "x-ratelimit-usage") as [u|]; rewrite ?Hsame; try reflexivity.
  destruct l as [|c l]; [simpl; rewrite Hsame; reflexivity|].
  destruct u as [|c' u]; [simpl; rewrite Hsame; reflexivity|].
  simpl truthy. cbn [andb]. seg.
  destruct (decide (String c l = "" \/ String c' u = "")) as [[H|H]|_];
    [discriminate H | discriminate H | reflexivity].
Qed.

Lemma on_fetch_error_cases {A : Type} (e : JS.Error) (w : World) :
  run_sync (on_fetch_error (ExNative e) : Prog A) w =
    (Finished (inl (if String.eqb (name e) "AbortError" then timed_out
                    else match ctor e with
                         | TypeErrorC =>
                             if includes (emessage e) "fetch" then unreachable else ExNative e
                         | _ => ExNative e
                         end)), w).
Proof.
  unfold on_fetch_error. destruct (String.eqb (name e) "AbortError"); [reflexivity|].
  destruct (ctor e); try reflexivity.
  destruct (includes (emessage e) "fetch"); reflexivity.
Qed.

Lemma refresh_guard_skipped (w : World) (t : StravaTokens) (b : bool) :
  authenticated w t (clock w) ->
  run_sync (if autoRefresh (config (self w)) && bool_decide (is_Some (tokens (self w))) && b
            then refreshTokenIfNeeded else mret tt) w = (Finished (inr tt), w).
Proof.
  intros (Ht & _ & Hquiet).
  destruct (autoRefresh (config (self w)) && bool_decide (is_Some (tokens (self w))) && b)
    eqn:E; [|reflexivity].
  apply refreshTokenIfNeeded_not_due. right. exists t. split; [exact Ht|].
  destruct Hquiet as [Hoff | Hfresh]; [|exact Hfresh].
  rewrite Hoff in E. discriminate.
Qed.

(** The first segment of an authenticated [request] ends at its call of
    [fetch]; the continuation updates the snapshot from any response and
    decides the outcome, and hands a rejection to the shared [catch]. *)
Lemma request_first_segment {T : Type} (read : Body -> option T) (m : Method)
    (path : string) (options : RequestOptions) (w : World) (t : StravaTokens) :
  authenticated w t (clock w) -> rq_skipAuth options = false ->
  exists k,
    run_sync (request read m path options) w =
      (Suspended (WFetch (length (netlog w)) DEFAULT_TIMEOUT k),
       log_fetch
         (mkFetchCall
            (build_url (default STRAVA_API_BASE_URL (rq_baseUrl options)) path
               (rq_params options))
            m
            (Some (({[ "Authorization" := "Bearer " +:+ accessToken t ]} : HeaderRecord) ∪
                   (default ∅ (rq_headers options) ∪ {[ "Content-Type" := "application/json" ]})))
            (rq_body options) DEFAULT_TIMEOUT) w) /\
    (forall e w', run_sync (k (inl e)) w' =
                    run_sync (on_fetch_error (ExNative e) : Prog T) w') /\
    (forall r w', run_sync (k (inr r)) w' =
       (Finished (response_outcome read None r),
        set_self (with_rateLimitInfo (snapshot_after (rheaders r) (rateLimitInfo (self w')))
                    (self w')) w')).
Proof.
  intros Hauth Hskip. pose proof Hauth as (Ht & Hne & _).
  unfold request. seg. rewrite Hskip. cbn [negb].
  rewrite (refresh_guard_skipped w t true Hauth). seg.
  rewrite (getAuthHeaders_token w t Ht Hne). seg.
  unfold fetch. seg. rewrite run_sync_await_fetch.
  cbn [bind_blocked catch_blocked timer].
  eexists. split; [reflexivity|]. split.
  - intros e w'. seg. reflexivity.
  - intros r w'. seg. rewrite updateRateLimitInfo_returns.
    unfold response_outcome. destruct (ok r); cbn [negb].
    + unfold json. destruct (read (body r)); reflexivity.
    + reflexivity.
Qed.

(** The run of one authenticated request against an answering network. *)
Lemma request_run_eq {T : Type} (read : Body -> option T) (m : Method)
    (path : string) (options : RequestOptions) (w : World) (t : StravaTokens)
    (at_ms : Z) (nb : NetBehaviour) :
  authenticated w t at_ms -> rq_skipAuth options = false ->
  exists k,
    request_run read m path options w at_ms nb =
      continue_task 0 (k (settle DEFAULT_TIMEOUT nb))
        (mkLoop
           (log_fetch
              (mkFetchCall
                 (build_url (default STRAVA_API_BASE_URL (rq_baseUrl options)) path
                    (rq_params options))
                 m
                 (Some (({[ "Authorization" := "Bearer " +:+ accessToken t ]} : HeaderRecord) ∪
                        (default ∅ (rq_headers options) ∪
                         {[ "Content-Type" := "application/json" ]})))
                 (rq_body options) DEFAULT_TIMEOUT) (set_clock at_ms w))
           [Waiting (WFetch (length (netlog w)) DEFAULT_TIMEOUT k)]) /\
    (forall e w', run_sync (k (inl e)) w' =
                    run_sync (on_fetch_error (ExNative e) : Prog T) w') /\
    (forall r w', run_sync (k (inr r)) w' =
       (Finished (response_outcome read None r),
        set_self (with_rateLimitInfo (snapshot_after (rheaders r) (rateLimitInfo (self w')))
                    (self w')) w')).
Proof.
  intros Hauth Hskip.
  destruct (request_first_segment read m path options (set_clock at_ms w) t Hauth Hskip)
    as (k & Hseg & Herr & Hresp).
  exists k. split; [|split; assumption].
  match goal with |- _ = ?rhs => set (R := rhs) end.
  unfold request_run. cbn [run_events fold_left step tasks world lookup list_lookup].
  unfold continue_task. cbn [world tasks]. rewrite Hseg.
  cbn [task_of_step tasks world insert list_insert lookup list_lookup net_blocked].
  reflexivity.
Qed.

End RequestOutcome.

(** X9.  The call that an authenticated [request] makes carries the stored access
    token, whatever headers the caller passed: a caller's [Authorization]
    header is overwritten, a caller's [Content-Type] replaces the default
    one, and every other header is the caller's.  The URL, the method and
    the body are those asked for, and nothing of the client has changed when
    the call goes out. *)
Theorem request_sends_stored_token {T : Type} (read : Body -> option T) (m : Method)
    (path : string) (options : Client.RequestOptions) (w : World) (t : StravaTokens)
    (at_ms : Z) :
  authenticated w t at_ms -> Client.rq_skipAuth options = false ->
  let l := run_events [Call 0 at_ms] (mkLoop w [Idle (Client.request read m path options)]) in
  self (world l) = self w /\
  exists call h,
    netlog (world l) = (netlog w ++ [call])%list /\
    method call = m /\ req_body call = Client.rq_body options /\
    url call = Client.build_url (default Client.STRAVA_API_BASE_URL (Client.rq_baseUrl options))
                 path (Client.rq_params options) /\
    req_headers call = Some h /\
    h !! "Authorization" = Some ("Bearer " +:+ accessToken t) /\
    h !! "Content-Type" =
      Some (default "application/json" (Client.rq_headers options ≫= (.!! "Content-Type"))) /\
    forall key, key <> "Authorization" -> key <> "Content-Type" ->
      h !! key = Client.rq_headers options ≫= (.!! key).
Proof.
  intros Hauth Hskip. cbv zeta.
  destruct (request_first_segment read m path options (set_clock at_ms w) t Hauth Hskip)
    as (k & Hseg & _).
  cbn [run_events fold_left step tasks world lookup list_lookup].
  unfold continue_task. cbn [world tasks]. rewrite Hseg.
  cbn [world log_fetch self set_clock netlog].
  split; [reflexivity|].
  eexists. eexists. split; [reflexivity|].
  cbn [method req_body url req_headers].
  split; [reflexivity|]. split; [reflexivity|]. split; [reflexivity|].
  split; [reflexivity|].
  unfold HeaderRecord.
  split; [|split].
  - apply lookup_union_Some_l. apply lookup_singleton_eq.
  - rewrite lookup_union_r by (apply lookup_singleton_ne; discriminate).
    destruct (Client.rq_headers options) as [hs|]; cbn [default mbind option_bind];
      unfold HeaderRecord in *.
    + destruct (hs !! "Content-Type") as [ct|] eqn:E.
      * rewrite (lookup_union_Some_l _ _ _ _ E). reflexivity.
      * rewrite lookup_union_r by exact E. apply lookup_singleton_eq.
    + rewrite lookup_union_r by apply lookup_empty. apply lookup_singleton_eq.
  - intros key Hk1 Hk2.
    rewrite lookup_union_r by (apply lookup_singleton_ne; congruence).
    destruct (Client.rq_headers options) as [hs|]; cbn [default mbind option_bind];
      unfold HeaderRecord in *.
    + destruct (hs !! key) as [v|] eqn:E.
      * rewrite (lookup_union_Some_l _ _ _ _ E). reflexivity.
      * rewrite lookup_union_r by exact E. apply lookup_singleton_ne. congruence.
    + rewrite lookup_union_r by apply lookup_empty. apply lookup_singleton_ne. congruence.
Qed.

Lemma request_sends_stored_token_witness :
  exists call h,
    netlog (world (run_events [Call 0 test_instant]
                     (mkLoop signed_in_world
                        [Idle (Client.request json_value GET "/athlete"
                                 options_with_headers)]))) = [call] /\
    req_headers call = Some h /\
    h !! "Authorization" = Some "Bearer valid-token" /\
    h !! "X-Trace" = Some "abc".
Proof.
  destruct (request_sends_stored_token json_value GET "/athlete" options_with_headers
              signed_in_world (mkTokens "valid-token" "refresh-token" 1700003600)
              test_instant) as (_ & call & h & Hlog & _ & _ & _ & Hh & Hauth & _ & Hother).
  - split; [reflexivity|]. split; [discriminate|]. right. reflexivity.
  - reflexivity.
  - exists call, h. split; [exact Hlog|]. split; [exact Hh|]. split; [exact Hauth|].
    rewrite Hother by discriminate. reflexivity.
Defined.

(** X10.  A response that arrives before the timer always goes through the
    snapshot update, error responses included: the snapshot afterwards is the
    one the response's headers give (the previous one when they give none),
    and nothing else of the client changes.  An error response ends the call
    with the classified error of its status, body message and headers, with
    no context label; a successful one ends it with the body read as JSON,
    or with the [SyntaxError] of a body that is not JSON. *)
Theorem request_response_outcome {T : Type} (read : Body -> option T) (m : Method)
    (path : string) (options : Client.RequestOptions) (w : World) (t : StravaTokens)
    (at_ms : Z) (nb : NetBehaviour) (r : Response) :
  authenticated w t at_ms -> Client.rq_skipAuth options = false ->
  settle Client.DEFAULT_TIMEOUT nb = inr r ->
  let l := request_run read m path options w at_ms nb in
  rateLimitInfo (self (world l)) = snapshot_after (rheaders r) (rateLimitInfo (self w)) /\
  tokens (self (world l)) = tokens (self w) /\
  config (self (world l)) = config (self w) /\
  refreshPromise (self (world l)) = refreshPromise (self w) /\
  length (netlog (world l)) = S (length (netlog w)) /\
  (ok r = false ->
   tasks l = [Done (inl (ExStrava (parseStravaError (InResponse
                (mkErrorResponse (rstatus r) (Some (Client.errorData_of r)) (rheaders r)
                   None)))))]) /\
  (ok r = true -> forall v, read (body r) = Some v -> tasks l = [Done (inr v)]) /\
  (ok r = true -> read (body r) = None -> tasks l = [Done (inl (ExNative Client.SyntaxError))]).
Proof.
  intros Hauth Hskip Hnet. cbv zeta.
  destruct (request_run_eq read m path options w t at_ms nb Hauth Hskip)
    as (k & -> & _ & Hresp).
  unfold continue_task. cbn [world tasks]. rewrite Hnet, Hresp.
  cbn [world tasks task_of_step insert list_insert self log_fetch set_clock set_self netlog
       Client.with_rateLimitInfo rateLimitInfo tokens config refreshPromise].
  split; [reflexivity|]. split; [reflexivity|]. split; [reflexivity|].
  split; [reflexivity|]. split; [rewrite length_app; simpl; lia|].
  unfold response_outcome.
  split; [intros ->; reflexivity|].
  split; [intros -> v ->; reflexivity | intros -> ->; reflexivity].
Qed.

Lemma request_response_outcome_witness :
  let l := request_run json_value GET "/athlete" Client.no_options signed_in_world
             test_instant throttled_answer in
  map (fun e => match e with
                | Done (inl (ExStrava e)) => Some (class e, message e)
                | _ => None
                end) (tasks l) = [Some (RateLimit, "Rate Limit Exceeded")] /\
  rateLimitInfo (self (world l)) =
    Some (mkRateLimitInfo (mkWindow (Some (Int 100)) (Some (Int 100)))
                          (mkWindow (Some (Int 500)) (Some (Int 1000)))).
Proof.
  cbv zeta.
  destruct (request_response_outcome json_value GET "/athlete" Client.no_options
              signed_in_world (mkTokens "valid-token" "refresh-token" 1700003600)
              test_instant throttled_answer
              (mkResponse false 429
                 (list_to_map [("x-ratelimit-limit", "100,1000");
                               ("x-ratelimit-usage", "100,500")])
                 (mkBody "" (Some (mkErrorData (Some "Rate Limit Exceeded"))) None None None)))
    as (Hsnap & _ & _ & _ & _ & Herr & _).
  - split; [reflexivity|]. split; [discriminate|]. right. reflexivity.
  - reflexivity.
  - reflexivity.
  - rewrite Hsnap, (Herr eq_refl). split; vm_compute; reflexivity.
Defined.

(** X11.  When the call of [fetch] is rejected, a request leaves the client as
    it was, snapshot included, and fails: with the timed-out Network error
    when the rejection is the abort of the timer, with the unreachable
    Network error when it is a [TypeError] whose message mentions fetch, and
    with the rejection itself in every other case. *)
Theorem request_transport_failure {T : Type} (read : Body -> option T) (m : Method)
    (path : string) (options : Client.RequestOptions) (w : World) (t : StravaTokens)
    (at_ms : Z) (nb : NetBehaviour) (e : JS.Error) :
  authenticated w t at_ms -> Client.rq_skipAuth options = false ->
  settle Client.DEFAULT_TIMEOUT nb = inl e ->
  let l := request_run read m path options w at_ms nb in
  self (world l) = self w /\
  length (netlog (world l)) = S (length (netlog w)) /\
  (name e = "AbortError" -> tasks l = [Done (inl timed_out)]) /\
  (name e <> "AbortError" -> ctor e = TypeErrorC -> includes (emessage e) "fetch" = true ->
   tasks l = [Done (inl unreachable)]) /\
  (name e <> "AbortError" -> ctor e <> TypeErrorC \/ includes (emessage e) "fetch" = false ->
   tasks l = [Done (inl (ExNative e))]).
Proof.
  intros Hauth Hskip Hnet. cbv zeta.
  destruct (request_run_eq read m path options w t at_ms nb Hauth Hskip)
    as (k & -> & Herr & _).
  unfold continue_task. cbn [world tasks]. rewrite Hnet, Herr, on_fetch_error_cases.
  cbn [world tasks task_of_step insert list_insert self log_fetch set_clock netlog].
  split; [reflexivity|]. split; [rewrite length_app; simpl; lia|].
  split; [intros ->; reflexivity|].
  split.
  - intros Hn -> ->. apply String.eqb_neq in Hn. rewrite Hn. reflexivity.
  - intros Hn Hother. apply String.eqb_neq in Hn. rewrite Hn.
    destruct Hother as [Hc | Hi].
    + destruct (ctor e); try reflexivity. congruence.
    + rewrite Hi. destruct (ctor e); reflexivity.
Qed.

Lemma request_transport_failure_witness :
  tasks (request_run json_value GET "/athlete" Client.no_options signed_in_world
           test_instant unreachable_network) = [Done (inl unreachable)] /\
  tasks (request_run json_value GET "/athlete" Client.no_options signed_in_world
           test_instant Hangs) = [Done (inl timed_out)].
Proof.
  split.
  - refine (proj1 (proj2 (proj2 (proj2 (request_transport_failure json_value GET "/athlete"
              Client.no_options signed_in_world
              (mkTokens "valid-token" "refresh-token" 1700003600) test_instant
              unreachable_network (mkError TypeErrorC "TypeError" "fetch failed") _ _ _)))) _ _ _);
      try reflexivity; try discriminate.
    split; [reflexivity|]. split; [discriminate|]. right. reflexivity.
  - refine (proj1 (proj2 (proj2 (request_transport_failure json_value GET "/athlete"
              Client.no_options signed_in_world
              (mkTokens "valid-token" "refresh-token" 1700003600) test_instant
              Hangs AbortError _ _ _))) _); try reflexivity.
    split; [reflexivity|]. split; [discriminate|]. right. reflexivity.
Defined.

(** ** Revoking access *)

Section Deauthorize.
Import Client.

Lemma refresh_guard_quiet (w : World) (t : StravaTokens) (cond : bool) :
  authenticated w t (clock w) ->
  (cond = true -> autoRefresh (config (self w)) = true) ->
  run_sync (if cond then refreshTokenIfNeeded else mret tt) w = (Finished (inr tt), w).
Proof.
  intros (Ht & _ & Hquiet) Hcond. destruct cond; [|reflexivity].
  apply refreshTokenIfNeeded_not_due. right. exists t. split; [exact Ht|].
  destruct Hquiet as [Hoff | Hfresh]; [|exact Hfresh].
  rewrite Hcond in Hoff by reflexivity. discriminate.
Qed.

(** The first segment of [fetchWithTimeout] ends at its call of [fetch];
    the continuation hands a rejection to the [catch], updates the snapshot
    unless told not to, and then raises the classified error or parses. *)
Lemma fetchWithTimeout_first_segment {T : Type} (u : string) (options : FetchOptions T)
    (w : World) :
  exists k,
    run_sync (fetchWithTimeout u options) w =
      (Suspended (WFetch (length (netlog w))
                    (default (timeout (config (self w))) (fo_timeout options)) k),
       log_fetch (mkFetchCall u (fo_method options) (fo_headers options) (fo_body options)
                    (default (timeout (config (self w))) (fo_timeout options))) w) /\
    (forall e w', run_sync (k (inl e)) w' =
                    run_sync (on_fetch_error (ExNative e) : Prog T) w') /\
    (forall r w', run_sync (k (inr r)) w' =
       let w1 := if fo_skipRateLimit options then w'
                 else set_self (with_rateLimitInfo
                                  (snapshot_after (rheaders r) (rateLimitInfo (self w')))
                                  (self w')) w' in
       if ok r then run_sync (try_catch (fo_parseResponse options r) on_fetch_error) w1
       else (Finished (inl (ExStrava (parseStravaError (InResponse
               (mkErrorResponse (rstatus r) (Some (errorData_of r)) (rheaders r)
                  (fo_context options)))))), w1)).
Proof.
  unfold fetchWithTimeout, fetch. seg. rewrite run_sync_await_fetch.
  cbn [bind_blocked catch_blocked timer].
  eexists. split; [reflexivity|]. split.
  - intros e w'. seg. reflexivity.
  - intros r w'. cbv zeta.
    seg. destruct (fo_skipRateLimit options); cbn [negb]; seg;
      rewrite ?updateRateLimitInfo_returns;
      destruct (ok r); cbn [negb]; seg; reflexivity.
Qed.

Lemma deauthorize_first_segment (w : World) (t : StravaTokens) :
  authenticated w t (clock w) ->
  exists k,
    run_sync deauthorize w =
      (Suspended (WFetch (length (netlog w)) (timeout (config (self w))) k),
       log_fetch (mkFetchCall "https://www.strava.com/oauth/deauthorize" POST
                    (Some {[ "Authorization" := "Bearer " +:+ accessToken t ]}) None
                    (timeout (config (self w)))) w) /\
    (forall e w', exists e', run_sync (k (inl e)) w' = (Finished (inl e'), w')) /\
    (forall r w', run_sync (k (inr r)) w' =
       match response_outcome json_value (Some "Deauthorize") r with
       | inr _ => (Finished (inr tt), set_self (with_tokens None (self w')) w')
       | inl e => (Finished (inl e), w')
       end).
Proof.
  intros Hauth. pose proof Hauth as (Ht & Hne & _).
  unfold deauthorize. seg.
  rewrite (refresh_guard_quiet w t _ Hauth)
    by (intros H; apply andb_prop in H as [H _]; exact H).
  seg. rewrite (getAuthHeaders_token w t Ht Hne). seg.
  unfold requestRaw.
  destruct (fetchWithTimeout_first_segment
              (STRAVA_OAUTH_BASE_URL +:+ "/deauthorize")
              (mkFetchOptions POST
                 (Some ({[ "Authorization" := "Bearer " +:+ accessToken t ]} : HeaderRecord))
                 None (json json_value) (Some "Deauthorize") true None) w)
    as (k & Hseg & Herr & Hresp).
  cbn [ro_headers ro_body ro_parseResponse ro_context ro_skipRateLimit default] in *.
  rewrite Hseg. cbn [bind_blocked fo_timeout default].
  eexists. split; [reflexivity|]. split.
  - intros e w'. rewrite run_sync_bind, Herr, on_fetch_error_cases. eexists. reflexivity.
  - intros r w'. rewrite run_sync_bind, Hresp.
    cbn [fo_skipRateLimit fo_parseResponse fo_context].
    unfold response_outcome. destruct (ok r); [|reflexivity].
    rewrite run_sync_try_catch. unfold json.
    destruct (json_value (body r)); reflexivity.
Qed.

End Deauthorize.

(** The run of [deauthorize], by the network's answer. *)
Lemma deauthorize_run_cases (w : World) (t : StravaTokens)
    (at_ms : Z) (nb : NetBehaviour) :
  authenticated w t at_ms ->
  let l := deauthorize_run w at_ms nb in
  netlog (world l) =
    (netlog w ++ [mkFetchCall "https://www.strava.com/oauth/deauthorize" POST
                    (Some {[ "Authorization" := "Bearer " +:+ accessToken t ]}) None
                    (timeout (config (self w)))])%list /\
  rateLimitInfo (self (world l)) = rateLimitInfo (self w) /\
  config (self (world l)) = config (self w) /\
  (json_success (timeout (config (self w))) nb = true ->
   tasks l = [Done (inr tt)] /\ tokens (self (world l)) = None) /\
  (json_success (timeout (config (self w))) nb = false ->
   tokens (self (world l)) = Some t /\ exists e, tasks l = [Done (inl e)]).
Proof.
  intros Hauth. cbv zeta. pose proof Hauth as (Ht & _).
  destruct (deauthorize_first_segment (set_clock at_ms w) t Hauth)
    as (k & Hseg & Herr & Hresp).
  unfold deauthorize_run. cbn [run_events fold_left step tasks world lookup list_lookup].
  unfold continue_task. cbn [world tasks]. rewrite Hseg.
  cbn [task_of_step tasks world insert list_insert lookup list_lookup net_blocked].
  cbn [self set_clock config]. unfold json_success.
  destruct (settle (timeout (config (self w))) nb) as [e | r].
  - destruct (Herr e (log_fetch
       (mkFetchCall "https://www.strava.com/oauth/deauthorize" POST
          (Some {[ "Authorization" := "Bearer " +:+ accessToken t ]}) None
          (timeout (config (self w)))) (set_clock at_ms w))) as [e' He'].
    cbn [self set_clock config] in He'. rewrite He'.
    cbn. split; [reflexivity|]. split; [reflexivity|]. split; [reflexivity|].
    split; [discriminate|]. intros _. split; [exact Ht | exists e'; reflexivity].
  - rewrite Hresp. unfold response_outcome.
    destruct (ok r); [destruct (json_value (body r)) as [v|]|]; cbn.
    + split; [reflexivity|]. split; [reflexivity|]. split; [reflexivity|].
      split; [intros _; split; reflexivity | discriminate].
    + split; [reflexivity|]. split; [reflexivity|]. split; [reflexivity|].
      split; [discriminate|]. intros _. split; [exact Ht | eexists; reflexivity].
    + split; [reflexivity|]. split; [reflexivity|]. split; [reflexivity|].
      split; [discriminate|]. intros _. split; [exact Ht | eexists; reflexivity].
Qed.

(** X12.  [deauthorize] on a client that holds an access token makes one POST to
    the deauthorize endpoint with that token, under the configured timeout.
    The tokens are cleared exactly when the answer is a success that comes in
    time and whose body is JSON; on every other outcome (error status,
    transport failure, timeout, a success whose body is not JSON) the call
    fails and the tokens stay as they were.  The rate-limit snapshot is never
    touched. *)
Theorem deauthorize_clears_tokens_on_success_only (w : World) (t : StravaTokens)
    (at_ms : Z) (nb : NetBehaviour) :
  authenticated w t at_ms ->
  let l := deauthorize_run w at_ms nb in
  netlog (world l) =
    (netlog w ++ [mkFetchCall "https://www.strava.com/oauth/deauthorize" POST
                    (Some {[ "Authorization" := "Bearer " +:+ accessToken t ]}) None
                    (timeout (config (self w)))])%list /\
  rateLimitInfo (self (world l)) = rateLimitInfo (self w) /\
  config (self (world l)) = config (self w) /\
  (json_success (timeout (config (self w))) nb = true ->
   tasks l = [Done (inr tt)] /\ tokens (self (world l)) = None) /\
  (json_success (timeout (config (self w))) nb = false ->
   tokens (self (world l)) = Some t /\ exists e, tasks l = [Done (inl e)]).
Proof. exact (deauthorize_run_cases w t at_ms nb). Qed.

Lemma deauthorize_clears_tokens_on_success_only_witness :
  tokens (self (world (deauthorize_run signed_in_world test_instant revocation_answer))) = None /\
  tokens (self (world (deauthorize_run signed_in_world test_instant empty_success))) =
    Some (mkTokens "valid-token" "refresh-token" 1700003600).
Proof.
  split.
  - refine (proj2 (proj1 (proj2 (proj2 (proj2 (deauthorize_clears_tokens_on_success_only
              signed_in_world (mkTokens "valid-token" "refresh-token" 1700003600)
              test_instant revocation_answer _)))) _)); [|reflexivity].
    split; [reflexivity|]. split; [discriminate|]. right. reflexivity.
  - refine (proj1 (proj2 (proj2 (proj2 (proj2 (deauthorize_clears_tokens_on_success_only
              signed_in_world (mkTokens "valid-token" "refresh-token" 1700003600)
              test_instant empty_success _)))) _)); [|reflexivity].
    split; [reflexivity|]. split; [discriminate|]. right. reflexivity.
Defined.

(** X13.  [deauthorize] on a client without an access token fails with the
    Validation error before any call of [fetch], and changes nothing. *)
Theorem deauthorize_without_token_fails_before_network (w : World) (at_ms : Z) :
  tokens (self w) = None ->
  run_events [Call 0 at_ms] (mkLoop w [Idle Client.deauthorize]) =
    mkLoop (set_clock at_ms w) [Done (inl no_access_token)].
Proof.
  intros Hn. cbn [run_events fold_left step tasks world lookup list_lookup].
  unfold continue_task. cbn [world tasks].
  unfold Client.deauthorize. seg. cbn [self set_clock]. rewrite Hn.
  rewrite andb_false_r. seg.
  rewrite getAuthHeaders_no_token by (left; exact Hn). reflexivity.
Qed.

Lemma deauthorize_without_token_fails_before_network_witness :
  run_events [Call 0 test_instant] (mkLoop example_world [Idle Client.deauthorize]) =
    mkLoop (set_clock test_instant example_world) [Done (inl no_access_token)].
Proof.
  apply (deauthorize_without_token_fails_before_network example_world test_instant).
  reflexivity.
Defined.

(** ** The end of a token refresh *)

Lemma refresh_run_answer (arg : option string) (w : World) (at_ms : Z) (nb : NetBehaviour)
    (d : StravaTokenResponse) :
  truthy_opt (token_to_refresh arg (self w)) = true ->
  token_answer (timeout (config (self w))) nb = Some d ->
  exists call,
    refresh_run arg w at_ms nb =
      mkLoop (log_callback (Client.tokens_of_response d)
                (store_tokens d (log_fetch call (set_clock at_ms w))))
        [Waiting (WCallback (onTokenRefresh (config (self w)) (Client.tokens_of_response d))
                    (callback_cont d))].
Proof.
  intros Htok Hans. unfold refresh_run, run_events.
  cbn [fold_left step tasks world lookup list_lookup].
  unfold continue_task. cbn [world tasks].
  destruct (refresh_first_segment arg (set_clock at_ms w) Htok)
    as (k & call & Hseg & Hurl & Hk).
  rewrite Hseg. cbn [task_of_step tasks world insert list_insert lookup list_lookup net_blocked].
  cbn [self set_clock config].
  pose proof (oauth_continuation_answer k _ (timeout (config (self w))) nb
                (log_fetch call (set_clock at_ms w)) Hk) as Hrun.
  rewrite Hans in Hrun. rewrite Hrun. exists call. reflexivity.
Qed.

(** X14.  Once the token endpoint has answered with a token response,
    [refreshAccessToken] stores the new triple and then invokes the callback
    with it, once.  If the callback fails, the call fails with the callback's
    error, and the new triple stays stored; if it returns, the call returns
    the token response. *)
Theorem refreshAccessToken_stores_before_callback (arg : option string) (w : World)
    (at_ms : Z) (nb : NetBehaviour) (d : StravaTokenResponse) :
  truthy_opt (token_to_refresh arg (self w)) = true ->
  token_answer (timeout (config (self w))) nb = Some d ->
  let l := refresh_to_end arg w at_ms nb in
  tokens (self (world l)) = Some (mkTokens (access_token d) (refresh_token d) (expires_at d)) /\
  cblog (world l) =
    (cblog w ++ [mkTokens (access_token d) (refresh_token d) (expires_at d)])%list /\
  (forall e, onTokenRefresh (config (self w))
               (mkTokens (access_token d) (refresh_token d) (expires_at d)) = Some e ->
     tasks l = [Done (inl e)]) /\
  (onTokenRefresh (config (self w))
     (mkTokens (access_token d) (refresh_token d) (expires_at d)) = None ->
   tasks l = [Done (inr d)]).
Proof.
  intros Htok Hans. cbv zeta.
  destruct (refresh_run_answer arg w at_ms nb d Htok Hans) as [call Hrun].
  change (refresh_to_end arg w at_ms nb)
    with (step (Wake (TaskT 0)) (refresh_run arg w at_ms nb)).
  rewrite Hrun.
  cbn [step tasks world lookup list_lookup wake_blocked].
  unfold continue_task. cbn [world tasks]. unfold Client.tokens_of_response.
  destruct (onTokenRefresh (config (self w))
              (mkTokens (access_token d) (refresh_token d) (expires_at d))) as [e|];
    cbn; (split; [reflexivity|]); (split; [reflexivity|]); split; try discriminate;
    try (intros; reflexivity).
  intros e' He'. injection He' as <-. reflexivity.
Qed.

Lemma refreshAccessToken_stores_before_callback_witness :
  let l := refresh_to_end None failing_callback_world test_instant token_endpoint_answer in
  tasks l = [Done (inl store_down)] /\
  tokens (self (world l)) = Some (mkTokens "new-access" "new-refresh" 1700003600).
Proof.
  cbv zeta.
  destruct (refreshAccessToken_stores_before_callback None failing_callback_world
              test_instant token_endpoint_answer new_token_response eq_refl eq_refl)
    as (Ht & _ & Hfail & _).
  split; [exact (Hfail store_down eq_refl) | exact Ht].
Defined.

(** X15.  The refresh token that [refreshAccessToken] sends is its argument when
    that is given and not empty, whatever the client holds (also nothing),
    and the stored refresh token otherwise.  In both cases the call is one
    POST of the refresh grant to the token endpoint, under the configured
    timeout, with the client's id and secret. *)
Theorem refreshAccessToken_sends_argument_first (arg : option string) (w : World)
    (at_ms : Z) (tk : string) :
  tk <> "" ->
  arg = Some tk \/
  ((arg = None \/ arg = Some "") /\ exists t, tokens (self w) = Some t /\ refreshToken t = tk) ->
  netlog (world (run_events [Call 0 at_ms]
                   (mkLoop w [Idle (Client.refreshAccessToken arg)]))) =
    (netlog w ++ [mkFetchCall "https://www.strava.com/oauth/token" POST
                    (Some {[ "Content-Type" := "application/json" ]})
                    (Some (refresh_body (self w) tk))
                    (timeout (config (self w)))])%list.
Proof.
  intros Hne Harg. apply truthy_true in Hne.
  cbn [run_events fold_left step tasks world lookup list_lookup].
  unfold continue_task. cbn [world tasks].
  unfold Client.refreshAccessToken. seg. cbn [self set_clock].
  assert (Hchoice :
    (if truthy_opt arg then arg else refreshToken <$> tokens (self w)) = Some tk).
  { destruct Harg as [-> | [[-> | ->] (t & -> & <-)]]; simpl; try reflexivity.
    rewrite Hne. reflexivity. }
  rewrite Hchoice. cbn [truthy_opt]. rewrite Hne. cbn [negb default].
  unfold Client.requestRaw, Client.fetchWithTimeout, Client.fetch.
  seg. rewrite run_sync_await_fetch. reflexivity.
Qed.

Lemma refreshAccessToken_sends_argument_first_witness :
  map req_body
    (netlog (world (run_events [Call 0 test_instant]
                      (mkLoop example_world
                         [Idle (Client.refreshAccessToken (Some "refresh-token"))])))) =
    [Some (refresh_body example_client "refresh-token")].
Proof.
  rewrite (refreshAccessToken_sends_argument_first (Some "refresh-token") example_world
             test_instant "refresh-token"); [reflexivity | discriminate | left; reflexivity].
Defined.

(** X16.  After a token exchange that succeeded, the client is signed in with the
    new token: the authorization header is built from the access token of
    the response (when that is not empty), and [hasValidTokens] holds as long
    as the response's expiry lies after the current second. *)
Theorem exchange_signs_client_in (code : string) (w : World) (at_ms : Z)
    (nb : NetBehaviour) (d : StravaTokenResponse) :
  token_answer (timeout (config (self w))) nb = Some d ->
  access_token d <> "" ->
  let w' := world (exchange_run code w at_ms nb) in
  run_sync Client.getAuthHeaders w' =
    (Finished (inr ({[ "Authorization" := "Bearer " +:+ access_token d ]} : HeaderRecord)), w') /\
  run_sync Client.hasValidTokens w' = (Finished (inr (at_ms / 1000 <? expires_at d)), w').
Proof.
  intros Hans Hne. cbv zeta. unfold exchange_run, run_events.
  cbn [fold_left step tasks world lookup list_lookup].
  unfold continue_task. cbn [world tasks].
  destruct (exchange_first_segment code (set_clock at_ms w)) as (k & call & Hseg & Hurl & Hk).
  rewrite Hseg. cbn [task_of_step tasks world insert list_insert lookup list_lookup net_blocked].
  cbn [self set_clock config].
  pose proof (oauth_continuation_answer k _ (timeout (config (self w))) nb
                (log_fetch call (set_clock at_ms w)) Hk) as Hrun.
  rewrite Hans in Hrun. rewrite Hrun. cbn [world].
  split.
  - apply (getAuthHeaders_token _ (Client.tokens_of_response d)); [reflexivity | exact Hne].
  - reflexivity.
Qed.

Lemma exchange_signs_client_in_witness :
  run_sync Client.hasValidTokens
    (world (exchange_run "auth-code" stale_world test_instant token_endpoint_answer)) =
    (Finished (inr true),
     world (exchange_run "auth-code" stale_world test_instant token_endpoint_answer)).
Proof.
  apply (proj2 (exchange_signs_client_in "auth-code" stale_world test_instant
                  token_endpoint_answer new_token_response eq_refl ltac:(discriminate))).
Defined.

(** ** Testing the connection *)

Section TestConnection.
Import Client.

Lemma try_catch_never_throws {A : Type} (p : Prog A) (h : Exn -> Prog A) :
  (forall e, never_throws (h e)) -> never_throws (try_catch p h).
Proof. intros Hh. induction p; cbn; auto. Qed.

Lemma run_sync_never_rejects {A : Type} (p : Prog A) (w : World) :
  never_throws p -> never_rejects (task_of_step (fst (run_sync p w))).
Proof.
  revert w. induction p; intros w Hp; cbn in *; auto.
  match goal with |- context [run_sync ?b w] => destruct (run_sync b w) as [s w1] end.
  match goal with IH : forall (q : PromiseId) (w : World), _ |- _ => apply IH, Hp end.
Qed.

Lemma continue_task_never_rejects {A : Type} (i : nat) (q : Prog A) (l : Loop A) :
  never_throws q -> Forall never_rejects (tasks l) ->
  Forall never_rejects (tasks (continue_task i q l)).
Proof.
  intros Hq Hl. unfold continue_task.
  pose proof (run_sync_never_rejects q (world l) Hq) as Hs.
  destruct (run_sync q (world l)) as [s w']. cbn [tasks fst] in *.
  destruct (decide (i < length (tasks l))%nat) as [Hlt | Hge].
  - apply Forall_insert; assumption.
  - rewrite list_insert_ge by lia. exact Hl.
Qed.

Lemma continue_promise_tasks {A : Type} (p : PromiseId) (q : Prog StravaTokenResponse)
    (l : Loop A) :
  tasks (continue_promise p q l) = tasks l.
Proof. unfold continue_promise. destruct (run_sync q (world l)). reflexivity. Qed.

Lemma step_never_rejects {A : Type} (e : Event) (l : Loop A) :
  Forall never_rejects (tasks l) -> Forall never_rejects (tasks (step e l)).
Proof.
  intros Hl. destruct e as [i at_ms | [i | p] nb | [i | p]]; cbn [step].
  - destruct (tasks l !! i) as [[q | b | r]|] eqn:E; try exact Hl.
    apply continue_task_never_rejects; [|exact Hl].
    apply (Forall_lookup_1 _ _ _ _ Hl E).
  - destruct (tasks l !! i) as [[q | b | r]|] eqn:E; try exact Hl.
    pose proof (Forall_lookup_1 _ _ _ _ Hl E) as Hb.
    destruct b as [id tm k | r k | pr k]; cbn [net_blocked]; try exact Hl.
    apply continue_task_never_rejects; [apply Hb | exact Hl].
  - destruct (promises (world l) !! p) as [[b | r]|]; try exact Hl.
    destruct (net_blocked nb b); [rewrite continue_promise_tasks|]; exact Hl.
  - destruct (tasks l !! i) as [[q | b | r]|] eqn:E; try exact Hl.
    pose proof (Forall_lookup_1 _ _ _ _ Hl E) as Hb.
    destruct b as [id tm k | r k | pr k]; cbn [wake_blocked]; try exact Hl.
    + apply continue_task_never_rejects; [apply Hb | exact Hl].
    + destruct (promises (world l) !! pr) as [[b' | r']|]; try exact Hl.
      apply continue_task_never_rejects; [apply Hb | exact Hl].
  - destruct (promises (world l) !! p) as [[b | r]|]; try exact Hl.
    destruct (wake_blocked (world l) b); [rewrite continue_promise_tasks|]; exact Hl.
Qed.

Lemma run_events_never_rejects {A : Type} (es : list Event) (l : Loop A) :
  Forall never_rejects (tasks l) -> Forall never_rejects (tasks (run_events es l)).
Proof.
  revert l. induction es as [|e es IH]; intros l Hl; [exact Hl|].
  cbn [run_events fold_left]. apply IH, step_never_rejects, Hl.
Qed.

Lemma request_signed_out {T : Type} (read : Body -> option T) (m : Method) (path : string)
    (options : RequestOptions) (w : World) :
  rq_skipAuth options = false -> tokens (self w) = None ->
  run_sync (request read m path options) w = (Finished (inl no_access_token), w).
Proof.
  intros Hskip Hn. unfold request. seg. rewrite Hskip, Hn. cbn [negb].
  rewrite andb_false_r. cbn [andb]. seg.
  rewrite getAuthHeaders_no_token by (left; exact Hn). reflexivity.
Qed.

Lemma testConnection_never_throws : never_throws testConnection.
Proof. apply try_catch_never_throws. intros e. exact I. Qed.

End TestConnection.

(** X17.  [testConnection] never rejects: whatever the client holds, whenever it
    is called and whatever the network and the other events do, the call is
    never in a rejected state.  Without tokens it answers [false] at once,
    with no call of [fetch]; with an access token it answers [true] exactly
    when the athlete request gets a success in time whose body is JSON, and
    [false] on every other outcome. *)
Theorem testConnection_never_rejects (es : list Event) (w : World) (at_ms : Z)
    (nb : NetBehaviour) :
  (forall i e, tasks (run_events es (mkLoop w [Idle Client.testConnection])) !! i
               <> Some (Done (inl e))) /\
  (tokens (self w) = None ->
   run_events [Call 0 at_ms] (mkLoop w [Idle Client.testConnection]) =
     mkLoop (set_clock at_ms w) [Done (inr false)]) /\
  (forall t, authenticated w t at_ms ->
   tasks (testConnection_run w at_ms nb) =
     [Done (inr (json_success Client.DEFAULT_TIMEOUT nb))]).
Proof.
  split; [|split].
  - intros i e Hi.
    assert (Hall : Forall never_rejects
                     (tasks (run_events es (mkLoop w [Idle Client.testConnection])))).
    { apply run_events_never_rejects. cbn [tasks]. constructor; [|constructor].
      exact testConnection_never_throws. }
    apply (Forall_lookup_1 _ _ _ _ Hall Hi).
  - intros Hn. cbn [run_events fold_left step tasks world lookup list_lookup].
    unfold continue_task. cbn [world tasks].
    unfold Client.testConnection, Client.getAthlete. seg.
    rewrite request_signed_out by (reflexivity || exact Hn). reflexivity.
  - intros t Hauth. unfold testConnection_run.
    cbn [run_events fold_left step tasks world lookup list_lookup].
    unfold continue_task. cbn [world tasks].
    unfold Client.testConnection, Client.getAthlete. seg.
    destruct (request_first_segment json_value GET "/athlete" Client.no_options
                (set_clock at_ms w) t Hauth eq_refl) as (k & Hseg & Herr & Hresp).
    rewrite Hseg. cbn [bind_blocked catch_blocked].
    cbn [task_of_step tasks world insert list_insert lookup list_lookup net_blocked].
    unfold json_success.
    destruct (settle Client.DEFAULT_TIMEOUT nb) as [e | r].
    + rewrite run_sync_try_catch, run_sync_bind, Herr, on_fetch_error_cases. reflexivity.
    + rewrite run_sync_try_catch, run_sync_bind, Hresp. unfold response_outcome.
      destruct (ok r); [destruct (json_value (body r))|]; reflexivity.
Qed.

Lemma testConnection_never_rejects_witness :
  tasks (testConnection_run signed_in_world test_instant unreachable_network) =
    [Done (inr false)] /\
  tasks (testConnection_run signed_in_world test_instant
           (Responds 80 (mkResponse true 200 ∅ (json_body_value athlete)))) =
    [Done (inr true)].
Proof.
  split.
  - apply (proj2 (proj2 (testConnection_never_rejects [] signed_in_world test_instant
             unreachable_network)) (mkTokens "valid-token" "refresh-token" 1700003600)).
    split; [reflexivity|]. split; [discriminate|]. right. reflexivity.
  - apply (proj2 (proj2 (testConnection_never_rejects [] signed_in_world test_instant
             (Responds 80 (mkResponse true 200 ∅ (json_body_value athlete)))))
             (mkTokens "valid-token" "refresh-token" 1700003600)).
    split; [reflexivity|]. split; [discriminate|]. right. reflexivity.
Defined.

(** ** The pagination generator *)

Section GeneratorLaziness.
Import Pagination.
Context {T : Type}.
Variable pages : Z -> Z -> list T.
Variable perPage : Z.

Lemma next_at_stub (page : Z) (calls : list (Z * Z)) :
  next_at (stub_fetch pages) perPage page calls =
    (match pages page perPage with
     | [] => (None, Returned)
     | item :: rest =>
         (Some item,
          InPage page rest (negb (Z.of_nat (length (pages page perPage)) <? perPage)))
     end, (calls ++ [(page, perPage)])%list).
Proof.
  unfold next_at, stub_fetch, mbind, stub_bind.
  destruct (pages page perPage); reflexivity.
Qed.

Lemma next_fetches_at_most_once (st : GenState T) (calls : list (Z * Z)) :
  snd (next (stub_fetch pages) perPage st calls) = calls \/
  exists page, snd (next (stub_fetch pages) perPage st calls) = (calls ++ [(page, perPage)])%list.
Proof.
  destruct st as [page | page [|item rest] [|] |]; cbn [next];
    try (left; reflexivity); right; eexists; rewrite next_at_stub; reflexivity.
Qed.

Lemma take_in_page (k : nat) (page : Z) (rest : list T) (more : bool) (calls : list (Z * Z)) :
  (k <= length rest)%nat ->
  take (stub_fetch pages) perPage k (InPage page rest more) calls = (firstn k rest, calls).
Proof.
  revert rest. induction k as [|k IH]; intros rest Hk; [reflexivity|].
  destruct rest as [|item rest]; [simpl in Hk; lia|].
  cbn [take next firstn]. unfold mbind, stub_bind, mret, stub_ret. cbn.
  change (take (stub_fetch pages) perPage k (InPage page rest more) calls)
    with (take (stub_fetch pages) perPage k (InPage page rest more) calls).
  rewrite IH by (simpl in Hk; lia). reflexivity.
Qed.

Lemma drain_yield (fuel : nat) (page : Z) (item : T) (rest : list T) (more : bool)
    (calls : list (Z * Z)) :
  drain (stub_fetch pages) perPage (S fuel) (InPage page (item :: rest) more) calls =
    (cons item <$> fst (drain (stub_fetch pages) perPage fuel (InPage page rest more) calls),
     snd (drain (stub_fetch pages) perPage fuel (InPage page rest more) calls)).
Proof.
  cbn [drain next]. unfold mbind, stub_bind, mret, stub_ret.
  destruct (drain (stub_fetch pages) perPage fuel (InPage page rest more) calls); reflexivity.
Qed.

Lemma drain_in_page (fuel : nat) (page : Z) (rest : list T) (more : bool)
    (calls : list (Z * Z)) :
  drain (stub_fetch pages) perPage (length rest + fuel) (InPage page rest more) calls =
    (app rest <$> fst (drain (stub_fetch pages) perPage fuel (InPage page [] more) calls),
     snd (drain (stub_fetch pages) perPage fuel (InPage page [] more) calls)).
Proof.
  induction rest as [|item rest IH].
  - cbn [length Nat.add].
    destruct (drain (stub_fetch pages) perPage fuel (InPage page [] more) calls) as [[o|] c];
      reflexivity.
  - cbn [length Nat.add]. rewrite drain_yield, IH. cbn [fst snd].
    destruct (drain (stub_fetch pages) perPage fuel (InPage page [] more) calls) as [[o|] c];
      reflexivity.
Qed.

Lemma drain_last_page (fuel : nat) (page : Z) (calls : list (Z * Z)) :
  drain (stub_fetch pages) perPage (S fuel) (InPage page [] false) calls = (Some [], calls).
Proof. reflexivity. Qed.

Lemma drain_page_done (fuel : nat) (page : Z) (calls : list (Z * Z)) :
  drain (stub_fetch pages) perPage (S fuel) (InPage page [] true) calls =
    drain (stub_fetch pages) perPage (S fuel) (AtPage (page + 1)) calls.
Proof. reflexivity. Qed.

End GeneratorLaziness.

(** X18.  The generator fetches lazily.  One [next()] makes at most one page
    fetch; a consumer that breaks out after [k] items, with [k] no more than
    the length of the first page, has its [k] items (the first [k] of page 1)
    after exactly one fetch, also when [k] is the whole of a full first
    page. *)
Theorem generator_fetches_lazily {T : Type} (pages : Z -> Z -> list T) (perPage : Z)
    (k : nat) :
  (forall st calls,
     snd (Pagination.next (Pagination.stub_fetch pages) perPage st calls) = calls \/
     exists page,
       snd (Pagination.next (Pagination.stub_fetch pages) perPage st calls) =
         (calls ++ [(page, perPage)])%list) /\
  ((0 < k)%nat /\ (k <= length (pages 1%Z perPage))%nat ->
   Pagination.take (Pagination.stub_fetch pages) perPage k (Pagination.AtPage 1) [] =
     (firstn k (pages 1 perPage), [(1, perPage)])).
Proof.
  split; [apply next_fetches_at_most_once|].
  intros [Hpos Hle]. destruct k as [|k]; [lia|].
  cbn [Pagination.take Pagination.next].
  unfold mbind at 1. unfold Pagination.stub_bind at 1. rewrite next_at_stub.
  destruct (pages 1 perPage) as [|item rest] eqn:E; [simpl in Hle; lia|].
  unfold mbind, Pagination.stub_bind.
  rewrite take_in_page by (simpl in Hle; lia). reflexivity.
Qed.

Lemma generator_fetches_lazily_witness :
  Pagination.take (Pagination.stub_fetch (two_then_one "a" "b" "c")) 2 2
    (Pagination.AtPage 1) [] = (["a"; "b"], [(1, 2)]).
Proof.
  apply (proj2 (generator_fetches_lazily (two_then_one "a" "b" "c") 2 2)).
  simpl. lia.
Defined.

(** X19.  Draining the generator item by item gives what the page loop gives: the
    same items in the same order, after the same page fetches. *)
Theorem generator_drains_to_loop {T : Type} (pages : Z -> Z -> list T) (perPage : Z)
    (fuel : nat) (page : Z) (calls calls' : list (Z * Z)) (items : list T) :
  Pagination.paginate_from (Pagination.stub_fetch pages) perPage fuel page calls =
    (Some items, calls') ->
  exists turns,
    Pagination.drain (Pagination.stub_fetch pages) perPage turns (Pagination.AtPage page) calls =
      (Some items, calls').
Proof.
  revert page calls calls' items.
  induction fuel as [|fuel IH]; intros page calls calls' items H; [discriminate H|].
  cbn [Pagination.paginate_from] in H.
  unfold mbind at 1 in H. unfold Pagination.stub_bind at 1 in H.
  unfold Pagination.stub_fetch at 1 in H.
  destruct (pages page perPage) as [|item rest] eqn:E.
  - cbn in H. injection H as <- <-. exists 1%nat.
    cbn [Pagination.drain Pagination.next].
    unfold mbind, Pagination.stub_bind. rewrite next_at_stub, E. reflexivity.
  - cbn [length Nat.eqb] in H.
    destruct (Z.of_nat (S (length rest)) <? perPage) eqn:Eshort.
    + cbn in H. injection H as <- <-. exists (S (length rest + 1)).
      cbn [Pagination.drain Pagination.next].
      unfold mbind at 1. unfold Pagination.stub_bind at 1. rewrite next_at_stub, E.
      cbn [length]. rewrite Eshort. cbn [negb].
      unfold mbind, Pagination.stub_bind.
      rewrite drain_in_page, drain_last_page. cbn [fst snd].
      unfold mret, Pagination.stub_ret. simpl. rewrite app_nil_r. reflexivity.
    + unfold mbind, Pagination.stub_bind in H.
      destruct (Pagination.paginate_from (Pagination.stub_fetch pages) perPage fuel (page + 1)
                  (calls ++ [(page, perPage)])%list) as [[more|] c] eqn:Erest;
        cbn in H; [|discriminate H].
      injection H as <- <-.
      destruct (IH _ _ _ _ Erest) as [turns Hturns].
      destruct turns as [|turns]; [discriminate Hturns|].
      exists (S (length rest + S turns)).
      cbn [Pagination.drain Pagination.next].
      unfold mbind at 1. unfold Pagination.stub_bind at 1. rewrite next_at_stub, E.
      cbn [length]. rewrite Eshort. cbn [negb].
      unfold mbind at 1. unfold Pagination.stub_bind at 1.
      rewrite drain_in_page, drain_page_done, Hturns. reflexivity.
Qed.

Lemma generator_drains_to_loop_witness :
  exists turns,
    Pagination.drain (Pagination.stub_fetch (two_then_one "a" "b" "c")) 2 turns
      (Pagination.AtPage 1) [] = (Some ["a"; "b"; "c"], [(1, 2); (2, 2)]).
Proof.
  apply (generator_drains_to_loop (two_then_one "a" "b" "c") 2 5 1 [] [(1, 2); (2, 2)]
           ["a"; "b"; "c"]).
  reflexivity.
Defined.

(** ** Requests that return text *)

(** X20.  [requestText] on a client that holds an access token makes one call
    that carries the authorization header and nothing else, under the
    configured timeout (not the default one).  A success that comes in time
    ends the call with the text of the body, whether or not that is JSON; an
    answer that does not come before the configured timeout ends it with the
    timed-out Network error.  A response updates the snapshot. *)
Theorem requestText_returns_body_text (m : Method) (path : string) (baseUrl : option string)
    (w : World) (t : StravaTokens) (at_ms : Z) (nb : NetBehaviour) :
  authenticated w t at_ms ->
  let l := requestText_run m path baseUrl w at_ms nb in
  netlog (world l) =
    (netlog w ++ [mkFetchCall (default Client.STRAVA_API_BASE_URL baseUrl +:+ path) m
                    (Some {[ "Authorization" := "Bearer " +:+ accessToken t ]}) None
                    (timeout (config (self w)))])%list /\
  (forall r, settle (timeout (config (self w))) nb = inr r ->
     rateLimitInfo (self (world l)) = snapshot_after (rheaders r) (rateLimitInfo (self w)) /\
     (ok r = true -> tasks l = [Done (inr (text (body r)))])) /\
  (settle (timeout (config (self w))) nb = inl AbortError ->
   tasks l = [Done (inl timed_out)] /\ self (world l) = self w).
Proof.
  intros Hauth. cbv zeta. pose proof Hauth as (Ht & Hne & _).
  unfold requestText_run. cbn [run_events fold_left step tasks world lookup list_lookup].
  unfold continue_task. cbn [world tasks].
  unfold Client.requestText. seg.
  rewrite (refresh_guard_quiet (set_clock at_ms w) t _ Hauth)
    by (intros H; apply andb_prop in H as [H _]; exact H).
  seg. rewrite (getAuthHeaders_token (set_clock at_ms w) t Ht Hne). seg.
  destruct (fetchWithTimeout_first_segment
              (default Client.STRAVA_API_BASE_URL baseUrl +:+ path)
              (Client.mkFetchOptions m
                 (Some (default ∅ None ∪
                        ({[ "Authorization" := "Bearer " +:+ accessToken t ]} : HeaderRecord)))
                 None (fun response => mret (text (body response))) None false None)
              (set_clock at_ms w))
    as (k & Hseg & Herr & Hresp).
  rewrite Hseg.
  cbn [task_of_step tasks world insert list_insert lookup list_lookup net_blocked].
  cbn [Client.fo_timeout Client.fo_method Client.fo_headers Client.fo_body default
       self set_clock config].
  assert (Hhdr : (∅ ∪ ({[ "Authorization" := "Bearer " +:+ accessToken t ]} : HeaderRecord))
                 = {[ "Authorization" := "Bearer " +:+ accessToken t ]})
    by apply (left_id ∅ (∪)).
  destruct (settle (timeout (config (self w))) nb) as [e | r].
  - rewrite Herr, on_fetch_error_cases. cbn [world tasks log_fetch netlog set_clock].
    rewrite Hhdr. split; [reflexivity|]. split; [discriminate|].
    intros He. injection He as ->. split; reflexivity.
  - rewrite Hresp. cbn [Client.fo_skipRateLimit Client.fo_parseResponse Client.fo_context].
    destruct (ok r) eqn:Hok; seg;
      cbn [world tasks log_fetch netlog set_clock set_self self
           Client.with_rateLimitInfo rateLimitInfo task_of_step];
      rewrite Hhdr; (split; [reflexivity|]); (split; [|discriminate]);
      intros r' Hr'; injection Hr' as <-; (split; [reflexivity|]).
    + intros _. reflexivity.
    + intros Hok'. congruence.
Qed.

Lemma requestText_returns_body_text_witness :
  tasks (requestText_run GET "/routes/42/export_gpx" None signed_in_world test_instant
           gpx_answer) = [Done (inr "<gpx></gpx>")] /\
  tasks (requestText_run GET "/routes/42/export_gpx" None
           (empty_world five_second_client) test_instant gpx_answer) =
    [Done (inl timed_out)].
Proof.
  split.
  - refine (proj2 (proj1 (proj2 (requestText_returns_body_text GET "/routes/42/export_gpx"
              None signed_in_world (mkTokens "valid-token" "refresh-token" 1700003600)
              test_instant gpx_answer _)) _ eq_refl) eq_refl).
    split; [reflexivity|]. split; [discriminate|]. right. reflexivity.
  - refine (proj1 (proj2 (proj2 (requestText_returns_body_text GET "/routes/42/export_gpx"
              None (empty_world five_second_client)
              (mkTokens "valid-token" "refresh-token" 1700003600)
              test_instant gpx_answer _)) eq_refl)).
    split; [reflexivity|]. split; [discriminate|]. right. reflexivity.
Defined.

(** ** Requests that skip authentication *)

(** X21.  A request made with [skipAuth] never looks at the tokens: whatever the
    client holds (nothing, an empty access token, tokens overdue for a
    refresh), the call goes out at once with the caller's headers and the
    default content type, and with no authorization header of the client's;
    no refresh is started and the client is unchanged. *)
Theorem request_skipAuth_ignores_tokens {T : Type} (read : Body -> option T) (m : Method)
    (path : string) (options : Client.RequestOptions) (w : World) (at_ms : Z) :
  Client.rq_skipAuth options = true ->
  let l := run_events [Call 0 at_ms] (mkLoop w [Idle (Client.request read m path options)]) in
  self (world l) = self w /\ promises (world l) = promises w /\
  cblog (world l) = cblog w /\
  map is_waiting (tasks l) = [true] /\
  netlog (world l) =
    (netlog w ++
     [mkFetchCall
        (Client.build_url (default Client.STRAVA_API_BASE_URL (Client.rq_baseUrl options))
           path (Client.rq_params options))
        m
        (Some (default ∅ (Client.rq_headers options) ∪
               {[ "Content-Type" := "application/json" ]}))
        (Client.rq_body options) Client.DEFAULT_TIMEOUT])%list.
Proof.
  intros Hskip. cbv zeta.
  cbn [run_events fold_left step tasks world lookup list_lookup].
  unfold continue_task. cbn [world tasks].
  unfold Client.request. seg. rewrite Hskip. cbn [negb]. rewrite andb_false_r. seg.
  unfold Client.fetch. seg. rewrite run_sync_await_fetch.
  cbn [bind_blocked catch_blocked timer].
  repeat split.
Qed.

Lemma request_skipAuth_ignores_tokens_witness :
  map req_headers
    (netlog (world (run_events [Call 0 test_instant]
       (mkLoop access_only_world
          [Idle (Client.request json_value GET "/athlete"
                   (Client.mkRequestOptions None None None None true))])))) =
    [Some {[ "Content-Type" := "application/json" ]}].
Proof.
  destruct (request_skipAuth_ignores_tokens json_value GET "/athlete"
              (Client.mkRequestOptions None None None None true) access_only_world
              test_instant eq_refl) as (_ & _ & _ & _ & Hlog).
  rewrite Hlog. vm_compute. reflexivity.
Defined.

(** ** The request hook *)

(** X22.  The [onRequest] hook of the later revision never sees a credential under
    the [Authorization] header: what it is handed there is the mask, unless
    the call has no such header or an empty one.  The method, the URL and
    every other header are those of the call. *)
Theorem onRequest_never_sees_authorization (u : string) (m : Method)
    (hs : option HeaderRecord) :
  let info := Hooks.onRequest_info u m hs in
  Hooks.info_method info = m /\ Hooks.info_url info = u /\
  (forall v, hs ≫= (.!! "Authorization") = Some v -> v <> "" ->
     Hooks.info_headers info !! "Authorization" = Some "Bearer [REDACTED]") /\
  (forall v, Hooks.info_headers info !! "Authorization" = Some v ->
     v = "Bearer [REDACTED]" \/ v = "") /\
  (forall key, key <> "Authorization" ->
     Hooks.info_headers info !! key = hs ≫= (.!! key)).
Proof.
  cbv zeta. unfold Hooks.onRequest_info. cbn [Hooks.info_method Hooks.info_url Hooks.info_headers].
  split; [reflexivity|]. split; [reflexivity|].
  assert (Hget : default (∅ : HeaderRecord) hs !! "Authorization" = hs ≫= (.!! "Authorization")).
  { destruct hs; [reflexivity | apply lookup_empty]. }
  assert (Hkey : forall key, default (∅ : HeaderRecord) hs !! key = hs ≫= (.!! key)).
  { intros key. destruct hs; [reflexivity | apply lookup_empty]. }
  unfold HeaderRecord in *. rewrite Hget.
  destruct (hs ≫= (.!! "Authorization")) as [a|] eqn:Ea; cbn [truthy_opt].
  - destruct a as [|c a]; cbn [truthy].
    + split; [intros v Hv Hne; congruence|].
      split; [intros v Hv; rewrite Hget in Hv; right; congruence|].
      intros key _. apply Hkey.
    + split; [intros v _ _; apply lookup_insert_eq|].
      split; [intros v Hv; rewrite lookup_insert_eq in Hv; left; congruence|].
      intros key Hne. rewrite lookup_insert_ne by congruence. apply Hkey.
  - split; [intros v Hv; discriminate Hv|].
    split; [intros v Hv; rewrite Hget in Hv; discriminate Hv|].
    intros key _. apply Hkey.
Qed.

Lemma onRequest_never_sees_authorization_witness :
  Hooks.info_headers
    (Hooks.onRequest_info "https://www.strava.com/api/v3/athlete" GET
       (Some (list_to_map [("Authorization", "Bearer valid-token");
                           ("Content-Type", "application/json")])))
    !! "Authorization" = Some "Bearer [REDACTED]".
Proof.
  apply (proj1 (proj2 (proj2 (onRequest_never_sees_authorization
           "https://www.strava.com/api/v3/athlete" GET
           (Some (list_to_map [("Authorization", "Bearer valid-token");
                               ("Content-Type", "application/json")])))))
           "Bearer valid-token"); [reflexivity | discriminate].
Defined.

(** ** Well-formed rate-limit headers *)


(** X23.  Headers as the server writes them are read exactly.  When the limit
    and the usage headers are two decimal numbers, each no more than 2^53 (up
    to which every integer is a JavaScript number), with a comma in between,
    the snapshot holds these four numbers, the first of each header for the
    short term and the second for the long term; a [retry-after] header that
    is such a decimal number of seconds is carried by the RateLimit error as
    that number. *)
Theorem decimal_headers_are_read_exactly (a b c d n : Z) :
  0 <= a <= MAX_EXACT_INTEGER -> 0 <= b <= MAX_EXACT_INTEGER ->
  0 <= c <= MAX_EXACT_INTEGER -> 0 <= d <= MAX_EXACT_INTEGER ->
  0 <= n <= MAX_EXACT_INTEGER ->
  Client.rate_limit_of (pretty a +:+ "," +:+ pretty b) (pretty c +:+ "," +:+ pretty d) =
    mkRateLimitInfo (mkWindow (Some (Int c)) (Some (Int a)))
                    (mkWindow (Some (Int d)) (Some (Int b))) /\
  forall r, status r = 429 -> Headers_get (headers r) "retry-after" = Some (pretty n) ->
    retryAfter (parseStravaError (InResponse r)) = Some (Int n).
Proof.
  intros Ha Hb Hc Hd Hn. split.
  - unfold Client.rate_limit_of.
    rewrite !split_pair by (apply pretty_all_digits; lia).
    cbn [map nth_or_undefined nth_error].
    rewrite !Number_pretty by assumption. reflexivity.
  - intros r Hst Hra. unfold parseStravaError. rewrite Hst. cbn [Z.eqb Pos.eqb].
    unfold StravaRateLimitError. cbn [retryAfter]. rewrite Hra.
    destruct (pretty_digits n (proj1 Hn)) as (x & xs & Hch & _).
    assert (Htruthy : truthy (pretty n) = true).
    { destruct (pretty n); [discriminate Hch | reflexivity]. }
    cbn [truthy_opt]. rewrite Htruthy. cbn [fmap option_fmap option_map].
    rewrite parseInt_pretty by assumption. reflexivity.
Qed.

Lemma decimal_headers_are_read_exactly_witness :
  Client.rate_limit_of "600,30000" "314,27536" =
    mkRateLimitInfo (mkWindow (Some (Int 314)) (Some (Int 600)))
                    (mkWindow (Some (Int 27536)) (Some (Int 30000))).
Proof.
  apply (proj1 (decimal_headers_are_read_exactly 600 30000 314 27536 900
           ltac:(unfold MAX_EXACT_INTEGER; lia) ltac:(unfold MAX_EXACT_INTEGER; lia)
           ltac:(unfold MAX_EXACT_INTEGER; lia) ltac:(unfold MAX_EXACT_INTEGER; lia)
           ltac:(unfold MAX_EXACT_INTEGER; lia))).
Defined.

(** ** After a revocation *)

(** X24.  Once [deauthorize] has gone through, the client makes no further
    authenticated call: every request that requires auth fails with the
    Validation error before any call of [fetch], [testConnection] answers
    [false], and [hasValidTokens] is [false]. *)
Theorem deauthorized_client_is_signed_out {T : Type} (w : World) (t : StravaTokens)
    (at_ms : Z) (nb : NetBehaviour) (read : Body -> option T) (m : Method) (path : string)
    (options : Client.RequestOptions) :
  authenticated w t at_ms ->
  json_success (timeout (config (self w))) nb = true ->
  Client.rq_skipAuth options = false ->
  let w' := world (deauthorize_run w at_ms nb) in
  run_sync (Client.request read m path options) w' = (Finished (inl no_access_token), w') /\
  run_sync Client.testConnection w' = (Finished (inr false), w') /\
  run_sync Client.hasValidTokens w' = (Finished (inr false), w').
Proof.
  intros Hauth Hok Hskip. cbv zeta.
  destruct (deauthorize_run_cases w t at_ms nb Hauth) as (_ & _ & _ & Hyes & _).
  destruct (Hyes Hok) as [_ Hnone].
  split; [apply request_signed_out; assumption|]. split.
  - unfold Client.testConnection, Client.getAthlete. seg.
    rewrite request_signed_out by (reflexivity || exact Hnone). reflexivity.
  - unfold Client.hasValidTokens. seg. rewrite Hnone. reflexivity.
Qed.

Lemma deauthorized_client_is_signed_out_witness :
  run_sync Client.getAthlete
    (world (deauthorize_run signed_in_world test_instant revocation_answer)) =
    (Finished (inl no_access_token),
     world (deauthorize_run signed_in_world test_instant revocation_answer)).
Proof.
  refine (proj1 (deauthorized_client_is_signed_out signed_in_world
            (mkTokens "valid-token" "refresh-token" 1700003600) test_instant
            revocation_answer json_value GET "/athlete" Client.no_options _ eq_refl eq_refl)).
  split; [reflexivity|]. split; [discriminate|]. right. reflexivity.
Defined.

(** ** Requests that find the tokens due *)

Section RefreshThenRequest.
Import Client.

Lemma refresh_settles_any {A : Type} (nb : NetBehaviour) (w2 : World) (tks : list (Task A))
    (p : PromiseId) (id : nat) (tm : Z) (kf : JS.Error + Response -> Prog StravaTokenResponse) :
  promises w2 !! p = Some (Pending (WFetch id tm kf)) ->
  oauth_continuation kf
    (fun d w' =>
       (Suspended (WCallback (onTokenRefresh (config (self w')) (tokens_of_response d))
                     (callback_cont d)),
        log_callback (tokens_of_response d) (store_tokens d w'))) ->
  exists R w3,
    run_events [Net (PromiseT p) nb; Wake (PromiseT p)] (mkLoop w2 tks) = mkLoop w3 tks /\
    promises w3 !! p = Some (Settled R) /\
    netlog w3 = netlog w2 /\
    match token_answer tm nb with
    | Some d =>
        R = refresh_result (self w2) d /\
        self w3 = with_tokens (Some (tokens_of_response d)) (self w2) /\
        cblog w3 = (cblog w2 ++ [tokens_of_response d])%list
    | None => (exists e, R = inl e) /\ self w3 = self w2 /\ cblog w3 = cblog w2
    end.
Proof.
  intros Hp Hkf.
  assert (Hlt : (p < length (promises w2))%nat) by (eapply lookup_lt_Some; exact Hp).
  cbn [run_events fold_left].
  rewrite (step_net_promise w2 tks p id tm kf nb Hp).
  pose proof (oauth_continuation_answer kf _ tm nb w2 Hkf) as Hrun.
  destruct (token_answer tm nb) as [d|].
  - rewrite Hrun. cbn [fst snd promise_of_step].
    erewrite step_wake_promise_callback
      by (cbn [promises set_promise]; apply list_lookup_insert_eq; exact Hlt).
    exists (refresh_result (self w2) d). unfold refresh_result.
    cbn [self store_tokens log_callback set_self config with_tokens set_promise].
    destruct (onTokenRefresh (config (self w2)) (tokens_of_response d)) as [e|];
      cbn [callback_cont bind run_sync mret prog_ret promise_of_step fst snd];
      eexists; (split; [reflexivity|]); cbn [promises set_promise netlog self cblog];
      (split; [apply list_lookup_insert_eq; rewrite length_insert; exact Hlt|]);
      repeat split.
  - destruct Hrun as [e Hrun]. rewrite Hrun. cbn [fst snd promise_of_step].
    erewrite step_wake_promise_settled
      by (cbn [world promises set_promise]; apply list_lookup_insert_eq; exact Hlt).
    exists (inl e). eexists. split; [reflexivity|].
    cbn [promises set_promise netlog self cblog].
    split; [apply list_lookup_insert_eq; exact Hlt|].
    split; [reflexivity|]. split; [exists e; reflexivity|]. split; reflexivity.
Qed.

(** The first segment of a request that finds the tokens due ends at the
    await of the refresh it started.  Resumed with a failure of the refresh,
    the request fails with it; resumed with a success, it goes on to its own
    call of [fetch], with the access token the client then holds.  Either
    way the marker is cleared first. *)
Lemma request_first_segment_due {T : Type} (read : Body -> option T) (m : Method)
    (path : string) (options : RequestOptions) (w : World) (t : StravaTokens) :
  refresh_due w t (clock w) -> rq_skipAuth options = false ->
  exists K kf call,
    run_sync (request read m path options) w =
      (Suspended (WPromise (length (promises w)) K),
       install_marker (length (promises w))
         (add_promise (Pending (WFetch (length (netlog w)) (timeout (config (self w))) kf))
            (log_fetch call w))) /\
    url call = "https://www.strava.com/oauth/token" /\
    oauth_continuation kf
      (fun d w' =>
         (Suspended (WCallback (onTokenRefresh (config (self w')) (tokens_of_response d))
                       (callback_cont d)),
          log_callback (tokens_of_response d) (store_tokens d w'))) /\
    (forall e w', run_sync (K (inl e)) w' = (Finished (inl e), clear_marker w')) /\
    (forall d w' t',
       tokens (self w') = Some t' -> accessToken t' = "" ->
       run_sync (K (inr d)) w' = (Finished (inl no_access_token), clear_marker w')) /\
    (forall d w' t',
       tokens (self w') = Some t' -> accessToken t' <> "" ->
       exists k2,
         run_sync (K (inr d)) w' =
           (Suspended (WFetch (length (netlog w')) DEFAULT_TIMEOUT k2),
            log_fetch
              (mkFetchCall
                 (build_url (default STRAVA_API_BASE_URL (rq_baseUrl options)) path
                    (rq_params options))
                 m
                 (Some (({[ "Authorization" := "Bearer " +:+ accessToken t' ]} : HeaderRecord) ∪
                        (default ∅ (rq_headers options) ∪
                         {[ "Content-Type" := "application/json" ]})))
                 (rq_body options) DEFAULT_TIMEOUT) (clear_marker w'))).
Proof.
  intros (Ht & Hdue & Hauto & Hmarker & Hrt) Hskip.
  destruct (refreshTokenIfNeeded_starts w t) as (k0 & kf & call & Hrun & Hk0 & Hurl & Hkf);
    [split; assumption | exact Hmarker | exact Hrt |].
  unfold request. seg. rewrite Hskip, Hauto, Ht.
  rewrite bool_decide_eq_true_2 by (eexists; reflexivity). cbn [negb andb].
  rewrite Hrun. cbn [bind_blocked].
  eexists. exists kf, call. split; [reflexivity|]. split; [exact Hurl|].
  split; [exact Hkf|]. split; [|split].
  - intros e w'. rewrite run_sync_bind, Hk0. reflexivity.
  - intros d w' t' Ht' He'. rewrite run_sync_bind, Hk0. cbn [caller_outcome]. seg.
    rewrite (getAuthHeaders_no_token (clear_marker w'))
      by (right; exists t'; split; assumption).
    reflexivity.
  - intros d w' t' Ht' Hne'. rewrite run_sync_bind, Hk0. cbn [caller_outcome]. seg.
    rewrite (getAuthHeaders_token (clear_marker w') t' Ht' Hne'). seg.
    unfold fetch. seg. rewrite run_sync_await_fetch.
    cbn [bind_blocked catch_blocked timer]. eexists. reflexivity.
Qed.

End RefreshThenRequest.

(** X25.  A request that finds the tokens due (auto-refresh on, no refresh
    in flight, a refresh token to send) first makes the refresh exchange.
    When that succeeds and the callback returns, the client holds the new
    triple and the request goes out with the new access token, as the second
    call of [fetch].  When the exchange fails, the request fails with no
    call of its own and the old tokens stay; when the callback fails, the
    request fails with the callback's error, again with no call of its own.
    In every case the refresh marker is cleared. *)
Theorem request_refreshes_before_calling {T : Type} (read : Body -> option T) (m : Method)
    (path : string) (options : Client.RequestOptions) (w : World) (t : StravaTokens)
    (at_ms : Z) (nb : NetBehaviour) :
  refresh_due w t at_ms -> Client.rq_skipAuth options = false ->
  let l := request_after_refresh read m path options w at_ms nb in
  let answer := token_answer (timeout (config (self w))) nb in
  refreshPromise (self (world l)) = None /\
  (exists token_call rest,
     netlog (world l) = (netlog w ++ token_call :: rest)%list /\
     url token_call = "https://www.strava.com/oauth/token" /\
     (forall d, answer = Some d ->
        tokens (self (world l)) =
          Some (mkTokens (access_token d) (refresh_token d) (expires_at d)) /\
        (forall e, onTokenRefresh (config (self w)) (Client.tokens_of_response d) = Some e ->
           tasks l = [Done (inl e)] /\ rest = []) /\
        (onTokenRefresh (config (self w)) (Client.tokens_of_response d) = None ->
         access_token d <> "" ->
         map is_waiting (tasks l) = [true] /\
         rest = [mkFetchCall
                   (Client.build_url
                      (default Client.STRAVA_API_BASE_URL (Client.rq_baseUrl options)) path
                      (Client.rq_params options))
                   m
                   (Some (({[ "Authorization" := "Bearer " +:+ access_token d ]}
                            : HeaderRecord) ∪
                          (default ∅ (Client.rq_headers options) ∪
                           {[ "Content-Type" := "application/json" ]})))
                   (Client.rq_body options) Client.DEFAULT_TIMEOUT])) /\
     (answer = None ->
      tokens (self (world l)) = Some t /\ rest = [] /\ exists e, tasks l = [Done (inl e)])).
Proof.
  intros Hdue Hskip. cbv zeta. pose proof Hdue as (Ht & _).
  unfold request_after_refresh.
  change (run_events [Call 0 at_ms; Net (PromiseT (length (promises w))) nb;
                      Wake (PromiseT (length (promises w))); Wake (TaskT 0)]
            (mkLoop w [Idle (Client.request read m path options)]))
    with (step (Wake (TaskT 0))
            (run_events [Net (PromiseT (length (promises w))) nb;
                         Wake (PromiseT (length (promises w)))]
               (step (Call 0 at_ms) (mkLoop w [Idle (Client.request read m path options)])))).
  destruct (request_first_segment_due read m path options (set_clock at_ms w) t Hdue Hskip)
    as (K & kf & call & Hseg & Hurl & Hkf & Kfail & Kempty & Kok).
  cbn [promises netlog set_clock self config] in *.
  set (w1 := install_marker (length (promises w))
               (add_promise
                  (Pending (WFetch (length (netlog w)) (timeout (config (self w))) kf))
                  (log_fetch call (set_clock at_ms w)))) in *.
  assert (Hcall : step (Call 0 at_ms) (mkLoop w [Idle (Client.request read m path options)]) =
                  mkLoop w1 [Waiting (WPromise (length (promises w)) K)]).
  { cbn [step tasks world lookup list_lookup]. unfold continue_task. cbn [world tasks].
    rewrite Hseg. reflexivity. }
  rewrite Hcall.
  destruct (refresh_settles_any nb w1 [Waiting (WPromise (length (promises w)) K)]
              (length (promises w)) (length (netlog w)) (timeout (config (self w))) kf)
    as (R & w3 & Hrun & HpR & Hnet & Hcase);
    [apply lookup_new_promise | exact Hkf |].
  rewrite Hrun. cbn [step tasks world lookup list_lookup wake_blocked]. rewrite HpR.
  unfold continue_task. cbn [world tasks].
  assert (Hlog : netlog w3 = (netlog w ++ [call])%list) by (rewrite Hnet; reflexivity).
  destruct (token_answer (timeout (config (self w))) nb) as [d|].
  - destruct Hcase as (HR & Hself & _). unfold refresh_result in HR.
    cbn [w1 self install_marker set_self add_promise log_fetch set_clock config
         Client.with_refreshPromise] in HR.
    assert (Htok : tokens (self w3) = Some (Client.tokens_of_response d))
      by (rewrite Hself; reflexivity).
    destruct (onTokenRefresh (config (self w)) (Client.tokens_of_response d)) as [e|] eqn:Ecb;
      subst R.
    + rewrite Kfail. cbn [task_of_step insert list_insert world tasks].
      split; [reflexivity|].
      exists call, []. split; [exact Hlog|]. split; [exact Hurl|]. split.
      * intros d' Hd'. injection Hd' as <-. rewrite Ecb.
        split; [exact Htok|]. split.
        -- intros e' He'. injection He' as <-. split; reflexivity.
        -- intros Hnone. discriminate Hnone.
      * intros Hnone. discriminate Hnone.
    + destruct (decide (access_token d = "")) as [Hempty | Hne].
      * rewrite (Kempty d w3 (Client.tokens_of_response d) Htok Hempty).
        cbn [task_of_step insert list_insert world tasks].
        split; [reflexivity|].
        exists call, []. split; [exact Hlog|]. split; [exact Hurl|]. split.
        -- intros d' Hd'. injection Hd' as <-. rewrite Ecb.
           split; [exact Htok|]. split.
           ++ intros e' He'. discriminate He'.
           ++ intros _ Hne. contradiction.
        -- intros Hnone. discriminate Hnone.
      * destruct (Kok d w3 (Client.tokens_of_response d) Htok Hne) as [k2 Hk2].
        rewrite Hk2. cbn [task_of_step insert list_insert world tasks].
        split; [reflexivity|].
        eexists call, _. split.
        { cbn [log_fetch clear_marker set_self netlog]. rewrite Hlog, <- app_assoc.
          reflexivity. }
        split; [exact Hurl|]. split.
        -- intros d' Hd'. injection Hd' as <-. rewrite Ecb.
           split; [exact Htok|]. split.
           ++ intros e' He'. discriminate He'.
           ++ intros _ _. split; reflexivity.
        -- intros Hnone. discriminate Hnone.
  - destruct Hcase as ((e & ->) & Hself & _).
    rewrite Kfail. cbn [task_of_step insert list_insert world tasks].
    split; [reflexivity|].
    exists call, []. split; [exact Hlog|]. split; [exact Hurl|]. split.
    + intros d' Hd'. discriminate Hd'.
    + intros _. split; [|split; [reflexivity | exists e; reflexivity]].
      cbn [clear_marker self set_self Client.with_refreshPromise tokens].
      rewrite Hself. exact Ht.
Qed.

Lemma request_refreshes_before_calling_witness :
  map url (netlog (world (request_after_refresh json_value GET "/athlete" Client.no_options
                            expiring_world test_instant token_endpoint_answer))) =
    ["https://www.strava.com/oauth/token"; "https://www.strava.com/api/v3/athlete"] /\
  exists e,
    tasks (request_after_refresh json_value GET "/athlete" Client.no_options
             expiring_world test_instant rejected_token_answer) = [Done (inl e)].
Proof.
  split.
  - destruct (request_refreshes_before_calling json_value GET "/athlete" Client.no_options
                expiring_world expiring_tokens test_instant token_endpoint_answer)
      as (_ & tc & rest & Hlog & Hurl & Hsome & _).
    + split; [reflexivity|]. split; [reflexivity|]. split; [reflexivity|].
      split; [reflexivity | discriminate].
    + reflexivity.
    + destruct (Hsome new_token_response eq_refl) as (_ & _ & Hok).
      destruct (Hok eq_refl ltac:(discriminate)) as [_ Hrest].
      rewrite Hlog, Hrest. change (netlog expiring_world) with (@nil FetchCall).
      cbn [app map]. rewrite Hurl. reflexivity.
  - destruct (request_refreshes_before_calling json_value GET "/athlete" Client.no_options
                expiring_world expiring_tokens test_instant rejected_token_answer)
      as (_ & tc & rest & _ & _ & _ & Hnone).
    + split; [reflexivity|]. split; [reflexivity|]. split; [reflexivity|].
      split; [reflexivity | discriminate].
    + reflexivity.
    + destruct (Hnone eq_refl) as (_ & _ & He). exact He.
Defined.
